(** * package-bundler: the esbuild wrappers of [src/esbuild.ts]

    A shallow embedding of [readUserPlugins], [buildESM] and [buildCJS]
    together with the string, path, glob and file-tree operations they are
    built from, followed by the properties of the three functions.

    The program is glue around external tools.  The tools are modelled as
    follows.
    - Strings are [string]s (byte sequences); the JavaScript string methods
      the source calls ([replace], [includes], template literals) are
      written out on them.
    - [path.join] and [path.basename] follow Node's POSIX implementation.
    - The file tree is an association list from absolute file paths to file
      contents, in directory-listing order; a directory exists when a file
      lies below it.
    - [glob.sync] reads [*] and [**] of a pattern as wildcards, with
      fast-glob's default of not matching hidden entries.
    - [executeCmd] runs the two command shapes the program builds, [cp -r]
      and [rm -rf], on the file tree.
    - The bundler, [fs.stat] and the dynamic [import] are oracles of the
      host; every effect is appended to a chronological event log. *)

From Stdlib Require Import String Ascii List Bool Arith Lia.
Import ListNotations.
Local Open Scope string_scope.
Local Open Scope list_scope.

(* ================================================================== *)
(** * JavaScript string operations *)
(* ================================================================== *)

Module JSString.

(** [s.startsWith(pre)] *)
Fixpoint startsWith (pre s : string) : bool :=
  match pre, s with
  | EmptyString, _ => true
  | String a pre', String b s' => Ascii.eqb a b && startsWith pre' s'
  | String _ _, EmptyString => false
  end.

(** [s.slice(n)] *)
Fixpoint drop (n : nat) (s : string) : string :=
  match n, s with
  | O, _ => s
  | S n', String _ s' => drop n' s'
  | S _, EmptyString => EmptyString
  end.

(** [s.endsWith(suf)]: [suf] is one of the tails of [s]. *)
Fixpoint endsWith (suf s : string) : bool :=
  String.eqb s suf ||
  match s with
  | EmptyString => false
  | String _ s' => endsWith suf s'
  end.

(** [s.includes(pat)] *)
Fixpoint includes (pat s : string) : bool :=
  startsWith pat s ||
  match s with
  | EmptyString => false
  | String _ s' => includes pat s'
  end.

(** [s.replace(pat, rep)] with a string pattern and a replacement without
    [$]: the leftmost occurrence of [pat] is replaced, and [s] is returned
    unchanged when there is none. *)
Fixpoint replace (pat rep s : string) : string :=
  if startsWith pat s then rep ++ drop (String.length pat) s
  else match s with
       | EmptyString => EmptyString
       | String c s' => String c (replace pat rep s')
       end.

(** [s.replace(/<suf>$/, rep)] for a literal [suf]: the match is anchored
    at the end of the string. *)
Fixpoint replace_at_end (suf rep s : string) : string :=
  if String.eqb s suf then rep
  else match s with
       | EmptyString => EmptyString
       | String c s' => String c (replace_at_end suf rep s')
       end.

Definition is_separator (c : ascii) : bool :=
  Ascii.eqb c "/"%char || Ascii.eqb c "\"%char.

(** [s.replace(/(\\|\/)$/, '')] *)
Fixpoint strip_trailing_separator (s : string) : string :=
  match s with
  | EmptyString => EmptyString
  | String c EmptyString => if is_separator c then EmptyString else s
  | String c s' => String c (strip_trailing_separator s')
  end.

(** [s.replace(/^(\/|\\)/, '')] *)
Definition strip_leading_separator (s : string) : string :=
  match s with
  | EmptyString => EmptyString
  | String c s' => if is_separator c then s' else s
  end.

(** [s.split(sep)] for a one-character separator. *)
Fixpoint split (sep : ascii) (s : string) : list string :=
  match s with
  | EmptyString => [EmptyString]
  | String c s' =>
      if Ascii.eqb c sep then EmptyString :: split sep s'
      else match split sep s' with
           | h :: t => String c h :: t
           | [] => [String c EmptyString]
           end
  end.

(** [xs.join(sep)] *)
Fixpoint join (sep : string) (xs : list string) : string :=
  match xs with
  | [] => EmptyString
  | [x] => x
  | x :: rest => x ++ sep ++ join sep rest
  end.

Definition is_empty (s : string) : bool :=
  match s with EmptyString => true | _ => false end.

(** Every character of the string satisfies [P]. *)
Fixpoint all_chars (P : ascii -> bool) (s : string) : bool :=
  match s with
  | EmptyString => true
  | String c s' => P c && all_chars P s'
  end.

(** The character [c] does not occur in the string. *)
Definition without (c : ascii) (s : string) : bool :=
  all_chars (fun x => negb (Ascii.eqb x c)) s.

(** The last character of a string. *)
Fixpoint last_char (s : string) : option ascii :=
  match s with
  | EmptyString => None
  | String c EmptyString => Some c
  | String _ s' => last_char s'
  end.

End JSString.
Import JSString.

(* ================================================================== *)
(** * Node's [path] module, POSIX flavour *)
(* ================================================================== *)

Module NodePath.

(** The segment walk of Node's [normalizeString]: empty and [.] segments
    are dropped, [..] removes the segment before it, and survives only in
    a relative path that has nothing left to remove.  [stack] holds the
    kept segments, last one first. *)
Fixpoint normalize_segments (allowAboveRoot : bool) (stack segs : list string)
  : list string :=
  match segs with
  | [] => rev stack
  | s :: rest =>
      if is_empty s || String.eqb s "." then
        normalize_segments allowAboveRoot stack rest
      else if String.eqb s ".." then
        match stack with
        | top :: below =>
            if String.eqb top ".." then
              normalize_segments allowAboveRoot (".." :: stack) rest
            else normalize_segments allowAboveRoot below rest
        | [] =>
            if allowAboveRoot then
              normalize_segments allowAboveRoot [".."] rest
            else normalize_segments allowAboveRoot [] rest
        end
      else normalize_segments allowAboveRoot (s :: stack) rest
  end.

Definition isAbsolute (p : string) : bool := startsWith "/" p.

(** [path.normalize] *)
Definition normalize (p : string) : string :=
  if is_empty p then "."
  else
    let absolute := isAbsolute p in
    let trailingSeparator := endsWith "/" p in
    let body := join "/" (normalize_segments (negb absolute) [] (split "/" p)) in
    if is_empty body then
      if absolute then "/" else if trailingSeparator then "./" else "."
    else
      (if absolute then "/" else "") ++ body ++
      (if trailingSeparator then "/" else "").

(** [path.join(...args)] *)
Definition join (args : list string) : string :=
  let joined := JSString.join "/" (filter (fun a => negb (is_empty a)) args) in
  if is_empty joined then "." else normalize joined.

(** [path.basename(p)]: the last non-empty segment. *)
Definition basename (p : string) : string :=
  fold_left (fun acc s => if is_empty s then acc else s) (split "/" p) "".

(** [path.dirname(p)] for a normalized path without trailing separator. *)
Definition dirname (p : string) : string :=
  match rev (split "/" p) with
  | [] | [_] => "."
  | _ :: up =>
      let d := JSString.join "/" (rev up) in
      if is_empty d then "/" else d
  end.

(** [path.resolve(cwd, p)] for an absolute [cwd]: the normalized absolute
    path, without a trailing separator unless it is the root. *)
Definition resolve (cwd p : string) : string :=
  let full := normalize (if isAbsolute p then p else cwd ++ "/" ++ p) in
  if String.eqb full "/" then full else replace_at_end "/" "" full.

End NodePath.

(* ================================================================== *)
(** * fast-glob patterns *)
(* ================================================================== *)

Module Glob.

(** A pattern segment against a path segment; [*] stands for any run of
    characters. *)
Fixpoint wildcard (pat : string) : string -> bool :=
  match pat with
  | EmptyString => is_empty
  | String c pat' =>
      if Ascii.eqb c "*"%char then
        fix star (s : string) : bool :=
          wildcard pat' s ||
          match s with
          | EmptyString => false
          | String _ s' => star s'
          end
      else
        fun s =>
          match s with
          | EmptyString => false
          | String d s' => Ascii.eqb c d && wildcard pat' s'
          end
  end.

(** With the default [dot: false] an entry whose name begins with a
    period is matched only by a pattern segment that begins with one. *)
Definition segment_match (pat s : string) : bool :=
  (negb (startsWith "." s) || startsWith "." pat) && wildcard pat s.

(** A directory that [**] may descend into. *)
Definition visible (s : string) : bool :=
  negb (is_empty s) && negb (startsWith "." s).

(** Pattern segments against path segments; [**] stands for any number
    of visible directories, none included. *)
Fixpoint match_segments (pats : list string) : list string -> bool :=
  match pats with
  | [] => fun segs => match segs with [] => true | _ :: _ => false end
  | p :: pats' =>
      if String.eqb p "**" then
        fix globstar (segs : list string) : bool :=
          match_segments pats' segs ||
          match segs with
          | [] => false
          | s :: rest => visible s && globstar rest
          end
      else
        fun segs =>
          match segs with
          | [] => false
          | s :: rest => segment_match p s && match_segments pats' rest
          end
  end.

Definition matches (pattern path : string) : bool :=
  match_segments (split "/" pattern) (split "/" path).

End Glob.

(* ================================================================== *)
(** * Data model *)
(* ================================================================== *)

(** Options of [nodeExternalsPlugin]. *)
Record NodeExternalsOptions := { packagePath : list string }.

(** [esbuild.Plugin].  The program never looks inside a plugin: it stores
    plugins in arrays and hands them to the bundler.  A plugin is the object
    made by [esbuild-node-externals] from its options, or an object exported
    by the user's plugin file, identified by its name. *)
Inductive Plugin : Type :=
| nodeExternalsPlugin (options : NodeExternalsOptions)
| userPlugin (name : string).

(** [Partial<ReadUserPluginsReturnType>]: each field is an array or
    [undefined]. *)
Record UserPlugins := { cjs : option (list Plugin); esm : option (list Plugin) }.

Inductive Format := format_esm | format_cjs.

(** The object literal passed to [esbuild.build]. *)
Record BuildOptions := {
  sourcemap : bool;
  target : list string;
  bundle : bool;
  entryPoints : list string;
  format : Format;
  outdir : string;
  plugins : option (list Plugin)
}.

(** A thrown JavaScript error. *)
Inductive JSError := Error (message : string).

(** [fs.Stats], as far as the program reads it. *)
Record Stats := { isFile : bool }.

(** A loaded module namespace: its [default] export, if any. *)
Record JSModule := { default_export : option UserPlugins }.

(** The file tree: absolute path and contents of every file. *)
Definition FileTree := list (string * string).

(** What the program does not compute itself. *)
Record Host := {
  process_cwd : string;
  fs_stat : string -> JSError + Stats;
  dynamic_import : string -> JSError + JSModule;
  esbuild_build : BuildOptions -> FileTree -> (JSError + unit) * FileTree
}.

(** Observable effects, in the order they happen. *)
Inductive Event :=
| EvStat (path : string)
| EvImport (path : string)
| EvWarn (message : string)
| EvBuild (options : BuildOptions)
| EvMove (src dest : string)
| EvExec (cmd : string)
| EvWrite (path data : string).

Record World := { files : FileTree; events : list Event }.

(* ================================================================== *)
(** * Effects: state and exceptions *)
(* ================================================================== *)

(** A computation runs in a world and ends in a value or a thrown error;
    the world it has reached is kept in both cases. *)
Definition M (A : Type) : Type := World -> (JSError + A) * World.

Definition ret {A} (a : A) : M A := fun w => (inr a, w).

Definition bind {A B} (m : M A) (k : A -> M B) : M B :=
  fun w =>
    match m w with
    | (inr a, w') => k a w'
    | (inl e, w') => (inl e, w')
    end.

Definition throw {A} (e : JSError) : M A := fun w => (inl e, w).

(** [try { body } catch (error) { handler }] *)
Definition try_catch {A} (body : M A) (handler : JSError -> M A) : M A :=
  fun w =>
    match body w with
    | (inr a, w') => (inr a, w')
    | (inl e, w') => handler e w'
    end.

Definition emit (ev : Event) : M unit :=
  fun w => (inr tt, {| files := files w; events := events w ++ [ev] |}).

Definition get_files : M FileTree := fun w => (inr (files w), w).

Definition put_files (t : FileTree) : M unit :=
  fun w => (inr tt, {| files := t; events := events w |}).

(** Lifts a result obtained outside the world. *)
Definition lift_result {A} (r : JSError + A) : M A := fun w => (r, w).

Declare Scope js_scope.
Delimit Scope js_scope with js.
Notation "x <- m ;; k" := (bind m (fun x => k))
  (at level 61, m at next level, right associativity) : js_scope.
Notation "m ;; k" := (bind m (fun _ => k))
  (at level 61, right associativity) : js_scope.
Local Open Scope js_scope.

(** [xs.forEach(f)] *)
Fixpoint forEach {A} (xs : list A) (f : A -> M unit) : M unit :=
  match xs with
  | [] => ret tt
  | x :: rest => f x ;; forEach rest f
  end.

(* ================================================================== *)
(** * The file tree *)
(* ================================================================== *)

Module Tree.

(** The contents of the file at [p], if there is one. *)
Definition lookup (p : string) (t : FileTree) : option string :=
  match find (fun e => String.eqb (fst e) p) t with
  | Some e => Some (snd e)
  | None => None
  end.

(** The tree without the file at [p]. *)
Definition remove (p : string) (t : FileTree) : FileTree :=
  filter (fun e => negb (String.eqb (fst e) p)) t.

(** The tree with the file at [p] created or replaced. *)
Definition write (p data : string) (t : FileTree) : FileTree :=
  remove p t ++ [(p, data)].

(** [p] lies below the directory [d]. *)
Definition below (d p : string) : bool := startsWith (d ++ "/") p.

(** Directories are the root and the paths some file lies below. *)
Definition is_directory (d : string) (t : FileTree) : bool :=
  String.eqb d "/" || existsb (fun e => below d (fst e)) t.

(** [fs.existsSync] *)
Definition existsSync (p : string) (t : FileTree) : bool :=
  match lookup p t with
  | Some _ => true
  | None => is_directory p t
  end.

(** The path of [p] relative to the directory [d] it lies below. *)
Definition relative (d p : string) : string :=
  drop (String.length (d ++ "/")) p.

(** The first segment of a relative path. *)
Definition top (rel : string) : string := hd "" (split "/" rel).

(** The order in which a shell lists the names a pattern expands to: in
    the C locale, the order of their bytes. *)
Fixpoint insert_name (x : string) (sorted : list string) : list string :=
  match sorted with
  | [] => [x]
  | y :: rest => if String.leb x y then x :: sorted else y :: insert_name x rest
  end.

Definition sort_names (names : list string) : list string :=
  fold_right insert_name [] names.

(** The names of a list, each once, in the order in which they first
    occur. *)
Definition distinct (names : list string) : list string :=
  rev (nodup string_dec (rev names)).

(** The names of the entries of the directory [d], in the order of the
    tree's listing, which stands for the order of the directory on disk. *)
Definition child_names (d : string) (t : FileTree) : list string :=
  distinct (map (fun p => top (relative d p)) (filter (below d) (map fst t))).

(** The names a shell expands [d/*] to: the entries of [d] whose name does
    not begin with a period, in order. *)
Definition star_names (d : string) (t : FileTree) : list string :=
  sort_names (filter Glob.visible (child_names d t)).

Definition is_file (p : string) (t : FileTree) : bool :=
  match lookup p t with
  | Some _ => true
  | None => false
  end.

(** Some directory on the way to [p] is a regular file. *)
Definition under_file (p : string) (t : FileTree) : bool :=
  existsb (fun e => below (fst e) p) t.

(** A bound on the depth of the tree: no path has more segments than
    characters. *)
Definition height (t : FileTree) : nat :=
  list_max (map (fun e => String.length (fst e)) t).

(** The tree with the file at [p] replaced where it is, or added. *)
Fixpoint put (p data : string) (t : FileTree) : FileTree :=
  match t with
  | [] => [(p, data)]
  | e :: rest =>
      if String.eqb (fst e) p then (p, data) :: rest else e :: put p data rest
  end.

(** How a running [cp -r] stands: nothing refused so far; something
    refused, after which [cp] goes on with the next entry; or the rest of
    the argument it is at abandoned. *)
Inductive Standing := going | failed | abandoned.

(** The state of a running [cp -r]: the tree, how [cp] stands, and the
    directories it remembers to have made. *)
Record Copy := {
  tree : FileTree;
  standing : Standing;
  made : list string
}.

Definition ok (st : Copy) : bool :=
  match standing st with
  | going => true
  | _ => false
  end.

Definition refuse (st : Copy) : Copy :=
  {| tree := tree st; standing := failed; made := made st |}.

Definition abandon (st : Copy) : Copy :=
  {| tree := tree st; standing := abandoned; made := made st |}.

Definition remember (dir : string) (st : Copy) : Copy :=
  {| tree := tree st; standing := standing st; made := dir :: made st |}.

(** With the next argument [cp] goes on. *)
Definition next_argument (st : Copy) : Copy :=
  match standing st with
  | abandoned => refuse st
  | _ => st
  end.

(** [cp] of the regular file at [from], if there is one, to [to], on the
    tree as it is when its turn comes.  A file replaces a file; [cp]
    refuses to put a file where a directory is. *)
Definition copy_file (from to : string) (st : Copy) : Copy :=
  match lookup from (tree st) with
  | Some data =>
      if is_directory to (tree st) || under_file to (tree st)
      then refuse st
      else {| tree := put to data (tree st); standing := standing st;
              made := made st |}
  | None => st
  end.

(** [cp -r from to], where [to] is the place of the copy itself.  [cp]
    refuses to make a directory where a file is.  It remembers a
    directory it makes, unless it has made one above it ([below_made]),
    and when it comes upon a directory it remembers to have made, it
    would be copying a directory into itself: it abandons the argument.
    A directory is listed when [cp] enters it, and its entries are copied
    one after the other, hidden ones too, each from the tree the copies
    before it have left.  Running out of [depth] is a refusal. *)
Fixpoint copy_tree (depth : nat) (below_made : bool) (from to : string)
    (st : Copy) : Copy :=
  match standing st with
  | abandoned => st
  | _ =>
      let st1 := copy_file from to st in
      match child_names from (tree st1) with
      | [] => st1
      | names =>
          match depth with
          | 0 => refuse st1
          | S depth' =>
              if is_file to (tree st1) || under_file to (tree st1)
              then refuse st1
              else if existsb (String.eqb from) (made st1) then abandon st1
              else
                let is_new := negb (is_directory to (tree st1)) in
                fold_left
                  (fun st name =>
                     copy_tree depth' (below_made || is_new)
                               (from ++ "/" ++ name)%string
                               (to ++ "/" ++ name)%string st)
                  names
                  (if is_new && negb below_made then remember to st1 else st1)
          end
      end
  end.

(** [rm -rf d] *)
Definition remove_recursive (d : string) (t : FileTree) : FileTree :=
  filter (fun e => negb (String.eqb (fst e) d || below d (fst e))) t.

End Tree.

(* ================================================================== *)
(** * The generated manifest *)
(* ================================================================== *)

(** [pJsonTemplate] *)
Record ManifestStub := {
  main : string;
  module : string;
  name : string;
  types : string
}.

Module JSON.

Definition quote : string := String "034"%char EmptyString.
Definition newline : string := String "010"%char EmptyString.

Definition hex_digit (n : nat) : ascii :=
  nth n (list_ascii_of_string "0123456789abcdef") "0"%char.

(** How [JSON.stringify] writes one character of a string. *)
Definition escape_char (c : ascii) : string :=
  let n := nat_of_ascii c in
  if Ascii.eqb c "034"%char then "\" ++ quote
  else if Ascii.eqb c "\"%char then "\\"
  else if Nat.eqb n 8 then "\b"
  else if Nat.eqb n 9 then "\t"
  else if Nat.eqb n 10 then "\n"
  else if Nat.eqb n 12 then "\f"
  else if Nat.eqb n 13 then "\r"
  else if Nat.ltb n 32 then
    "\u00" ++ String (hex_digit (n / 16)) (String (hex_digit (n mod 16)) "")
  else String c "".

Fixpoint escape (s : string) : string :=
  match s with
  | EmptyString => EmptyString
  | String c s' => escape_char c ++ escape s'
  end.

Definition string_literal (s : string) : string := quote ++ escape s ++ quote.

Definition member (key value : string) : string :=
  "  " ++ string_literal key ++ ": " ++ string_literal value.

(** [JSON.stringify(pJsonTemplate, null, 2)] *)
Definition stringify (m : ManifestStub) : string :=
  "{" ++ newline ++
  member "main" (main m) ++ "," ++ newline ++
  member "module" (module m) ++ "," ++ newline ++
  member "name" (name m) ++ "," ++ newline ++
  member "types" (types m) ++ newline ++
  "}".

End JSON.

(* ================================================================== *)
(** * The program *)
(* ================================================================== *)

Section Program.

Variable host : Host.

Definition resolve (p : string) : string :=
  NodePath.resolve (process_cwd host) p.

(** ** Library calls *)

Definition console_warn (message : string) : M unit := emit (EvWarn message).

(** [await fs.stat(path)] *)
Definition stat (path : string) : M Stats :=
  emit (EvStat path) ;; lift_result (fs_stat host path).

(** [await import(path)] *)
Definition import (path : string) : M JSModule :=
  emit (EvImport path) ;; lift_result (dynamic_import host path).

(** [await esbuild.build(options)] *)
Definition build (options : BuildOptions) : M unit :=
  emit (EvBuild options) ;;
  fun w =>
    let (result, tree) := esbuild_build host options (files w) in
    (result, {| files := tree; events := events w |}).

(** [glob.sync(pattern, { absolute: true, onlyFiles: true })]: the files
    of the tree the pattern matches, each once, as absolute paths.  Only
    [*] and [**] are read as wildcards. *)
Definition glob_sync (pattern : string) : M (list string) :=
  t <- get_files ;;
  ret (nodup string_dec (filter (Glob.matches (resolve pattern)) (map fst t))).

(** [fs.moveSync(src, dest)] of fs-extra, for a file [src]: without the
    [overwrite] option an existing [dest] is an error. *)
Definition moveSync (src dest : string) : M unit :=
  emit (EvMove src dest) ;;
  t <- get_files ;;
  match Tree.lookup (resolve src) t with
  | None => throw (Error ("ENOENT: no such file or directory, " ++ src))
  | Some data =>
      if Tree.existsSync (resolve dest) t then throw (Error "dest already exists.")
      else put_files (Tree.write (resolve dest) data (Tree.remove (resolve src) t))
  end.

(** [fs.writeFileSync(path, data, 'utf8')]: the directory of [path] has to
    exist and [path] must not be a directory. *)
Definition writeFileSync (path data : string) : M unit :=
  emit (EvWrite path data) ;;
  t <- get_files ;;
  if Tree.is_directory (resolve path) t then
    throw (Error ("EISDIR: illegal operation on a directory, " ++ path))
  else if Tree.is_directory (NodePath.dirname (resolve path)) t then
    put_files (Tree.write (resolve path) data t)
  else throw (Error ("ENOENT: no such file or directory, " ++ path)).

(** [cp -r <src>/* <dest>]: the shell expands the pattern before [cp]
    starts, and [cp] copies the arguments it is given one after the other
    into [dest], each from the tree the copies before it have left.
    Without a visible entry the pattern stays as it is and [cp] finds no
    such file.  A refusal makes the exit status of [cp] 1 once every entry
    has had its turn. *)
Definition shell_cp_r_star (src dest : string) : M unit :=
  t <- get_files ;;
  match Tree.star_names (resolve src) t with
  | [] => throw (Error ("cp: cannot stat " ++ src ++ "/*"))
  | names =>
      let copied :=
        fold_left
          (fun st name =>
             Tree.copy_tree (Tree.height t) false (resolve src ++ "/" ++ name)
                            (resolve dest ++ "/" ++ name) (Tree.next_argument st))
          names
          {| Tree.tree := t; Tree.standing := Tree.going; Tree.made := [] |} in
      put_files (Tree.tree copied) ;;
      if Tree.ok copied then ret tt else throw (Error "cp: exit status 1")
  end.

(** [rm -rf <path>] *)
Definition shell_rm_rf (path : string) : M unit :=
  t <- get_files ;;
  put_files (Tree.remove_recursive (resolve path) t).

(** Modelled from the spec: [executeCmd] of [./executeCmd], which is not
    among the sources.  The spec describes its two uses as shell-level
    command invocations, a recursive copy that moves the contents of the
    temporary subdirectory up into the output directory, and a recursive
    removal of that subdirectory.  The command line is split at spaces;
    the two command shapes the program builds are run on the tree, with
    the shell's reading of [*] (the entries whose name does not begin with
    a period, in sorted order) and [cp] and [rm] as GNU coreutils have
    them.  The spec lets file-system failures propagate, so a command that
    ends with a status other than 0 throws, and so does a command of
    another shape. *)
Definition executeCmd (cmd : string) : M unit :=
  emit (EvExec cmd) ;;
  match split " " cmd with
  | [prog; flag; src; dest] =>
      if String.eqb prog "cp" && String.eqb flag "-r" && endsWith "/*" src then
        shell_cp_r_star (replace_at_end "/*" "" src) dest
      else throw (Error ("command not modelled: " ++ cmd))
  | [prog; flag; path] =>
      if String.eqb prog "rm" && String.eqb flag "-rf" then shell_rm_rf path
      else throw (Error ("command not modelled: " ++ cmd))
  | _ => throw (Error ("command not modelled: " ++ cmd))
  end.

(** ** [readUserPlugins] *)

Definition defaultOut : UserPlugins := {| cjs := Some []; esm := Some [] |}.

Definition pluginFilePath : string :=
  NodePath.join [process_cwd host; "package-bundler.plugins.js"].

Definition invalid_format_warning : string :=
  "User plugins for package-bundler found at " ++ pluginFilePath ++
  " are an invalid format. Expected default export object in the following shape:" ++
  JSON.newline ++ " { cjs: [], esm: [] }".

Definition read_error_warning : string :=
  "Error reading user plugins for package-bundler from " ++ pluginFilePath.

(** [!x] for an array or [undefined]: an array is truthy, also when it is
    empty. *)
Definition falsy {A} (x : option A) : bool :=
  match x with Some _ => false | None => true end.

(** The [try] block yields [Some out] where the source returns [out] from
    inside it and [None] where control leaves the block; the statement
    after the block returns [defaultOut]. *)
Definition readUserPlugins : M UserPlugins :=
  returned <-
    try_catch
      (stats <- stat pluginFilePath ;;
       if isFile stats then
         m <- import pluginFilePath ;;
         match default_export m with
         | None =>
             console_warn invalid_format_warning ;; ret (Some defaultOut)
         | Some plugins =>
             if falsy (cjs plugins) && falsy (esm plugins) then
               console_warn invalid_format_warning ;; ret (Some defaultOut)
             else ret (Some plugins)
         end
       else ret None)
      (fun error => console_warn read_error_warning ;; ret None) ;;
  match returned with
  | Some out => ret out
  | None => ret defaultOut
  end.

(** ** [buildESM] *)

Definition buildESM (srcFilesToCompile : list string) (outDir : string)
    (sourcemap : bool) (target : list string) : M unit :=
  userPlugins <- readUserPlugins ;;
  build {| sourcemap := sourcemap;
           target := target;
           bundle := false;
           entryPoints := srcFilesToCompile;
           format := format_esm;
           outdir := outDir;
           plugins := esm userPlugins |}.

(** ** [buildCJS] *)

(** [userPlugins.cjs ?? []] *)
Definition or_empty {A} (x : option (list A)) : list A :=
  match x with Some l => l | None => [] end.

Definition cjsBuildOptions (userPlugins : UserPlugins)
    (cjsFilesToCompile : list string) (outDir : string) (sourcemap : bool)
    (packageJsonFiles : list string) (target : list string) : BuildOptions :=
  {| sourcemap := sourcemap;
     target := target;
     bundle := true;
     entryPoints := cjsFilesToCompile;
     format := format_cjs;
     outdir := NodePath.join [outDir; "cjs"];
     plugins :=
       Some (nodeExternalsPlugin {| packagePath := packageJsonFiles |}
             :: or_empty (cjs userPlugins)) |}.

(** [cjsFilePath.replace(/\.js$/, '.cjs.js')] *)
Definition cjsName (cjsFilePath : string) : string :=
  replace_at_end ".js" ".cjs.js" cjsFilePath.

(** [!cjsFilePath.includes('dist/index.cjs.js')] *)
Definition notPackageEntry (cjsFilePath : string) : bool :=
  negb (includes "dist/index.cjs.js" cjsFilePath).

Definition packageJsonSubPackageName (outDir cjsFilePath : string) : string :=
  let mainFile := NodePath.basename cjsFilePath in
  strip_trailing_separator (replace mainFile "" (replace outDir "" cjsFilePath)).

Definition pJsonTemplate (packageName outDir cjsFilePath : string) : ManifestStub :=
  let mainFile := NodePath.basename cjsFilePath in
  {| main := mainFile;
     module := replace ".cjs" "" mainFile;
     name := packageName ++ "/" ++
             strip_leading_separator (packageJsonSubPackageName outDir cjsFilePath);
     types := "index.d.ts" |}.

Definition manifestPath (outDir cjsFilePath : string) : string :=
  NodePath.join
    [outDir; ("." ++ packageJsonSubPackageName outDir cjsFilePath)%string;
     "package.json"].

(** The body of the last [forEach]. *)
Definition writeManifest (packageName outDir cjsFilePath : string) : M unit :=
  writeFileSync (manifestPath outDir cjsFilePath)
                (JSON.stringify (pJsonTemplate packageName outDir cjsFilePath)).

Definition buildCJS (packageName : string) (cjsFilesToCompile : list string)
    (outDir : string) (sourcemap : bool) (packageJsonFiles : list string)
    (target : list string) : M unit :=
  userPlugins <- readUserPlugins ;;
  build (cjsBuildOptions userPlugins cjsFilesToCompile outDir sourcemap
                         packageJsonFiles target) ;;
  compiledCJSFiles <- glob_sync (NodePath.join [outDir; "cjs"; "**"; "*.js"]) ;;
  forEach compiledCJSFiles
          (fun cjsFilePath => moveSync cjsFilePath (cjsName cjsFilePath)) ;;
  executeCmd ("cp -r " ++ NodePath.join [outDir; "cjs"; "*"] ++ " " ++ outDir) ;;
  executeCmd ("rm -rf " ++ NodePath.join [outDir; "cjs"]) ;;
  cjsFiles <- glob_sync (NodePath.join [outDir; "**"; "*.cjs.js"]) ;;
  forEach (filter notPackageEntry cjsFiles) (writeManifest packageName outDir).

(** What [buildCJS] does after the bundler has returned. *)
Definition post_process (packageName outDir : string) : M unit :=
  compiledCJSFiles <- glob_sync (NodePath.join [outDir; "cjs"; "**"; "*.js"]) ;;
  forEach compiledCJSFiles
          (fun cjsFilePath => moveSync cjsFilePath (cjsName cjsFilePath)) ;;
  executeCmd ("cp -r " ++ NodePath.join [outDir; "cjs"; "*"] ++ " " ++ outDir) ;;
  executeCmd ("rm -rf " ++ NodePath.join [outDir; "cjs"]) ;;
  cjsFiles <- glob_sync (NodePath.join [outDir; "**"; "*.cjs.js"]) ;;
  forEach (filter notPackageEntry cjsFiles) (writeManifest packageName outDir).

End Program.

(* ================================================================== *)
(** * Vocabulary of the properties *)
(* ================================================================== *)

(** The bundler calls in an event log, oldest first. *)
Fixpoint build_calls (evs : list Event) : list BuildOptions :=
  match evs with
  | [] => []
  | EvBuild o :: rest => o :: build_calls rest
  | _ :: rest => build_calls rest
  end.

(** The plugins a bundler call carries: [esbuild.build] reads an absent
    [plugins] option as no plugins. *)
Definition carried_plugins (o : BuildOptions) : list Plugin :=
  match plugins o with
  | Some given => given
  | None => []
  end.

(** The files written with [fs.writeFileSync] in an event log, oldest
    first: path and data as passed. *)
Fixpoint written (evs : list Event) : list (string * string) :=
  match evs with
  | [] => []
  | EvWrite path data :: rest => (path, data) :: written rest
  | _ :: rest => written rest
  end.

(** A string without spaces: one word of a command line. *)
Definition one_word (s : string) : bool := without " " s.

(** A computation that does not call the bundler. *)
Definition no_build {A : Type} (m : M A) : Prop :=
  forall w r w', m w = (r, w') -> build_calls (events w') = build_calls (events w).

(** The ways in which the plugin file can be there and still be unusable:
    it cannot be examined or loaded, it has no default export, or the
    export has neither field. *)
Inductive PluginFileProblem (host : Host) : Prop :=
| stat_fails e :
    fs_stat host (pluginFilePath host) = inl e ->
    PluginFileProblem host
| load_fails stats e :
    fs_stat host (pluginFilePath host) = inr stats -> isFile stats = true ->
    dynamic_import host (pluginFilePath host) = inl e ->
    PluginFileProblem host
| export_missing stats m :
    fs_stat host (pluginFilePath host) = inr stats -> isFile stats = true ->
    dynamic_import host (pluginFilePath host) = inr m ->
    default_export m = None ->
    PluginFileProblem host
| export_without_fields stats m exported :
    fs_stat host (pluginFilePath host) = inr stats -> isFile stats = true ->
    dynamic_import host (pluginFilePath host) = inr m ->
    default_export m = Some exported ->
    cjs exported = None -> esm exported = None ->
    PluginFileProblem host.

(** A path segment that [path.normalize] keeps as it is. *)
Definition normal_segment (s : string) : bool :=
  negb (is_empty s) && negb (String.eqb s ".") && negb (String.eqb s "..").

(** A path segment that [path.normalize] does not drop. *)
Definition kept_segment (s : string) : bool :=
  negb (is_empty s || String.eqb s ".").

(** The last segment of [p] is [l]. *)
Definition ends_in_segment (l p : string) : Prop :=
  p = l \/ exists a : string, p = (a ++ "/" ++ l)%string.

(** An absolute, normalized path other than the root, without trailing
    separator. *)
Definition normal_absolute (d : string) : bool :=
  match split "/" d with
  | EmptyString :: s :: segs => forallb normal_segment (s :: segs)
  | _ => false
  end.

(** Characters that neither the shell nor the glob library reads in a
    special way: letters, digits, and [/], [.], [_], [-]. *)
Definition plain_char (c : ascii) : bool :=
  let n := nat_of_ascii c in
  (Nat.leb 97 n && Nat.leb n 122) || (Nat.leb 65 n && Nat.leb n 90) ||
  (Nat.leb 48 n && Nat.leb n 57) ||
  Ascii.eqb c "/"%char || Ascii.eqb c "."%char ||
  Ascii.eqb c "_"%char || Ascii.eqb c "-"%char.

(** An output directory the shell commands and glob patterns built from it
    mean what they say for. *)
Definition plain_directory (d : string) : bool :=
  normal_absolute d && all_chars plain_char d.

(** A string without [*], which a glob pattern reads literally. *)
Definition star_free (s : string) : bool := without "*" s.

(** A string without [/]: at most one path segment. *)
Definition one_segment (s : string) : bool := without "/" s.

(** A relative path none of whose segments is hidden. *)
Definition visible_path (rel : string) : bool :=
  forallb Glob.visible (split "/" rel).

(* ================================================================== *)
(** * Sample hosts *)
(* ================================================================== *)

Module Sample.

Definition enoent : JSError := Error "ENOENT: no such file or directory".

Definition regular_file : JSError + Stats := inr {| isFile := true |}.

Definition exporting (exported : option UserPlugins) : JSError + JSModule :=
  inr {| default_export := exported |}.

(** A bundler that writes the given outputs below its output directory. *)
Definition bundler (outputs : list (string * string))
    (o : BuildOptions) (t : FileTree) : (JSError + unit) * FileTree :=
  (inr tt,
   List.app t (map (fun e => ((outdir o ++ "/" ++ fst e)%string, snd e)) outputs)).

Definition failing_bundler (o : BuildOptions) (t : FileTree)
  : (JSError + unit) * FileTree :=
  (inl (Error "Build failed with 1 error"), t).

Definition make (st : JSError + Stats) (imp : JSError + JSModule)
    (b : BuildOptions -> FileTree -> (JSError + unit) * FileTree) : Host :=
  {| process_cwd := "/proj";
     fs_stat := fun _ => st;
     dynamic_import := fun _ => imp;
     esbuild_build := b |}.

Definition outputs : list (string * string) :=
  [("index.js", "exports.root = 1;");
   ("sub/feature.js", "exports.feature = 1;");
   ("sub/feature.js.map", "{}")].

(** Outputs of entry points in a hidden directory, in a directory named
    [cjs], and of an [index] file in a directory named [dist]. *)
Definition awkward_outputs : list (string * string) :=
  (outputs ++ [(".internal/tool.js", "exports.tool = 1;");
               ("cjs/legacy.js", "exports.legacy = 1;");
               ("legacy/dist/index.js", "exports.old = 1;")])%list.

(** Outputs of which two lie in a directory named [cjs], at the relative
    positions of two others. *)
Definition shadowing_outputs : list (string * string) :=
  (outputs ++ [("cjs/index.js", "exports.nested = 1;");
               ("cjs/sub/feature.js", "exports.nested_feature = 1;")])%list.

(** No plugin file. *)
Definition bare : Host := make (inl enoent) (inl enoent) (bundler outputs).

(** The plugin path is a directory. *)
Definition plugin_directory : Host :=
  make (inr {| isFile := false |}) (inl enoent) (bundler outputs).

(** The plugin file exports [{ cjs: [p1] }]. *)
Definition cjs_only : Host :=
  make regular_file
       (exporting (Some {| cjs := Some [userPlugin "p1"]; esm := None |}))
       (bundler outputs).

(** The plugin file exports [{}]. *)
Definition empty_export : Host :=
  make regular_file (exporting (Some {| cjs := None; esm := None |}))
       (bundler outputs).

(** The bundler reports a build error. *)
Definition broken_build : Host := make (inl enoent) (inl enoent) failing_bundler.

(** The bundler writes the awkward outputs. *)
Definition awkward : Host :=
  make (inl enoent) (inl enoent) (bundler awkward_outputs).

(** The bundler writes the shadowing outputs. *)
Definition shadowing : Host :=
  make (inl enoent) (inl enoent) (bundler shadowing_outputs).

Definition world : World :=
  {| files := [("/proj/src/index.ts", "export const root = 1;");
               ("/proj/src/sub/feature.ts", "export const feature = 1;")];
     events := [] |}.

(** The same with a hidden file left in the output directory. *)
Definition world_with_cache : World :=
  {| files := (files world ++ [("/proj/dist/.cache/old.cjs.js", "stale")])%list;
     events := [] |}.

Definition entries : list string := ["src/index.ts"; "src/sub/feature.ts"].

(** [buildCJS] for the package [mylib]. *)
Definition run_in (w : World) (host : Host) (outDir : string)
  : (JSError + unit) * World :=
  buildCJS host "mylib" entries outDir true ["package.json"] ["es2019"] w.

Definition run : Host -> string -> (JSError + unit) * World := run_in world.

End Sample.

(* ================================================================== *)
(** * More vocabulary *)
(* ================================================================== *)

(** The last segment of a path: the name of the file. *)
Definition last_segment (p : string) : string := last (split "/" p) "".

(** ** The recursive copy from [d] to [dest], started on the tree [t0] *)

(** The files below [d] are as they were at the start. *)
Definition sources_intact (d : string) (t0 t : FileTree) : Prop :=
  forall q, Tree.below d q = true -> Tree.lookup q t = Tree.lookup q t0.

(** The file [p] below [d] has been copied to its place below [dest]. *)
Definition copied_to (d dest : string) (t0 t : FileTree) (p : string) : Prop :=
  Tree.below d p = true /\
  exists data,
    Tree.lookup p t0 = Some data /\
    Tree.lookup (dest ++ "/" ++ Tree.relative d p)%string t = Some data.

(** A step of the copy that is to copy the files in [covers]: it leaves
    the files below [d] alone, refuses or not, undoes no copy, and has
    copied the files in [covers] when nothing has been refused. *)
Definition copy_step (d dest : string) (t0 : FileTree) (covers : string -> Prop)
    (step : Tree.Copy -> Tree.Copy) : Prop :=
  forall st,
    sources_intact d t0 (Tree.tree st) ->
    sources_intact d t0 (Tree.tree (step st)) /\
    (Tree.ok (step st) = true -> Tree.ok st = true) /\
    (forall p, copied_to d dest t0 (Tree.tree st) p ->
               copied_to d dest t0 (Tree.tree (step st)) p) /\
    (Tree.ok (step st) = true ->
     forall p, covers p -> Tree.below d p = true -> Tree.lookup p t0 <> None ->
               copied_to d dest t0 (Tree.tree (step st)) p).

(* ================================================================== *)
(** * Facts about the string operations *)
(* ================================================================== *)

Section StringFacts.

Local Open Scope string_scope.

Lemma append_nil_r (s : string) : s ++ "" = s.
Proof. induction s as [| c s IH]; simpl; [reflexivity | rewrite IH; reflexivity]. Qed.

Lemma append_assoc (a b c : string) : (a ++ b) ++ c = a ++ b ++ c.
Proof. induction a as [| x a IH]; simpl; [reflexivity | rewrite IH; reflexivity]. Qed.

Lemma length_append (a b : string) :
  String.length (a ++ b) = String.length a + String.length b.
Proof. induction a as [| x a IH]; simpl; [reflexivity | rewrite IH; reflexivity]. Qed.

Lemma append_cancel_l (a b c : string) : a ++ b = a ++ c -> b = c.
Proof.
  induction a as [| x a IH]; simpl; intro H; [exact H |].
  inversion H. auto.
Qed.

Lemma append_cancel_r (a b c : string) : a ++ c = b ++ c -> a = b.
Proof.
  revert b. induction a as [| x a IH]; intros [| y b] H; simpl in H.
  - reflexivity.
  - exfalso. apply (f_equal String.length) in H. simpl in H.
    rewrite length_append in H. lia.
  - exfalso. apply (f_equal String.length) in H. simpl in H.
    rewrite length_append in H. lia.
  - inversion H. f_equal. auto.
Qed.

Lemma startsWith_append (a b : string) : startsWith a (a ++ b) = true.
Proof.
  induction a as [| x a IH]; simpl; [reflexivity |].
  rewrite Ascii.eqb_refl. exact IH.
Qed.

Lemma startsWith_inv (a s : string) :
  startsWith a s = true -> exists b, s = a ++ b.
Proof.
  revert s. induction a as [| x a IH]; intros s H.
  - exists s. reflexivity.
  - destruct s as [| y s]; simpl in H; [discriminate |].
    apply andb_true_iff in H. destruct H as [Hxy H].
    apply Ascii.eqb_eq in Hxy. subst y.
    destruct (IH s H) as [b Hb]. exists b. simpl. rewrite Hb. reflexivity.
Qed.

Lemma startsWith_cancel (a b c : string) :
  startsWith (a ++ b) (a ++ c) = startsWith b c.
Proof.
  induction a as [| x a IH]; simpl; [reflexivity |].
  rewrite Ascii.eqb_refl. exact IH.
Qed.

Lemma drop_append (a b : string) : drop (String.length a) (a ++ b) = b.
Proof. induction a as [| x a IH]; simpl; [destruct b; reflexivity | exact IH]. Qed.

Lemma replace_prefix (a rep b : string) : replace a rep (a ++ b) = rep ++ b.
Proof.
  destruct a as [| x a].
  - simpl. destruct b; reflexivity.
  - cbn [replace append]. change (String x (a ++ b)) with (String x a ++ b).
    rewrite startsWith_append, drop_append. reflexivity.
Qed.

Lemma includes_startsWith (pat s : string) :
  startsWith pat s = true -> includes pat s = true.
Proof. intro H. destruct s; cbn [includes]; rewrite H; reflexivity. Qed.

Lemma includes_append (a pat b : string) : includes pat (a ++ pat ++ b) = true.
Proof.
  induction a as [| x a IH].
  - change ("" ++ pat ++ b) with (pat ++ b).
    apply includes_startsWith, startsWith_append.
  - cbn [append includes]. rewrite IH. apply orb_true_r.
Qed.

Lemma eqb_append_longer (x : ascii) (a suf : string) :
  String.eqb (String x (a ++ suf)) suf = false.
Proof.
  apply String.eqb_neq. intro H. apply (f_equal String.length) in H.
  simpl in H. rewrite length_append in H. lia.
Qed.

Lemma endsWith_append (a suf : string) : endsWith suf (a ++ suf) = true.
Proof.
  induction a as [| x a IH].
  - simpl. destruct suf; simpl; rewrite ?String.eqb_refl, ?Ascii.eqb_refl;
      reflexivity.
  - cbn [append endsWith]. rewrite IH. apply orb_true_r.
Qed.

Lemma endsWith_inv (suf s : string) :
  endsWith suf s = true -> exists a, s = a ++ suf.
Proof.
  induction s as [| x s IH]; cbn [endsWith]; intro H.
  - rewrite orb_false_r in H. apply String.eqb_eq in H. exists "". exact H.
  - apply orb_true_iff in H. destruct H as [H | H].
    + apply String.eqb_eq in H. exists "". exact H.
    + destruct (IH H) as [a Ha]. exists (String x a). simpl. rewrite Ha.
      reflexivity.
Qed.

Lemma replace_at_end_append (a suf rep : string) :
  replace_at_end suf rep (a ++ suf) = a ++ rep.
Proof.
  induction a as [| x a IH].
  - simpl. destruct suf; simpl; rewrite ?String.eqb_refl, ?Ascii.eqb_refl;
      reflexivity.
  - cbn [append replace_at_end]. rewrite eqb_append_longer, IH. reflexivity.
Qed.

Lemma replace_at_end_absent (suf rep s : string) :
  endsWith suf s = false -> replace_at_end suf rep s = s.
Proof.
  induction s as [| x s IH]; cbn [endsWith replace_at_end]; intro H;
    apply orb_false_iff in H; destruct H as [H1 H2]; rewrite H1.
  - reflexivity.
  - rewrite (IH H2). reflexivity.
Qed.

End StringFacts.

Section SplitJoin.

Local Open Scope string_scope.

Variable sep : ascii.

Lemma split_nonempty (s : string) : split sep s <> [].
Proof.
  destruct s as [| x s]; simpl; [discriminate |].
  destruct (Ascii.eqb x sep); [discriminate |].
  destruct (split sep s); discriminate.
Qed.



Lemma split_append_sep (a b : string) :
  split sep (a ++ String sep b) = (split sep a ++ split sep b)%list.
Proof.
  induction a as [| x a IH].
  - simpl. rewrite Ascii.eqb_refl. reflexivity.
  - cbn [append split]. destruct (Ascii.eqb x sep).
    + rewrite IH. reflexivity.
    + rewrite IH. destruct (split sep a) as [| h t] eqn:E.
      * exfalso. exact (split_nonempty a E).
      * reflexivity.
Qed.

Lemma split_unbroken (s : string) : without sep s = true -> split sep s = [s].
Proof.
  induction s as [| x s IH]; simpl; intro H; [reflexivity |].
  apply andb_true_iff in H. destruct H as [Hx Hs].
  apply negb_true_iff in Hx. rewrite Hx, (IH Hs). reflexivity.
Qed.

Lemma split_append_unbroken (a b : string) (init : list string) (l : string) :
  without sep b = true ->
  split sep a = (init ++ [l])%list ->
  split sep (a ++ b) = (init ++ [(l ++ b)%string])%list.
Proof.
  intro Hb. revert init l. induction a as [| x a IH]; intros init l Ha.
  - simpl in Ha. destruct init as [| i init].
    + inversion Ha. subst l. simpl. apply split_unbroken. exact Hb.
    + destruct init; discriminate Ha.
  - cbn [append split] in *. destruct (Ascii.eqb x sep).
    + destruct init as [| i init]; simpl in Ha.
      * exfalso. injection Ha as _ Ha. exact (split_nonempty a Ha).
      * injection Ha as Hi Ha. subst i. rewrite (IH init l Ha). reflexivity.
    + destruct (split sep a) as [| h t] eqn:E.
      * exfalso. exact (split_nonempty a E).
      * destruct init as [| i init]; simpl in Ha.
        -- injection Ha as Hl Ht. subst l t.
           rewrite (IH [] h eq_refl). reflexivity.
        -- injection Ha as Hi Ht. subst i t.
           rewrite (IH (h :: init) l eq_refl). reflexivity.
Qed.

Lemma join_cons (x : string) (xs : list string) :
  xs <> [] ->
  join (String sep "") (x :: xs) = x ++ String sep "" ++ join (String sep "") xs.
Proof. destruct xs; [congruence | reflexivity]. Qed.

Lemma join_app (xs ys : list string) :
  xs <> [] -> ys <> [] ->
  join (String sep "") (xs ++ ys) =
  join (String sep "") xs ++ String sep "" ++ join (String sep "") ys.
Proof.
  intros Hx Hy. induction xs as [| x xs IH]; [congruence |].
  destruct xs as [| x' xs].
  - simpl app. rewrite join_cons by exact Hy. reflexivity.
  - change ((x :: x' :: xs) ++ ys)%list with (x :: ((x' :: xs) ++ ys))%list.
    rewrite join_cons by (simpl; discriminate). rewrite IH by discriminate.
    rewrite (join_cons x (x' :: xs)) by discriminate.
    rewrite !append_assoc. reflexivity.
Qed.

Lemma join_split (s : string) : join (String sep "") (split sep s) = s.
Proof.
  induction s as [| x s IH]; [reflexivity |].
  cbn [split]. destruct (Ascii.eqb x sep) eqn:Hx.
  - apply Ascii.eqb_eq in Hx. subst x.
    rewrite join_cons by apply split_nonempty. rewrite IH. reflexivity.
  - destruct (split sep s) as [| h t] eqn:E.
    + exfalso. exact (split_nonempty s E).
    + destruct t as [| h' t].
      * simpl in *. rewrite IH. reflexivity.
      * rewrite join_cons by discriminate. rewrite join_cons in IH by discriminate.
        rewrite <- IH. reflexivity.
Qed.

Lemma split_join (segs : list string) :
  segs <> [] -> forallb (without sep) segs = true ->
  split sep (join (String sep "") segs) = segs.
Proof.
  induction segs as [| s segs IH]; [congruence |]. intros _ H.
  simpl in H. apply andb_true_iff in H. destruct H as [Hs Hsegs].
  destruct segs as [| s' segs].
  - simpl. apply split_unbroken. exact Hs.
  - rewrite join_cons by discriminate.
    change ((String sep "") ++ join (String sep "") (s' :: segs))
      with (String sep (join (String sep "") (s' :: segs))).
    rewrite split_append_sep, (split_unbroken s Hs).
    rewrite IH; [reflexivity | discriminate | exact Hsegs].
Qed.

(** A segment of a split string contains no separator. *)
Lemma split_segments_unbroken (s : string) :
  forallb (without sep) (split sep s) = true.
Proof.
  induction s as [| x s IH]; [reflexivity |].
  cbn [split]. destruct (Ascii.eqb x sep) eqn:Hx.
  - exact IH.
  - destruct (split sep s) as [| h t] eqn:E.
    + exfalso. exact (split_nonempty s E).
    + cbn [forallb] in *. unfold without in *. cbn [all_chars].
      rewrite Hx. exact IH.
Qed.

Lemma split_injective (s s' : string) : split sep s = split sep s' -> s = s'.
Proof.
  intro H. rewrite <- (join_split s), <- (join_split s'), H. reflexivity.
Qed.

End SplitJoin.

Section LastCharacter.

Local Open Scope string_scope.

Lemma last_char_append (a b : string) :
  b <> "" -> last_char (a ++ b) = last_char b.
Proof.
  intro Hb. induction a as [| x a IH]; [reflexivity |].
  cbn [append last_char]. destruct (a ++ b) eqn:E.
  - destruct a; [simpl in E; congruence | discriminate].
  - exact IH.
Qed.

Lemma last_char_endsWith (suf s : string) :
  suf <> "" -> endsWith suf s = true -> last_char s = last_char suf.
Proof.
  intros Hs H. destruct (endsWith_inv suf s H) as [a Ha]. subst s.
  apply last_char_append. exact Hs.
Qed.

(** A string whose last segment is not empty does not end in the
    separator. *)
Lemma endsWith_sep_last_segment (sep : ascii) (s l : string) (init : list string) :
  split sep s = (init ++ [l])%list -> l <> "" ->
  endsWith (String sep "") s = false.
Proof.
  intros Hs Hl. destruct (endsWith (String sep "") s) eqn:E; [| reflexivity].
  exfalso. destruct (endsWith_inv _ _ E) as [a Ha]. subst s.
  rewrite split_append_sep in Hs. simpl in Hs.
  apply app_inj_tail in Hs. destruct Hs as [_ Hs]. congruence.
Qed.

End LastCharacter.

(* ================================================================== *)
(** * Facts about paths *)
(* ================================================================== *)

Section PathFacts.

Local Open Scope string_scope.

Lemma normal_segment_inv (s : string) :
  normal_segment s = true -> s <> "" /\ s <> "." /\ s <> "..".
Proof.
  unfold normal_segment. intro H.
  apply andb_true_iff in H. destruct H as [H H2].
  apply andb_true_iff in H. destruct H as [H0 H1].
  apply negb_true_iff in H0, H1, H2.
  apply String.eqb_neq in H1, H2.
  repeat split; try assumption. intro E. subst s. discriminate H0.
Qed.

Lemma normal_segment_kept (s : string) :
  normal_segment s = true -> kept_segment s = true.
Proof.
  unfold normal_segment, kept_segment. intro H.
  apply andb_true_iff in H. destruct H as [H _].
  apply andb_true_iff in H. destruct H as [H0 H1].
  apply negb_true_iff in H0, H1. rewrite H0, H1. reflexivity.
Qed.

Lemma filter_kept_normal (segs : list string) :
  forallb normal_segment segs = true -> filter kept_segment segs = segs.
Proof.
  induction segs as [| s segs IH]; simpl; intro H; [reflexivity |].
  apply andb_true_iff in H. destruct H as [Hs H].
  rewrite (normal_segment_kept s Hs), (IH H). reflexivity.
Qed.

(** Without [..] segments normalisation only drops segments. *)
Lemma normalize_segments_no_parent (above : bool) (segs stack : list string) :
  forallb (fun s => negb (String.eqb s "..")) segs = true ->
  NodePath.normalize_segments above stack segs =
  (rev stack ++ filter kept_segment segs)%list.
Proof.
  revert stack. induction segs as [| s segs IH]; intros stack H.
  - simpl. rewrite app_nil_r. reflexivity.
  - simpl in H. apply andb_true_iff in H. destruct H as [Hs H].
    apply negb_true_iff in Hs. cbn [NodePath.normalize_segments filter].
    unfold kept_segment at 1.
    destruct (is_empty s || String.eqb s ".") eqn:E; cbn [negb].
    + apply IH. exact H.
    + rewrite Hs, (IH (s :: stack) H). simpl. rewrite <- app_assoc. reflexivity.
Qed.

(** A normal last segment stays the last segment. *)
Lemma normalize_segments_last (above : bool) (l : string) (segs stack : list string) :
  normal_segment l = true ->
  NodePath.normalize_segments above stack (segs ++ [l]) =
  (NodePath.normalize_segments above stack segs ++ [l])%list.
Proof.
  intro Hl. destruct (normal_segment_inv l Hl) as [H0 [H1 H2]].
  revert stack. induction segs as [| s segs IH]; intro stack.
  - cbn [app NodePath.normalize_segments].
    replace (is_empty l) with false by (destruct l; [congruence | reflexivity]).
    apply String.eqb_neq in H1, H2. rewrite H1, H2. reflexivity.
  - cbn [app NodePath.normalize_segments].
    destruct (is_empty s || String.eqb s "."); [apply IH |].
    destruct (String.eqb s "..").
    + destruct stack as [| top below]; [destruct above; apply IH |].
      destruct (String.eqb top ".."); apply IH.
    + apply IH.
Qed.

Lemma join_last_nonempty (l : string) (xs : list string) :
  l <> "" -> is_empty (join "/" (xs ++ [l])) = false.
Proof.
  intro Hl. destruct xs as [| x xs].
  - simpl. destruct l; [congruence | reflexivity].
  - change ((x :: xs) ++ [l])%list with (x :: (xs ++ [l]))%list.
    rewrite (join_cons "/"%char) by (destruct xs; discriminate).
    destruct x; reflexivity.
Qed.

Lemma ends_in_segment_join (l : string) (xs : list string) :
  ends_in_segment l (join "/" (xs ++ [l])).
Proof.
  destruct xs as [| x xs].
  - left. reflexivity.
  - right. exists (join "/" (x :: xs)).
    apply (join_app "/"%char); discriminate.
Qed.

Lemma ends_in_segment_split (l p : string) :
  all_chars (fun x => negb (Ascii.eqb x "/")) l = true ->
  ends_in_segment l p -> exists init, split "/" p = (init ++ [l])%list.
Proof.
  intros Hl [E | [a E]]; subst p.
  - exists []. apply split_unbroken. exact Hl.
  - exists (split "/" a). cbn [append].
    rewrite split_append_sep, (split_unbroken "/"%char l Hl). reflexivity.
Qed.

Lemma ends_in_segment_last_char (l p : string) :
  l <> "" -> ends_in_segment l p -> last_char p = last_char l.
Proof.
  intros Hl [E | [a E]]; subst p; [reflexivity |].
  rewrite <- append_assoc. apply last_char_append. exact Hl.
Qed.

Lemma ends_in_segment_normalize (l p : string) :
  normal_segment l = true ->
  all_chars (fun x => negb (Ascii.eqb x "/")) l = true ->
  ends_in_segment l p -> ends_in_segment l (NodePath.normalize p).
Proof.
  intros Hn Hu Hp. destruct (normal_segment_inv l Hn) as [H0 _].
  destruct (ends_in_segment_split l p Hu Hp) as [init Hs].
  unfold NodePath.normalize.
  destruct (is_empty p) eqn:Ep.
  { destruct p; [| discriminate]. simpl in Hs.
    destruct init as [| ? [| ? ?]]; simpl in Hs; try discriminate.
    injection Hs as Hs. congruence. }
  rewrite (endsWith_sep_last_segment "/"%char p l init Hs H0).
  rewrite Hs, normalize_segments_last by exact Hn.
  rewrite join_last_nonempty by exact H0.
  set (kept := NodePath.normalize_segments _ _ _).
  rewrite append_nil_r.
  destruct (ends_in_segment_join l kept) as [E | [a E]]; rewrite E.
  - destruct (NodePath.isAbsolute p).
    + right. exists "". reflexivity.
    + left. reflexivity.
  - right. exists ((if NodePath.isAbsolute p then "/" else "") ++ a).
    rewrite append_assoc. reflexivity.
Qed.

Lemma ends_in_segment_path_join (l : string) (args : list string) :
  normal_segment l = true ->
  all_chars (fun x => negb (Ascii.eqb x "/")) l = true ->
  ends_in_segment l (NodePath.join (args ++ [l])).
Proof.
  intros Hn Hu. destruct (normal_segment_inv l Hn) as [H0 _].
  unfold NodePath.join. rewrite filter_app. cbn [filter].
  replace (is_empty l) with false by (destruct l; [congruence | reflexivity]).
  cbn [negb]. rewrite join_last_nonempty by exact H0.
  apply ends_in_segment_normalize; [exact Hn | exact Hu |].
  apply ends_in_segment_join.
Qed.

Lemma ends_in_segment_resolve (cwd l p : string) :
  normal_segment l = true ->
  all_chars (fun x => negb (Ascii.eqb x "/")) l = true ->
  last_char l <> Some "/"%char ->
  ends_in_segment l p -> ends_in_segment l (NodePath.resolve cwd p).
Proof.
  intros Hn Hu Hlast Hp. destruct (normal_segment_inv l Hn) as [H0 _].
  unfold NodePath.resolve.
  set (q := if NodePath.isAbsolute p then p else cwd ++ "/" ++ p).
  assert (Hq : ends_in_segment l q).
  { subst q. destruct (NodePath.isAbsolute p); [exact Hp |].
    destruct Hp as [E | [a E]]; subst p; right.
    - exists cwd. reflexivity.
    - exists (cwd ++ "/" ++ a). rewrite !append_assoc. reflexivity. }
  pose proof (ends_in_segment_normalize l q Hn Hu Hq) as Hfull.
  destruct (String.eqb (NodePath.normalize q) "/"); [exact Hfull |].
  rewrite replace_at_end_absent; [exact Hfull |].
  destruct (endsWith "/" (NodePath.normalize q)) eqn:E; [| reflexivity].
  exfalso. apply Hlast.
  rewrite <- (ends_in_segment_last_char l _ H0 Hfull).
  apply (last_char_endsWith "/"); [discriminate | exact E].
Qed.

End PathFacts.

Section NormalPaths.

Local Open Scope string_scope.

Lemma normal_absolute_inv (p : string) :
  normal_absolute p = true ->
  exists s segs,
    split "/" p = "" :: s :: segs /\ forallb normal_segment (s :: segs) = true.
Proof.
  unfold normal_absolute. destruct (split "/" p) as [| h [| s segs]];
    try discriminate.
  - destruct h; discriminate.
  - destruct h; [| discriminate]. intro H. exists s, segs. auto.
Qed.

Lemma split_head_empty (p s : string) (rest : list string) :
  split "/" p = "" :: s :: rest -> exists p', p = String "/" p'.
Proof.
  destruct p as [| x p]; simpl; [discriminate |].
  destruct (Ascii.eqb x "/") eqn:E.
  - apply Ascii.eqb_eq in E. subst x. eauto.
  - destruct (split "/" p); discriminate.
Qed.

Lemma forallb_no_parent_normal (segs : list string) :
  forallb normal_segment segs = true ->
  forallb (fun s => negb (String.eqb s "..")) segs = true.
Proof.
  induction segs as [| s segs IH]; simpl; intro H; [reflexivity |].
  apply andb_true_iff in H. destruct H as [Hs H]. rewrite (IH H).
  destruct (normal_segment_inv s Hs) as [_ [_ H2]].
  apply String.eqb_neq in H2. rewrite H2. reflexivity.
Qed.

(** Normalisation of an absolute path without [..] whose last segment is
    normal. *)
Lemma normalize_absolute (p l : string) (init : list string) :
  split "/" p = ("" :: init ++ [l])%list ->
  forallb (fun s => negb (String.eqb s "..")) init = true ->
  normal_segment l = true ->
  NodePath.normalize p = "/" ++ join "/" (filter kept_segment init ++ [l])%list.
Proof.
  intros Hs Hinit Hl. destruct (normal_segment_inv l Hl) as [H0 [H1 H2]].
  assert (Habs : exists p', p = String "/" p').
  { destruct init as [| i init]; simpl in Hs; eapply split_head_empty; eauto. }
  destruct Habs as [p' Hp].
  unfold NodePath.normalize, NodePath.isAbsolute.
  replace (is_empty p) with false by (subst p; reflexivity).
  replace (startsWith "/" p) with true by (subst p; reflexivity).
  rewrite (endsWith_sep_last_segment "/"%char p l ("" :: init) Hs H0).
  rewrite Hs. cbn [negb NodePath.normalize_segments is_empty orb].
  rewrite normalize_segments_last by exact Hl.
  rewrite normalize_segments_no_parent by exact Hinit.
  cbn [rev app]. rewrite join_last_nonempty by exact H0.
  rewrite append_nil_r. reflexivity.
Qed.

Lemma forallb_snoc {A} (f : A -> bool) (xs : list A) (x : A) :
  forallb f (xs ++ [x]) = forallb f xs && f x.
Proof. rewrite forallb_app. simpl. rewrite andb_true_r. reflexivity. Qed.

Lemma normalize_normal_absolute (p : string) :
  normal_absolute p = true -> NodePath.normalize p = p.
Proof.
  intro H. destruct (normal_absolute_inv p H) as [s [segs [Hs Hn]]].
  destruct (exists_last (l := s :: segs)) as [init [l E]]; [discriminate |].
  rewrite E in Hs, Hn. rewrite forallb_snoc in Hn.
  apply andb_true_iff in Hn. destruct Hn as [Hinit Hl].
  rewrite (normalize_absolute p l init Hs (forallb_no_parent_normal _ Hinit) Hl).
  rewrite (filter_kept_normal init Hinit).
  rewrite <- (join_split "/"%char p). rewrite Hs.
  rewrite (join_cons "/"%char) by (destruct init; discriminate).
  reflexivity.
Qed.

Lemma normal_absolute_last_segment (p : string) :
  normal_absolute p = true -> endsWith "/" p = false /\ p <> "/".
Proof.
  intro H. destruct (normal_absolute_inv p H) as [s [segs [Hs Hn]]].
  destruct (exists_last (l := s :: segs)) as [init [l E]]; [discriminate |].
  rewrite E in Hs, Hn. rewrite forallb_snoc in Hn.
  apply andb_true_iff in Hn. destruct Hn as [_ Hl].
  destruct (normal_segment_inv l Hl) as [H0 _]. split.
  - exact (endsWith_sep_last_segment "/"%char p l ("" :: init) Hs H0).
  - intro Ep. subst p. discriminate H.
Qed.

Lemma normal_absolute_isAbsolute (p : string) :
  normal_absolute p = true -> NodePath.isAbsolute p = true.
Proof.
  intro H. destruct (normal_absolute_inv p H) as [s [segs [Hs _]]].
  destruct (split_head_empty p s segs Hs) as [p' E]. subst p. reflexivity.
Qed.

(** A normal absolute path names itself. *)
Lemma resolve_normal_absolute (cwd p : string) :
  normal_absolute p = true -> NodePath.resolve cwd p = p.
Proof.
  intro H. unfold NodePath.resolve.
  rewrite (normal_absolute_isAbsolute p H), (normalize_normal_absolute p H).
  destruct (normal_absolute_last_segment p H) as [He Hr].
  apply String.eqb_neq in Hr. rewrite Hr.
  apply replace_at_end_absent. exact He.
Qed.

Lemma normal_absolute_append (d tail : string) :
  normal_absolute d = true ->
  forallb normal_segment (split "/" tail) = true ->
  normal_absolute (d ++ "/" ++ tail) = true.
Proof.
  intros Hd Ht. destruct (normal_absolute_inv d Hd) as [s [segs [Hs Hn]]].
  unfold normal_absolute. cbn [append].
  rewrite split_append_sep, Hs. cbn [app].
  cbn [forallb] in *. rewrite forallb_app.
  apply andb_true_iff in Hn. destruct Hn as [Hn1 Hn2].
  rewrite Hn1, Hn2, Ht. reflexivity.
Qed.

Lemma normal_segments_nonempty (a : string) :
  forallb normal_segment (split "/" a) = true -> is_empty a = false.
Proof.
  destruct a; [| reflexivity]. simpl. discriminate.
Qed.

(** [path.join] of a normal absolute directory and pieces made of normal
    segments only puts separators between them. *)
Lemma path_join_normal (args : list string) :
  forallb (fun a => forallb normal_segment (split "/" a)) args = true ->
  forall d, normal_absolute d = true ->
  NodePath.join (d :: args) = join "/" (d :: args) /\
  normal_absolute (join "/" (d :: args)) = true.
Proof.
  intros Ha d Hd.
  assert (Hargs : filter (fun a => negb (is_empty a)) args = args).
  { clear d Hd. induction args as [| a args IH]; [reflexivity |].
    cbn [forallb] in Ha. apply andb_true_iff in Ha. destruct Ha as [Ha1 Ha2].
    cbn [filter]. rewrite (normal_segments_nonempty a Ha1), (IH Ha2).
    reflexivity. }
  assert (Hn : normal_absolute (join "/" (d :: args)) = true).
  { clear Hargs. revert d Hd. induction args as [| a args IH]; intros d Hd.
    - exact Hd.
    - cbn [forallb] in Ha. apply andb_true_iff in Ha. destruct Ha as [Ha1 Ha2].
      pose proof (normal_absolute_append d a Hd Ha1) as Hda.
      specialize (IH Ha2 (d ++ "/" ++ a) Hda).
      destruct args as [| b args].
      + exact Hda.
      + rewrite (join_cons "/"%char) by discriminate.
        rewrite (join_cons "/"%char) by discriminate.
        rewrite (join_cons "/"%char) in IH by discriminate.
        rewrite !append_assoc in IH. exact IH. }
  split; [| exact Hn].
  assert (He : is_empty (join "/" (d :: args)) = false).
  { pose proof (normal_absolute_isAbsolute _ Hn) as Hi.
    destruct (join "/" (d :: args)); [discriminate Hi | reflexivity]. }
  unfold NodePath.join. cbn [filter].
  assert (Hde : is_empty d = false).
  { pose proof (normal_absolute_isAbsolute _ Hd) as Hi.
    destruct d; [discriminate Hi | reflexivity]. }
  rewrite Hde, Hargs. cbn [negb]. rewrite He.
  apply normalize_normal_absolute. exact Hn.
Qed.

End NormalPaths.

Section BelowADirectory.

Local Open Scope string_scope.

Lemma normal_absolute_segments (d : string) :
  normal_absolute d = true ->
  exists segs,
    segs <> [] /\ forallb normal_segment segs = true /\
    split "/" d = "" :: segs /\ d = "/" ++ join "/" segs.
Proof.
  intro H. destruct (normal_absolute_inv d H) as [s [segs [Hs Hn]]].
  exists (s :: segs). repeat split; [discriminate | exact Hn | exact Hs |].
  rewrite <- (join_split "/"%char d) at 1. rewrite Hs.
  rewrite (join_cons "/"%char) by discriminate. reflexivity.
Qed.

Lemma normal_absolute_nonempty (d : string) :
  normal_absolute d = true -> is_empty d = false.
Proof.
  intro H. pose proof (normal_absolute_isAbsolute d H) as Hi.
  destruct d; [discriminate Hi | reflexivity].
Qed.

(** Normalisation below a normal directory: the directory stays, empty and
    [.] segments of the rest go. *)
Lemma normalize_below (d tail l : string) (init : list string) :
  normal_absolute d = true ->
  split "/" tail = (init ++ [l])%list ->
  forallb (fun s => negb (String.eqb s "..")) init = true ->
  normal_segment l = true ->
  NodePath.normalize (d ++ "/" ++ tail) =
  d ++ "/" ++ join "/" (filter kept_segment init ++ [l])%list.
Proof.
  intros Hd Ht Hinit Hl.
  destruct (normal_absolute_segments d Hd) as [segs [Hne [Hn [Hs Ed]]]].
  assert (Hsplit : split "/" (d ++ "/" ++ tail) =
                   ("" :: (segs ++ init) ++ [l])%list).
  { cbn [append]. rewrite split_append_sep, Hs, Ht.
    cbn [app]. rewrite app_assoc. reflexivity. }
  rewrite (normalize_absolute _ l (segs ++ init) Hsplit); [| | exact Hl].
  - rewrite filter_app, (filter_kept_normal segs Hn), <- app_assoc.
    rewrite (join_app "/"%char)
      by (try exact Hne; destruct (filter _ init); discriminate).
    rewrite Ed. rewrite !append_assoc. reflexivity.
  - rewrite forallb_app, (forallb_no_parent_normal segs Hn), Hinit. reflexivity.
Qed.

End BelowADirectory.

(* ================================================================== *)
(** * The manifest of one file *)
(* ================================================================== *)

Section OneManifest.

Local Open Scope string_scope.

Lemma basename_below (d name : string) :
  all_chars (fun x => negb (Ascii.eqb x "/")) name = true ->
  is_empty name = false ->
  NodePath.basename (d ++ "/" ++ name) = name.
Proof.
  intros Hu Hn. unfold NodePath.basename. cbn [append].
  rewrite split_append_sep, (split_unbroken "/"%char name Hu), fold_left_app.
  simpl. rewrite Hn. reflexivity.
Qed.

(** C1, as the code has it.  For an output directory given as a normalized
    absolute path and the compiled file [sub/feature.cjs.js] below it, the
    manifest is [{ main: feature.cjs.js, module: feature.js,
    name: <packageName>/sub, types: index.d.ts }], and it is written, as
    JSON, to [<outDir>/sub/package.json]: the directory name given to
    [path.join] is [./sub], the directory of the compiled file. *)
Theorem manifest_of_subpackage_file (host : Host) (packageName outDir : string) :
  normal_absolute outDir = true ->
  let cjsFilePath := outDir ++ "/sub/feature.cjs.js" in
  let stub := {| main := "feature.cjs.js";
                 module := "feature.js";
                 name := packageName ++ "/sub";
                 types := "index.d.ts" |} in
  pJsonTemplate packageName outDir cjsFilePath = stub /\
  manifestPath outDir cjsFilePath = outDir ++ "/sub/package.json" /\
  writeManifest host packageName outDir cjsFilePath =
  writeFileSync host (outDir ++ "/sub/package.json") (JSON.stringify stub).
Proof.
  intros Hd cjsFilePath stub.
  assert (Hbase : NodePath.basename cjsFilePath = "feature.cjs.js").
  { subst cjsFilePath.
    change (outDir ++ "/sub/feature.cjs.js")
      with (outDir ++ "/" ++ "sub/feature.cjs.js").
    unfold NodePath.basename. cbn [append].
    rewrite split_append_sep, fold_left_app. reflexivity. }
  assert (Hsub : packageJsonSubPackageName outDir cjsFilePath = "/sub").
  { unfold packageJsonSubPackageName. rewrite Hbase. subst cjsFilePath.
    rewrite replace_prefix. reflexivity. }
  assert (Htemplate : pJsonTemplate packageName outDir cjsFilePath = stub).
  { unfold pJsonTemplate. rewrite Hbase, Hsub. reflexivity. }
  assert (Hpath : manifestPath outDir cjsFilePath = outDir ++ "/sub/package.json").
  { unfold manifestPath, NodePath.join. rewrite Hsub. cbn [filter].
    rewrite (normal_absolute_nonempty outDir Hd).
    cbn [append is_empty negb join].
    replace (is_empty (outDir ++ "/./sub/package.json")) with false
      by (destruct outDir; reflexivity).
    change (outDir ++ "/./sub/package.json")
      with (outDir ++ "/" ++ "./sub/package.json").
    rewrite (normalize_below outDir "./sub/package.json" "package.json"
               ["."; "sub"] Hd); reflexivity. }
  split; [exact Htemplate |]. split; [exact Hpath |].
  unfold writeManifest. rewrite Htemplate, Hpath. reflexivity.
Qed.

Lemma manifest_of_subpackage_file_witness :
  pJsonTemplate "mylib" "/proj/dist" "/proj/dist/sub/feature.cjs.js" =
  {| main := "feature.cjs.js"; module := "feature.js";
     name := "mylib/sub"; types := "index.d.ts" |} /\
  manifestPath "/proj/dist" "/proj/dist/sub/feature.cjs.js" =
  "/proj/dist/sub/package.json" /\
  writeManifest Sample.bare "mylib" "/proj/dist" "/proj/dist/sub/feature.cjs.js" =
  writeFileSync Sample.bare "/proj/dist/sub/package.json"
    (JSON.stringify {| main := "feature.cjs.js"; module := "feature.js";
                       name := "mylib/sub"; types := "index.d.ts" |}).
Proof.
  apply (manifest_of_subpackage_file Sample.bare "mylib" "/proj/dist").
  reflexivity.
Defined.

End OneManifest.

(* ================================================================== *)
(** * Running computations *)
(* ================================================================== *)


Lemma bind_run {A B} (m : M A) (k : A -> M B) (w : World) :
  bind m k w =
  match m w with
  | (inr a, w') => k a w'
  | (inl e, w') => (inl e, w')
  end.
Proof. reflexivity. Qed.

Lemma bind_ok {A B} (m : M A) (k : A -> M B) (w w' : World) (b : B) :
  bind m k w = (inr b, w') ->
  exists a w1, m w = (inr a, w1) /\ k a w1 = (inr b, w').
Proof.
  rewrite bind_run. destruct (m w) as [[e | a] w1]; intro H.
  - discriminate H.
  - exists a, w1. split; [reflexivity | exact H].
Qed.

Lemma forEach_cons {A} (x : A) (xs : list A) (f : A -> M unit) :
  forEach (x :: xs) f = bind (f x) (fun _ => forEach xs f).
Proof. reflexivity. Qed.

Lemma build_calls_app (a b : list Event) :
  build_calls (a ++ b) = (build_calls a ++ build_calls b)%list.
Proof.
  induction a as [| ev a IH]; simpl; [reflexivity |].
  destruct ev; simpl; rewrite IH; reflexivity.
Qed.

Lemma no_build_ret {A} (a : A) : no_build (ret a).
Proof. intros w r w' H. inversion H. reflexivity. Qed.

Lemma no_build_throw {A} (e : JSError) : no_build (@throw A e).
Proof. intros w r w' H. inversion H. reflexivity. Qed.

Lemma no_build_bind {A B} (m : M A) (k : A -> M B) :
  no_build m -> (forall a, no_build (k a)) -> no_build (bind m k).
Proof.
  intros Hm Hk w r w'. rewrite bind_run.
  destruct (m w) as [[e | a] w1] eqn:E; intro H.
  - inversion H; subst. exact (Hm _ _ _ E).
  - rewrite (Hk a _ _ _ H). exact (Hm _ _ _ E).
Qed.

Lemma no_build_emit (ev : Event) :
  (forall o, ev <> EvBuild o) -> no_build (emit ev).
Proof.
  intros Hev w r w' H. inversion H; subst; simpl.
  rewrite build_calls_app. destruct ev; simpl;
    try (rewrite app_nil_r; reflexivity).
  exfalso. eapply Hev. reflexivity.
Qed.

Lemma no_build_get_files : no_build get_files.
Proof. intros w r w' H. inversion H. reflexivity. Qed.

Lemma no_build_put_files (t : FileTree) : no_build (put_files t).
Proof. intros w r w' H. inversion H. reflexivity. Qed.

Lemma no_build_forEach {A} (xs : list A) (f : A -> M unit) :
  (forall x, no_build (f x)) -> no_build (forEach xs f).
Proof.
  intro Hf. induction xs as [| x xs IH].
  - apply no_build_ret.
  - rewrite forEach_cons. apply no_build_bind; [apply Hf | intros _; exact IH].
Qed.

Create HintDb no_build.

#[local] Hint Resolve no_build_ret no_build_throw no_build_get_files
  no_build_put_files : no_build.

Ltac no_build_step :=
  first
    [ apply no_build_bind; [| intro]
    | apply no_build_emit; intros ? ?; discriminate
    | apply no_build_forEach; intro
    | solve [auto with no_build] ].

Section PostProcessingIsSilent.

Variable host : Host.

Lemma no_build_glob_sync (pattern : string) : no_build (glob_sync host pattern).
Proof. unfold glob_sync. repeat no_build_step. Qed.

Lemma no_build_moveSync (src dest : string) : no_build (moveSync host src dest).
Proof.
  unfold moveSync. repeat no_build_step.
  destruct (Tree.lookup _ _); [destruct (Tree.existsSync _ _) |];
    auto with no_build.
Qed.

Lemma no_build_writeFileSync (path data : string) :
  no_build (writeFileSync host path data).
Proof.
  unfold writeFileSync. repeat no_build_step.
  destruct (Tree.is_directory _ _); [| destruct (Tree.is_directory _ _)];
    auto with no_build.
Qed.

Lemma no_build_executeCmd (cmd : string) : no_build (executeCmd host cmd).
Proof.
  unfold executeCmd. apply no_build_bind.
  - apply no_build_emit; intros ? ?; discriminate.
  - intros _.
    assert (Hcp : forall src dest, no_build (shell_cp_r_star host src dest)).
    { intros. unfold shell_cp_r_star. repeat no_build_step.
      destruct (Tree.star_names _ _); [auto with no_build |].
      cbv zeta. repeat no_build_step.
      destruct (Tree.ok _); auto with no_build. }
    assert (Hrm : forall p, no_build (shell_rm_rf host p)).
    { intros. unfold shell_rm_rf. repeat no_build_step. }
    destruct (split " " cmd) as [| a [| b [| c [| d [| ? ?]]]]];
      auto with no_build.
    + destruct (String.eqb a "rm" && String.eqb b "-rf"); auto with no_build.
    + destruct (String.eqb a "cp" && String.eqb b "-r" && endsWith "/*" c);
        auto with no_build.
Qed.

End PostProcessingIsSilent.

(* ================================================================== *)
(** * Facts about glob patterns *)
(* ================================================================== *)

Section GlobFacts.

Local Open Scope string_scope.

Lemma wildcard_literal (pat s : string) :
  star_free pat = true -> Glob.wildcard pat s = String.eqb pat s.
Proof.
  revert s. induction pat as [| c pat IH]; intros s H.
  - destruct s; reflexivity.
  - cbn [star_free all_chars] in H. apply andb_true_iff in H.
    destruct H as [Hc H]. apply negb_true_iff in Hc.
    cbn [Glob.wildcard]. rewrite Hc. destruct s as [| d s]; [reflexivity |].
    rewrite (IH s H). reflexivity.
Qed.

Lemma segment_match_literal (pat s : string) :
  star_free pat = true -> Glob.segment_match pat s = String.eqb pat s.
Proof.
  intro H. unfold Glob.segment_match. rewrite (wildcard_literal pat s H).
  destruct (String.eqb pat s) eqn:E; [| apply andb_false_r].
  apply String.eqb_eq in E. subst s.
  destruct (startsWith "." pat); reflexivity.
Qed.

Lemma star_free_not_globstar (pat : string) :
  star_free pat = true -> String.eqb pat "**" = false.
Proof.
  intro H. apply String.eqb_neq. intro E. subst pat. discriminate H.
Qed.

(** [*] followed by a literal: the segment ends with the literal. *)
Lemma wildcard_star_suffix (suf s : string) :
  star_free suf = true ->
  Glob.wildcard (String "*" suf) s = endsWith suf s.
Proof.
  intro H. change (Glob.wildcard (String "*" suf)) with
    (fix star (s : string) : bool :=
       Glob.wildcard suf s ||
       match s with
       | EmptyString => false
       | String _ s' => star s'
       end).
  induction s as [| c s IH]; cbn [endsWith].
  - rewrite (wildcard_literal suf "" H), String.eqb_sym. reflexivity.
  - rewrite (wildcard_literal suf (String c s) H), IH, String.eqb_sym.
    reflexivity.
Qed.

Lemma segment_match_star_suffix (suf s : string) :
  star_free suf = true ->
  Glob.segment_match (String "*" suf) s =
  negb (startsWith "." s) && endsWith suf s.
Proof.
  intro H. unfold Glob.segment_match.
  rewrite (wildcard_star_suffix suf s H).
  change (startsWith "." (String "*" suf)) with false.
  rewrite orb_false_r. reflexivity.
Qed.

(** A literal segment of the pattern demands the same segment. *)
Lemma match_segments_literal (lit : string) (pats segs : list string) :
  star_free lit = true ->
  Glob.match_segments (lit :: pats) segs =
  match segs with
  | [] => false
  | s :: rest => String.eqb lit s && Glob.match_segments pats rest
  end.
Proof.
  intro H. cbn [Glob.match_segments]. rewrite (star_free_not_globstar lit H).
  destruct segs as [| s rest]; [reflexivity |].
  rewrite (segment_match_literal lit s H). reflexivity.
Qed.

Lemma match_segments_literals (lits pats segs : list string) :
  forallb star_free lits = true ->
  Glob.match_segments (lits ++ pats) segs = true <->
  exists rest, segs = (lits ++ rest)%list /\ Glob.match_segments pats rest = true.
Proof.
  revert segs. induction lits as [| lit lits IH]; intros segs H.
  - simpl. split; [eauto | intros [rest [E Hm]]; subst; exact Hm].
  - cbn [forallb] in H. apply andb_true_iff in H. destruct H as [Hl H].
    cbn [app]. rewrite (match_segments_literal lit _ segs Hl).
    destruct segs as [| s segs].
    + split; [discriminate | intros [rest [E _]]; discriminate E].
    + rewrite andb_true_iff, String.eqb_eq, (IH segs H). split.
      * intros [E [rest [Es Hm]]]. subst. eauto.
      * intros [rest [E Hm]]. injection E as E1 E2. subst. eauto.
Qed.

(** [**] and a last pattern segment: visible directories, then the file. *)
Lemma match_segments_globstar (last : string) (segs : list string) :
  String.eqb last "**" = false ->
  Glob.match_segments ["**"; last] segs = true <->
  exists dirs file,
    segs = (dirs ++ [file])%list /\ forallb Glob.visible dirs = true /\
    Glob.segment_match last file = true.
Proof.
  intro Hlast.
  assert (Hone : forall l, Glob.match_segments [last] l = true <->
                           exists file, l = [file] /\
                                        Glob.segment_match last file = true).
  { intro l. cbn [Glob.match_segments]. rewrite Hlast.
    destruct l as [| s [| s' l]].
    - split; [discriminate | intros [f [E _]]; discriminate E].
    - rewrite andb_true_r. split; [eauto |].
      intros [f [E Hf]]. injection E as E. subst. exact Hf.
    - rewrite andb_false_r. split; [discriminate |].
      intros [f [E _]]. discriminate E. }
  change (Glob.match_segments ["**"; last]) with
    (fix globstar (segs : list string) : bool :=
       Glob.match_segments [last] segs ||
       match segs with
       | [] => false
       | s :: rest => Glob.visible s && globstar rest
       end).
  induction segs as [| s segs IH].
  - rewrite orb_false_r, Hone. split.
    + intros [f [E _]]. discriminate E.
    + intros [dirs [f [E _]]]. destruct dirs; discriminate E.
  - rewrite orb_true_iff, andb_true_iff, Hone, IH. split.
    + intros [[f [E Hf]] | [Hs [dirs [f [E [Hd Hf]]]]]].
      * exists [], f. auto.
      * exists (s :: dirs), f. subst segs. cbn [forallb]. rewrite Hs, Hd. auto.
    + intros [dirs [f [E [Hd Hf]]]]. destruct dirs as [| d dirs].
      * left. exists f. auto.
      * right. injection E as E1 E2. subst d segs. cbn [forallb] in Hd.
        apply andb_true_iff in Hd. destruct Hd as [Hs Hd]. eauto 6.
Qed.

End GlobFacts.

Section GlobBelow.

Local Open Scope string_scope.

Lemma all_chars_split (P : ascii -> bool) (sep : ascii) (s : string) :
  all_chars P s = true -> forallb (all_chars P) (split sep s) = true.
Proof.
  induction s as [| x s IH]; [reflexivity |].
  cbn [all_chars split]. intro H. apply andb_true_iff in H.
  destruct H as [Hx H]. specialize (IH H).
  destruct (Ascii.eqb x sep).
  - exact IH.
  - destruct (split sep s) as [| h t]; cbn [forallb all_chars] in *.
    + rewrite Hx. reflexivity.
    + rewrite Hx. exact IH.
Qed.

Lemma all_chars_append (P : ascii -> bool) (a b : string) :
  all_chars P (a ++ b) = all_chars P a && all_chars P b.
Proof.
  induction a as [| x a IH]; [reflexivity |].
  cbn [append all_chars]. rewrite IH, andb_assoc. reflexivity.
Qed.

Lemma visible_normal (s : string) :
  Glob.visible s = true -> normal_segment s = true.
Proof.
  unfold Glob.visible, normal_segment. intro H.
  apply andb_true_iff in H. destruct H as [H0 H1]. rewrite H0.
  destruct s as [| c s]; [discriminate H0 |].
  destruct (ascii_dec c ".") as [E | E].
  - subst c. discriminate H1.
  - assert (H2 : String.eqb (String c s) "." = false)
      by (apply String.eqb_neq; congruence).
    assert (H3 : String.eqb (String c s) ".." = false)
      by (apply String.eqb_neq; congruence).
    rewrite H2, H3. reflexivity.
Qed.

Lemma visible_path_normal (rel : string) :
  visible_path rel = true -> forallb normal_segment (split "/" rel) = true.
Proof.
  unfold visible_path. induction (split "/" rel) as [| s segs IH];
    [reflexivity |].
  cbn [forallb]. intro H. apply andb_true_iff in H. destruct H as [Hs H].
  rewrite (visible_normal s Hs), (IH H). reflexivity.
Qed.

(** The segments of a pattern that ends in [**/*<ext>]. *)
Lemma split_globstar_pattern (dir ext : string) :
  one_segment ext = true ->
  split "/" (dir ++ "/**/*" ++ ext) =
  (split "/" dir ++ ["**"; String "*" ext])%list.
Proof.
  intro He.
  change (dir ++ "/**/*" ++ ext)
    with (dir ++ String "/" ("**" ++ String "/" (String "*" ext))).
  rewrite !split_append_sep.
  rewrite (split_unbroken "/"%char (String "*" ext)) by exact He.
  reflexivity.
Qed.

Lemma endsWith_last_segment (ext rel file : string) (dirs : list string) :
  one_segment ext = true ->
  split "/" rel = (dirs ++ [file])%list ->
  endsWith ext rel = endsWith ext file.
Proof.
  intros He Hs. destruct (endsWith ext file) eqn:Ef.
  - destruct (endsWith_inv ext file Ef) as [b Eb]. subst file.
    rewrite <- (join_split "/"%char rel), Hs.
    destruct (ends_in_segment_join (b ++ ext) dirs) as [E | [a E]]; rewrite E.
    + apply endsWith_append.
    + rewrite <- !append_assoc. apply endsWith_append.
  - destruct (endsWith ext rel) eqn:Er; [| reflexivity].
    destruct (endsWith_inv ext rel Er) as [a Ea]. subst rel.
    destruct (exists_last (split_nonempty "/"%char a)) as [init [l El]].
    rewrite (split_append_unbroken "/"%char a ext init l He El) in Hs.
    apply app_inj_tail in Hs. destruct Hs as [_ Hs]. subst file.
    rewrite endsWith_append in Ef. discriminate Ef.
Qed.

Lemma star_suffix_not_globstar (ext : string) :
  star_free ext = true -> String.eqb (String "*" ext) "**" = false.
Proof.
  intro H. apply String.eqb_neq. intro E. injection E as E. subst ext.
  discriminate H.
Qed.

(** The files a pattern [<dir>/**/*<ext>] matches, for a literal [dir]:
    those below [dir] on a path of visible segments that ends in [ext]. *)
Lemma glob_matches_below (dir ext p : string) :
  star_free dir = true -> star_free ext = true -> one_segment ext = true ->
  ext <> "" ->
  Glob.matches (dir ++ "/**/*" ++ ext) p = true <->
  exists rel,
    p = dir ++ "/" ++ rel /\ visible_path rel = true /\ endsWith ext rel = true.
Proof.
  intros Hd Hstar Hone Hext.
  unfold Glob.matches. rewrite (split_globstar_pattern dir ext Hone).
  rewrite (match_segments_literals _ _ _ (all_chars_split _ "/"%char dir Hd)).
  split.
  - intros [rest [Ep Hm]].
    apply match_segments_globstar in Hm;
      [| exact (star_suffix_not_globstar ext Hstar)].
    destruct Hm as [dirs [file [Er [Hv Hf]]]]. subst rest.
    rewrite (segment_match_star_suffix ext file Hstar) in Hf.
    apply andb_true_iff in Hf. destruct Hf as [Hdot Hend].
    exists (join "/" (dirs ++ [file])).
    assert (Hunb : forallb one_segment (dirs ++ [file]) = true).
    { pose proof (split_segments_unbroken "/"%char p) as Hu.
      rewrite Ep, forallb_app in Hu. apply andb_true_iff in Hu. apply Hu. }
    assert (Hsplit : split "/" (join "/" (dirs ++ [file])) = (dirs ++ [file])%list).
    { apply (split_join "/"%char); [destruct dirs; discriminate | exact Hunb]. }
    repeat split.
    + rewrite <- (join_split "/"%char p), Ep.
      rewrite (join_app "/"%char);
        [| apply split_nonempty | destruct dirs; discriminate].
      rewrite (join_split "/"%char dir). reflexivity.
    + unfold visible_path. rewrite Hsplit, forallb_snoc, Hv.
      unfold Glob.visible. rewrite Hdot.
      destruct file; [| reflexivity].
      destruct (endsWith_inv ext "" Hend) as [a Ea].
      destruct a; simpl in Ea; [congruence | discriminate Ea].
    + rewrite (endsWith_last_segment ext _ file dirs Hone Hsplit). exact Hend.
  - intros [rel [Ep [Hv Hend]]]. subst p. exists (split "/" rel). split.
    + cbn [append]. apply split_append_sep.
    + apply match_segments_globstar;
        [exact (star_suffix_not_globstar ext Hstar) |].
      destruct (exists_last (split_nonempty "/"%char rel)) as [dirs [file Es]].
      exists dirs, file. unfold visible_path in Hv.
      rewrite Es, forallb_snoc in Hv. apply andb_true_iff in Hv.
      destruct Hv as [Hdirs Hfile]. repeat split; [exact Es | exact Hdirs |].
      rewrite (segment_match_star_suffix ext file Hstar).
      rewrite <- (endsWith_last_segment ext rel file dirs Hone Es), Hend.
      unfold Glob.visible in Hfile. apply andb_true_iff in Hfile.
      destruct Hfile as [_ Hdot]. rewrite Hdot. reflexivity.
Qed.

Lemma below_visible_normal (dir rel : string) :
  normal_absolute dir = true -> visible_path rel = true ->
  normal_absolute (dir ++ "/" ++ rel) = true.
Proof.
  intros Hd Hv. apply normal_absolute_append; [exact Hd |].
  apply visible_path_normal. exact Hv.
Qed.

End GlobBelow.

(* ================================================================== *)
(** * Facts about the file tree *)
(* ================================================================== *)

Section TreeFacts.

Local Open Scope string_scope.

Lemma lookup_app (q : string) (a b : FileTree) :
  Tree.lookup q (a ++ b)%list =
  match Tree.lookup q a with
  | Some data => Some data
  | None => Tree.lookup q b
  end.
Proof.
  unfold Tree.lookup. induction a as [| e a IH]; [reflexivity |].
  cbn [app find]. destruct (String.eqb (fst e) q); [reflexivity | exact IH].
Qed.

Lemma lookup_filter (f : string -> bool) (q : string) (t : FileTree) :
  Tree.lookup q (filter (fun e => f (fst e)) t) =
  if f q then Tree.lookup q t else None.
Proof.
  unfold Tree.lookup. induction t as [| e t IH].
  - simpl. destruct (f q); reflexivity.
  - cbn [filter]. destruct (f (fst e)) eqn:Ef; cbn [find];
      destruct (String.eqb (fst e) q) eqn:E.
    + apply String.eqb_eq in E. subst q. rewrite Ef. reflexivity.
    + exact IH.
    + apply String.eqb_eq in E. subst q. rewrite Ef in *. exact IH.
    + exact IH.
Qed.

Lemma lookup_remove (p q : string) (t : FileTree) :
  Tree.lookup q (Tree.remove p t) =
  if String.eqb q p then None else Tree.lookup q t.
Proof.
  unfold Tree.remove.
  rewrite (lookup_filter (fun k => negb (String.eqb k p)) q t).
  destruct (String.eqb q p); reflexivity.
Qed.

Lemma lookup_write (p data q : string) (t : FileTree) :
  Tree.lookup q (Tree.write p data t) =
  if String.eqb q p then Some data else Tree.lookup q t.
Proof.
  unfold Tree.write. rewrite lookup_app, lookup_remove.
  destruct (String.eqb q p) eqn:E.
  - unfold Tree.lookup. cbn [find fst snd]. rewrite String.eqb_sym, E.
    reflexivity.
  - destruct (Tree.lookup q t); [reflexivity |].
    unfold Tree.lookup. cbn [find fst]. rewrite String.eqb_sym, E. reflexivity.
Qed.

Lemma lookup_put (p data q : string) (t : FileTree) :
  Tree.lookup q (Tree.put p data t) =
  if String.eqb q p then Some data else Tree.lookup q t.
Proof.
  unfold Tree.lookup. induction t as [| e t IH]; cbn [Tree.put find].
  - cbn [fst snd]. rewrite String.eqb_sym. destruct (String.eqb q p); reflexivity.
  - destruct (String.eqb (fst e) p) eqn:Ep; cbn [find fst snd].
    + apply String.eqb_eq in Ep. rewrite Ep, String.eqb_sym.
      destruct (String.eqb q p); reflexivity.
    + destruct (String.eqb (fst e) q) eqn:Eq.
      * apply String.eqb_eq in Eq. rewrite <- Eq, Ep. reflexivity.
      * exact IH.
Qed.

Lemma lookup_remove_recursive (d q : string) (t : FileTree) :
  Tree.lookup q (Tree.remove_recursive d t) =
  if String.eqb q d || Tree.below d q then None else Tree.lookup q t.
Proof.
  unfold Tree.remove_recursive.
  rewrite (lookup_filter (fun k => negb (String.eqb k d || Tree.below d k)) q t).
  destruct (String.eqb q d || Tree.below d q); reflexivity.
Qed.

Lemma lookup_listed (q : string) (t : FileTree) :
  Tree.lookup q t <> None <-> In q (map fst t).
Proof.
  unfold Tree.lookup. induction t as [| e t IH]; simpl.
  - split; [congruence | tauto].
  - destruct (String.eqb (fst e) q) eqn:E.
    + apply String.eqb_eq in E. split; [auto | discriminate].
    + apply String.eqb_neq in E. rewrite IH. split; [auto | tauto].
Qed.

Lemma existsSync_false (p : string) (t : FileTree) :
  Tree.existsSync p t = false -> Tree.lookup p t = None.
Proof.
  unfold Tree.existsSync. destruct (Tree.lookup p t); [discriminate | reflexivity].
Qed.

Lemma below_relative (d rel : string) :
  Tree.below d (d ++ "/" ++ rel) = true /\
  Tree.relative d (d ++ "/" ++ rel) = rel.
Proof.
  unfold Tree.below, Tree.relative. rewrite <- append_assoc.
  split; [apply startsWith_append | apply drop_append].
Qed.

Lemma below_inv (d p : string) :
  Tree.below d p = true -> p = d ++ "/" ++ Tree.relative d p.
Proof.
  unfold Tree.below, Tree.relative. intro H.
  destruct (startsWith_inv _ _ H) as [b E]. rewrite E at 2.
  rewrite drop_append, E, append_assoc. reflexivity.
Qed.

Lemma written_app (a b : list Event) :
  written (a ++ b) = (written a ++ written b)%list.
Proof.
  induction a as [| ev a IH]; simpl; [reflexivity |].
  destruct ev; simpl; rewrite IH; reflexivity.
Qed.

End TreeFacts.

(* ================================================================== *)
(** * The steps of the post-processing *)
(* ================================================================== *)

Section Steps.

Local Open Scope string_scope.

Variable host : Host.

Lemma emit_run (ev : Event) (w : World) :
  emit ev w = (inr tt, {| files := files w; events := (events w ++ [ev])%list |}).
Proof. reflexivity. Qed.

(** A move that succeeded. *)
Lemma moveSync_ok (src dest : string) (w w' : World) :
  moveSync host src dest w = (inr tt, w') ->
  exists data,
    Tree.lookup (resolve host src) (files w) = Some data /\
    Tree.lookup (resolve host dest) (files w) = None /\
    files w' = Tree.write (resolve host dest) data
                 (Tree.remove (resolve host src) (files w)).
Proof.
  unfold moveSync. rewrite bind_run, emit_run, bind_run.
  cbn [get_files files].
  destruct (Tree.lookup (resolve host src) (files w)) as [data |];
    [| discriminate].
  destruct (Tree.existsSync (resolve host dest) (files w)) eqn:E;
    [discriminate |].
  intro H. injection H as H. subst w'. exists data.
  repeat split. exact (existsSync_false _ _ E).
Qed.

Lemma moveSync_events (src dest : string) (w w' : World) (r : JSError + unit) :
  moveSync host src dest w = (r, w') ->
  events w' = (events w ++ [EvMove src dest])%list.
Proof.
  unfold moveSync. rewrite bind_run, emit_run, bind_run.
  cbn [get_files files].
  destruct (Tree.lookup (resolve host src) (files w)) as [data |].
  - destruct (Tree.existsSync (resolve host dest) (files w));
      intro H; injection H as _ H; subst w'; reflexivity.
  - intro H. injection H as _ H. subst w'. reflexivity.
Qed.

Lemma moves_write_nothing (rename : string -> string) (listed : list string) :
  forall (w w' : World) (r : JSError + unit),
    forEach listed (fun p => moveSync host p (rename p)) w = (r, w') ->
    written (events w') = written (events w).
Proof.
  induction listed as [| a rest IH]; intros w w' r Hrun.
  - injection Hrun as _ Hrun. subst w'. reflexivity.
  - rewrite forEach_cons, bind_run in Hrun.
    destruct (moveSync host a (rename a) w) as [[e | []] w1] eqn:E.
    + injection Hrun as _ Hrun. subst w'.
      rewrite (moveSync_events _ _ _ _ _ E), written_app. simpl.
      apply app_nil_r.
    + rewrite (IH _ _ _ Hrun), (moveSync_events _ _ _ _ _ E), written_app.
      simpl. apply app_nil_r.
Qed.

(** Renaming every file of a list: when all the moves succeed, each file
    is found under its new name, and the files outside the list and its
    new names are as before. *)
Lemma forEach_moves (rename : string -> string) (listed : list string) :
  NoDup listed ->
  (forall p, In p listed ->
             resolve host p = p /\ resolve host (rename p) = rename p) ->
  (forall p q, In p listed -> In q listed -> rename p = rename q -> p = q) ->
  forall w w',
    (forall p, In p listed -> Tree.lookup p (files w) <> None) ->
    forEach listed (fun p => moveSync host p (rename p)) w = (inr tt, w') ->
    (forall p, In p listed ->
               Tree.lookup (rename p) (files w') = Tree.lookup p (files w)) /\
    (forall k, ~ In k listed -> ~ In k (map rename listed) ->
               Tree.lookup k (files w') = Tree.lookup k (files w)).
Proof.
  induction listed as [| a rest IH]; intros Hnd Hres Hinj w w' Hthere Hrun.
  - injection Hrun as Hrun. subst w'. split; [intros p [] | reflexivity].
  - rewrite forEach_cons in Hrun.
    destruct (bind_ok _ _ _ _ _ Hrun) as [[] [w1 [Hmove Hrest]]].
    destruct (moveSync_ok _ _ _ _ Hmove) as [data [Hsrc [Hdest Hfiles]]].
    destruct (Hres a (or_introl eq_refl)) as [Ra Rb].
    rewrite Ra in Hsrc. rewrite Rb in Hdest. rewrite Ra, Rb in Hfiles.
    inversion Hnd as [| ? ? Hnotin Hnd']; subst.
    assert (Hfresh : ~ In (rename a) rest).
    { intro Hin. apply (Hthere (rename a) (or_intror Hin)). exact Hdest. }
    assert (Hafter : forall k, k <> a -> k <> rename a ->
                               Tree.lookup k (files w1) = Tree.lookup k (files w)).
    { intros k Hk1 Hk2. rewrite Hfiles, lookup_write, lookup_remove.
      apply String.eqb_neq in Hk1, Hk2. rewrite Hk1, Hk2. reflexivity. }
    assert (Hne : forall p, In p rest -> p <> a /\ p <> rename a).
    { intros p Hp. split; intro E; subst p; tauto. }
    destruct (IH Hnd'
                 (fun p Hp => Hres p (or_intror Hp))
                 (fun p q Hp Hq => Hinj p q (or_intror Hp) (or_intror Hq))
                 w1 w') as [Hmoved Hkept].
    { intros p Hp. destruct (Hne p Hp) as [N1 N2].
      rewrite (Hafter p N1 N2). apply Hthere. right. exact Hp. }
    { exact Hrest. }
    split.
    + intros p [E | Hp].
      * subst p. rewrite Hkept.
        -- rewrite Hfiles, lookup_write, String.eqb_refl. symmetry. exact Hsrc.
        -- exact Hfresh.
        -- intro Hin. apply in_map_iff in Hin. destruct Hin as [q [Eq Hq]].
           apply Hnotin.
           rewrite <- (Hinj q a (or_intror Hq) (or_introl eq_refl) Eq).
           exact Hq.
      * rewrite (Hmoved p Hp). destruct (Hne p Hp) as [N1 N2].
        apply Hafter; assumption.
    + intros k Hk1 Hk2. rewrite Hkept.
      * apply Hafter; intro E; subst k.
        -- apply Hk1. left. reflexivity.
        -- apply Hk2. left. reflexivity.
      * intro Hin. apply Hk1. right. exact Hin.
      * intro Hin. apply Hk2. right. exact Hin.
Qed.

(** ** The recursive copy *)

Lemma insert_name_In (x y : string) (sorted : list string) :
  In y (Tree.insert_name x sorted) <-> x = y \/ In y sorted.
Proof.
  induction sorted as [| z rest IH]; cbn [Tree.insert_name].
  - reflexivity.
  - destruct (String.leb x z); cbn [In]; [reflexivity |].
    rewrite IH. tauto.
Qed.

(** Sorting the names loses none and adds none. *)
Lemma sort_names_In (y : string) (names : list string) :
  In y (Tree.sort_names names) <-> In y names.
Proof.
  induction names as [| x rest IH]; cbn [Tree.sort_names fold_right In].
  - reflexivity.
  - rewrite insert_name_In. fold (Tree.sort_names rest). rewrite IH.
    reflexivity.
Qed.

Lemma below_prefix (d e p : string) :
  p = d ++ "/" ++ e \/ Tree.below (d ++ "/" ++ e) p = true ->
  Tree.below d p = true.
Proof.
  unfold Tree.below. intros [E | H].
  - subst p. rewrite <- append_assoc. apply startsWith_append.
  - destruct (startsWith_inv _ _ H) as [c E]. subst p.
    rewrite !append_assoc, <- append_assoc. apply startsWith_append.
Qed.

(** A relative path is its first segment, or goes on below it. *)
Lemma top_cases (rel : string) :
  rel = Tree.top rel \/ exists rest, rel = Tree.top rel ++ "/" ++ rest.
Proof.
  unfold Tree.top. pose proof (join_split "/"%char rel) as E.
  destruct (split "/" rel) as [| s [| s' segs]] eqn:Es; cbn [hd].
  - exfalso. exact (split_nonempty "/"%char rel Es).
  - left. cbn [JSString.join] in E. symmetry. exact E.
  - right. exists (JSString.join "/" (s' :: segs)).
    rewrite <- E at 1. reflexivity.
Qed.

Lemma distinct_In (x : string) (names : list string) :
  In x (Tree.distinct names) <-> In x names.
Proof.
  unfold Tree.distinct. rewrite <- in_rev, nodup_In, <- in_rev. reflexivity.
Qed.

Lemma child_names_listed (d rel : string) (t : FileTree) :
  In (d ++ "/" ++ rel) (map fst t) ->
  In (Tree.top rel) (Tree.child_names d t).
Proof.
  intro Hin. unfold Tree.child_names.
  destruct (below_relative d rel) as [Hb Hr].
  rewrite distinct_In, in_map_iff. exists (d ++ "/" ++ rel).
  rewrite Hr. split; [reflexivity |].
  rewrite filter_In, Hb. auto.
Qed.

(** A visible file of the source directory belongs to one of the names the
    shell passes to [cp]. *)
Lemma star_names_listed (d rel : string) (t : FileTree) :
  In (d ++ "/" ++ rel) (map fst t) ->
  Glob.visible (Tree.top rel) = true ->
  In (Tree.top rel) (Tree.star_names d t).
Proof.
  intros Hin Hv. unfold Tree.star_names.
  rewrite sort_names_In, filter_In. split; [| exact Hv].
  apply child_names_listed. exact Hin.
Qed.

(** A file belongs to the entry its path begins with. *)
Lemma entry_of_file (from rel : string) :
  from ++ "/" ++ rel = from ++ "/" ++ Tree.top rel \/
  Tree.below (from ++ "/" ++ Tree.top rel) (from ++ "/" ++ rel) = true.
Proof.
  destruct (top_cases rel) as [Et | [more Et]].
  - left. rewrite <- Et. reflexivity.
  - right. unfold Tree.below. rewrite Et at 2.
    rewrite <- !append_assoc. apply startsWith_append.
Qed.

Lemma next_argument_tree (st : Tree.Copy) :
  Tree.tree (Tree.next_argument st) = Tree.tree st.
Proof. unfold Tree.next_argument. destruct (Tree.standing st); reflexivity. Qed.

Lemma next_argument_ok (st : Tree.Copy) :
  Tree.ok (Tree.next_argument st) = Tree.ok st.
Proof.
  unfold Tree.next_argument, Tree.ok.
  destruct (Tree.standing st) eqn:E; cbn [Tree.standing Tree.refuse];
    rewrite ?E; reflexivity.
Qed.

(** The ways [cp -r from to] can go: the argument has been abandoned;
    once the file at [from], if any, has had its turn, there is nothing
    below [from]; something is refused; or the entries of [from] have
    their turn. *)
Lemma copy_tree_cases (depth : nat) (below_made : bool) (from to : string)
    (st : Tree.Copy) :
  Tree.ok st = false /\ Tree.copy_tree depth below_made from to st = st \/
  Tree.child_names from (Tree.tree (Tree.copy_file from to st)) = [] /\
  Tree.copy_tree depth below_made from to st = Tree.copy_file from to st \/
  Tree.tree (Tree.copy_tree depth below_made from to st) =
    Tree.tree (Tree.copy_file from to st) /\
  Tree.ok (Tree.copy_tree depth below_made from to st) = false \/
  exists depth' below_made' st2,
    depth = S depth' /\
    Tree.tree st2 = Tree.tree (Tree.copy_file from to st) /\
    Tree.ok st2 = Tree.ok (Tree.copy_file from to st) /\
    Tree.copy_tree depth below_made from to st =
    fold_left
      (fun st name =>
         Tree.copy_tree depth' below_made' (from ++ "/" ++ name)
                        (to ++ "/" ++ name) st)
      (Tree.child_names from (Tree.tree (Tree.copy_file from to st))) st2.
Proof.
  destruct depth as [| depth']; cbn [Tree.copy_tree]; cbv zeta;
    (destruct (Tree.standing st) eqn:Es;
     [| | left; unfold Tree.ok; rewrite Es; auto]);
    (destruct (Tree.child_names from (Tree.tree (Tree.copy_file from to st)))
       as [| e es]; [right; left; auto |]);
    try (right; right; left; split; reflexivity);
    (destruct (Tree.is_file to _ || Tree.under_file to _);
     [right; right; left; split; reflexivity |]);
    (destruct (existsb _ _);
     [right; right; left; split; reflexivity |]);
    right; right; right; eexists depth', _, _;
    (split; [reflexivity |]); (split; [| split; [| reflexivity]]);
    destruct (negb _ && negb _); reflexivity.
Qed.

(** The copy of a file, done or refused, changes at most its target. *)
Lemma copy_file_confined (from to : string) (st : Tree.Copy) (k : string) :
  k <> to ->
  Tree.lookup k (Tree.tree (Tree.copy_file from to st)) =
  Tree.lookup k (Tree.tree st).
Proof.
  intro Hk. unfold Tree.copy_file.
  destruct (Tree.lookup from (Tree.tree st)); [| reflexivity].
  destruct (_ || _); [reflexivity |]. cbn [Tree.tree].
  rewrite lookup_put. apply String.eqb_neq in Hk. rewrite Hk. reflexivity.
Qed.

Lemma fold_confined {B : Type} (k : string)
    (f : Tree.Copy -> B -> Tree.Copy) (l : list B) :
  (forall st b, Tree.lookup k (Tree.tree (f st b)) = Tree.lookup k (Tree.tree st)) ->
  forall st, Tree.lookup k (Tree.tree (fold_left f l st)) =
             Tree.lookup k (Tree.tree st).
Proof.
  intro Hf. induction l as [| b rest IH]; intro st; [reflexivity |].
  cbn [fold_left]. rewrite IH. apply Hf.
Qed.

(** A recursive copy, done or refused, changes only its target and paths
    below it. *)
Lemma copy_tree_confined (k : string) (depth : nat) :
  forall below_made from to st,
    (forall s, k <> to ++ s) ->
    Tree.lookup k (Tree.tree (Tree.copy_tree depth below_made from to st)) =
    Tree.lookup k (Tree.tree st).
Proof.
  induction depth as [| n IH]; intros below_made from to st Hk;
    assert (Hfile : Tree.lookup k (Tree.tree (Tree.copy_file from to st)) =
                    Tree.lookup k (Tree.tree st))
      by (apply copy_file_confined; rewrite <- (append_nil_r to); apply Hk);
    match goal with
    | |- context [Tree.copy_tree ?depth _ _ _ _] =>
        destruct (copy_tree_cases depth below_made from to st)
          as [[_ E] | [[_ E] | [[E _] | [n' [b' [st2 [Ed [Et [_ E]]]]]]]]]
    end;
    rewrite E; try reflexivity; try exact Hfile; try discriminate Ed.
  injection Ed as Ed. subst n'. rewrite fold_confined; [congruence |].
  intros st' name. apply IH. intro s. rewrite !append_assoc. apply Hk.
Qed.

Section SeparateCopy.

(** The copy from [d] to [dest], started on the tree [t0], when no file
    below [d] is to be copied to a place below [d]. *)
Variables d dest : string.
Variable t0 : FileTree.
Hypothesis separate :
  forall q, Tree.lookup q t0 <> None -> Tree.below d q = true ->
            Tree.below d (dest ++ "/" ++ Tree.relative d q) = false.

(** A step that is not taken, or ends in a refusal. *)
Lemma copy_step_idle (covers : string -> Prop) (st st' : Tree.Copy) :
  sources_intact d t0 (Tree.tree st) ->
  Tree.tree st' = Tree.tree st -> Tree.ok st' = false ->
  sources_intact d t0 (Tree.tree st') /\
  (Tree.ok st' = true -> Tree.ok st = true) /\
  (forall p, copied_to d dest t0 (Tree.tree st) p ->
             copied_to d dest t0 (Tree.tree st') p) /\
  (Tree.ok st' = true ->
   forall p, covers p -> Tree.below d p = true -> Tree.lookup p t0 <> None ->
             copied_to d dest t0 (Tree.tree st') p).
Proof.
  intros Hint Et Eok. rewrite Et, Eok.
  split; [exact Hint |]. split; [discriminate |]. split; [auto | discriminate].
Qed.

Lemma copy_step_file (x : string) :
  copy_step d dest t0 (fun p => p = d ++ "/" ++ x)
            (Tree.copy_file (d ++ "/" ++ x) (dest ++ "/" ++ x)).
Proof.
  intros st Hint. destruct (below_relative d x) as [Hb Hr].
  unfold Tree.copy_file.
  destruct (Tree.lookup (d ++ "/" ++ x) (Tree.tree st)) as [data |] eqn:E.
  - destruct (_ || _); [apply copy_step_idle; auto |].
    assert (Hdata : Tree.lookup (d ++ "/" ++ x) t0 = Some data)
      by (rewrite <- (Hint _ Hb); exact E).
    assert (Hout : Tree.below d (dest ++ "/" ++ x) = false).
    { pose proof (separate (d ++ "/" ++ x)) as Hs. rewrite Hr in Hs.
      apply Hs; [| exact Hb]. rewrite Hdata. discriminate. }
    unfold Tree.ok. cbn [Tree.tree Tree.standing].
    split; [| split; [auto | split]].
    + intros q Hq. rewrite lookup_put.
      replace (String.eqb q (dest ++ "/" ++ x)) with false; [exact (Hint q Hq) |].
      symmetry. apply String.eqb_neq. intro Eq. subst q. congruence.
    + intros p [Hp [data' [Hp0 Hcopied]]]. split; [exact Hp |].
      exists data'. split; [exact Hp0 |]. rewrite lookup_put.
      destruct (String.eqb (dest ++ "/" ++ Tree.relative d p)
                           (dest ++ "/" ++ x)) eqn:Eq; [| exact Hcopied].
      apply String.eqb_eq in Eq. apply append_cancel_l in Eq.
      apply append_cancel_l in Eq.
      rewrite (below_inv d p Hp), Eq, Hdata in Hp0. exact Hp0.
    + intros _ p Ep _ _. subst p. split; [exact Hb |].
      exists data. split; [exact Hdata |].
      rewrite Hr, lookup_put, String.eqb_refl. reflexivity.
  - split; [exact Hint |]. split; [auto |]. split; [auto |].
    intros _ p Ep _ Hthere. subst p. exfalso. apply Hthere.
    rewrite <- (Hint _ Hb). exact E.
Qed.

Lemma copy_step_fold (f : Tree.Copy -> string -> Tree.Copy)
    (covers : string -> string -> Prop) (names : list string) :
  (forall name, In name names ->
                copy_step d dest t0 (covers name) (fun st => f st name)) ->
  copy_step d dest t0 (fun p => exists name, In name names /\ covers name p)
            (fun st => fold_left f names st).
Proof.
  induction names as [| a rest IH]; intros Hf st Hint.
  - cbn [fold_left]. split; [exact Hint |]. split; [auto |]. split; [auto |].
    intros _ p [name [[] _]].
  - cbn [fold_left].
    destruct (Hf a (or_introl eq_refl) st Hint) as [Hint1 [Hflag1 [Hkeep1 Hcover1]]].
    destruct (IH (fun name Hn => Hf name (or_intror Hn)) (f st a) Hint1)
      as [Hint2 [Hflag2 [Hkeep2 Hcover2]]].
    split; [exact Hint2 |]. split; [auto |]. split; [auto |].
    intros Hok p [name [[E | Hin] Hc]] Hp Hthere.
    + subst a. apply Hkeep2. apply Hcover1; auto.
    + apply Hcover2; [exact Hok | | exact Hp | exact Hthere].
      exists name. auto.
Qed.

Lemma copy_step_tree (depth : nat) :
  forall below_made x,
    copy_step d dest t0
      (fun p => p = d ++ "/" ++ x \/ Tree.below (d ++ "/" ++ x) p = true)
      (Tree.copy_tree depth below_made (d ++ "/" ++ x) (dest ++ "/" ++ x)).
Proof.
  induction depth as [| n IH]; intros below_made x st Hint;
    destruct (copy_step_file x st Hint) as [Hint1 [Hflag1 [Hkeep1 Hcover1]]];
    match goal with
    | |- context [Tree.copy_tree ?depth _ _ _] =>
        destruct (copy_tree_cases depth below_made (d ++ "/" ++ x)
                                  (dest ++ "/" ++ x) st)
          as [[Eok E] | [[En E] | [[Et Eok] | [n' [b' [st2 [Ed [Et [Eok E]]]]]]]]]
    end;
    try discriminate Ed.
  1, 4: rewrite E; apply copy_step_idle; auto.
  1, 3: rewrite E; split; [exact Hint1 |]; split; [exact Hflag1 |];
    split; [exact Hkeep1 |];
    intros Hok p [Ep | Hb] Hp Hthere; [apply Hcover1; auto |];
    exfalso; rewrite (below_inv _ _ Hb) in Hthere;
    assert (Hin : In (Tree.top (Tree.relative (d ++ "/" ++ x) p))
                     (Tree.child_names (d ++ "/" ++ x)
                        (Tree.tree (Tree.copy_file (d ++ "/" ++ x)
                                                   (dest ++ "/" ++ x) st))))
      by (apply child_names_listed, lookup_listed;
          rewrite (Hint1 _ (below_prefix d x _ (or_intror
                     (proj1 (below_relative (d ++ "/" ++ x) _)))));
          exact Hthere);
    rewrite En in Hin; exact Hin.
  1, 2: rewrite Et, Eok; split; [exact Hint1 |]; split; [discriminate |];
    split; [exact Hkeep1 | discriminate].
  injection Ed as Ed. subst n'. rewrite E. clear E.
  assert (Hstep : forall name,
            copy_step d dest t0
              (fun p => p = (d ++ "/" ++ x) ++ "/" ++ name \/
                        Tree.below ((d ++ "/" ++ x) ++ "/" ++ name) p = true)
              (fun st' => Tree.copy_tree n b' ((d ++ "/" ++ x) ++ "/" ++ name)
                                         ((dest ++ "/" ++ x) ++ "/" ++ name) st')).
  { intro name.
    replace ((d ++ "/" ++ x) ++ "/" ++ name) with (d ++ "/" ++ x ++ "/" ++ name)
      by (rewrite !append_assoc; reflexivity).
    replace ((dest ++ "/" ++ x) ++ "/" ++ name)
      with (dest ++ "/" ++ x ++ "/" ++ name)
      by (rewrite !append_assoc; reflexivity).
    exact (IH b' (x ++ "/" ++ name)). }
  rewrite <- Et in Hint1.
  destruct (copy_step_fold _ _ (Tree.child_names (d ++ "/" ++ x)
              (Tree.tree (Tree.copy_file (d ++ "/" ++ x) (dest ++ "/" ++ x) st)))
              (fun name _ => Hstep name) st2 Hint1)
    as [Hint2 [Hflag2 [Hkeep2 Hcover2]]].
  rewrite Et in Hint1, Hkeep2. rewrite Eok in Hflag2.
  split; [exact Hint2 |]. split; [auto |]. split; [auto |].
  intros Hok p [Ep | Hb] Hp Hthere.
  - apply Hkeep2. apply Hcover1; auto.
  - apply Hcover2; [exact Hok | | exact Hp | exact Hthere].
    exists (Tree.top (Tree.relative (d ++ "/" ++ x) p)). split.
    + apply child_names_listed, lookup_listed.
      rewrite <- (below_inv _ _ Hb), (Hint1 _ Hp). exact Hthere.
    + pose proof (entry_of_file (d ++ "/" ++ x)
                    (Tree.relative (d ++ "/" ++ x) p)) as He.
      rewrite <- (below_inv _ _ Hb) in He. exact He.
Qed.

(** The copy of one argument of [cp]. *)
Lemma copy_step_argument (depth : nat) (name : string) :
  copy_step d dest t0
    (fun p => p = d ++ "/" ++ name \/ Tree.below (d ++ "/" ++ name) p = true)
    (fun st => Tree.copy_tree depth false (d ++ "/" ++ name)
                              (dest ++ "/" ++ name) (Tree.next_argument st)).
Proof.
  intros st Hint.
  pose proof (copy_step_tree depth false name (Tree.next_argument st)) as H.
  rewrite next_argument_tree, next_argument_ok in H. exact (H Hint).
Qed.

End SeparateCopy.

(** The two ways the copy can go: nothing to copy, or every name the
    shell found in turn. *)
Lemma shell_cp_r_star_run (src dest : string) (w : World) :
  Tree.star_names (resolve host src) (files w) = [] /\
  shell_cp_r_star host src dest w =
  (inl (Error ("cp: cannot stat " ++ src ++ "/*")), w) \/
  exists copied,
    copied =
    fold_left
      (fun st name =>
         Tree.copy_tree (Tree.height (files w)) false
                        (resolve host src ++ "/" ++ name)
                        (resolve host dest ++ "/" ++ name)
                        (Tree.next_argument st))
      (Tree.star_names (resolve host src) (files w))
      {| Tree.tree := files w; Tree.standing := Tree.going; Tree.made := [] |} /\
    shell_cp_r_star host src dest w =
    (if Tree.ok copied then inr tt else inl (Error "cp: exit status 1"),
     {| files := Tree.tree copied; events := events w |}).
Proof.
  unfold shell_cp_r_star. rewrite bind_run. cbn [get_files].
  destruct (Tree.star_names (resolve host src) (files w)) as [| e es];
    [left; split; reflexivity | right].
  eexists. split; [reflexivity |].
  cbv zeta. rewrite bind_run. cbn [put_files].
  destruct (Tree.ok _); reflexivity.
Qed.

(** The copy adds nothing to the trace. *)
Lemma shell_cp_r_star_events (src dest : string) (w w' : World)
    (r : JSError + unit) :
  shell_cp_r_star host src dest w = (r, w') -> events w' = events w.
Proof.
  destruct (shell_cp_r_star_run src dest w) as [[_ E] | [copied [_ E]]];
    rewrite E; intro H; injection H as _ H; subst w'; reflexivity.
Qed.

(** The copy, done or refused, changes only paths below its destination. *)
Lemma shell_cp_r_star_confined (src dest : string) (w w' : World)
    (r : JSError + unit) (k : string) :
  shell_cp_r_star host src dest w = (r, w') ->
  (forall rel, k <> resolve host dest ++ "/" ++ rel) ->
  Tree.lookup k (files w') = Tree.lookup k (files w).
Proof.
  destruct (shell_cp_r_star_run src dest w) as [[_ E] | [copied [Ec E]]];
    rewrite E; intros H Hk; injection H as _ H; subst w'; [reflexivity |].
  cbn [files]. subst copied. rewrite fold_confined; [reflexivity |].
  intros st name. rewrite copy_tree_confined; [apply f_equal, next_argument_tree |].
  intro s. rewrite !append_assoc. apply Hk.
Qed.

(** A copy that succeeded, when no file of the source directory is to be
    copied to a place in the source directory: a file below a visible
    entry of the source directory is found at the same place below the
    destination. *)
Lemma shell_cp_r_star_ok (src dest : string) (w w' : World) :
  shell_cp_r_star host src dest w = (inr tt, w') ->
  (forall q, Tree.lookup q (files w) <> None ->
             Tree.below (resolve host src) q = true ->
             Tree.below (resolve host src)
               (resolve host dest ++ "/" ++ Tree.relative (resolve host src) q) =
             false) ->
  forall rel data,
    Tree.lookup (resolve host src ++ "/" ++ rel) (files w) = Some data ->
    Glob.visible (Tree.top rel) = true ->
    Tree.lookup (resolve host dest ++ "/" ++ rel) (files w') = Some data.
Proof.
  intros Hrun Hsep rel data Hdata Hv.
  destruct (shell_cp_r_star_run src dest w) as [[_ E] | [copied [Ec E]]];
    rewrite E in Hrun; [discriminate Hrun |].
  destruct (copy_step_fold (resolve host src) (resolve host dest) (files w)
              (fun st name =>
                 Tree.copy_tree (Tree.height (files w)) false
                   (resolve host src ++ "/" ++ name)
                   (resolve host dest ++ "/" ++ name) (Tree.next_argument st))
              (fun name p => p = resolve host src ++ "/" ++ name \/
                             Tree.below (resolve host src ++ "/" ++ name) p = true)
              (Tree.star_names (resolve host src) (files w))
              (fun name _ => copy_step_argument (resolve host src)
                               (resolve host dest) (files w) Hsep
                               (Tree.height (files w)) name)
              {| Tree.tree := files w; Tree.standing := Tree.going;
                 Tree.made := [] |}
              (fun q _ => eq_refl)) as [_ [_ [_ Hcover]]].
  rewrite <- Ec in Hcover.
  destruct (Tree.ok copied) eqn:Hflag; [| discriminate Hrun].
  injection Hrun as Hrun. subst w'. cbn [files].
  destruct (below_relative (resolve host src) rel) as [Hb Hr].
  destruct (Hcover eq_refl (resolve host src ++ "/" ++ rel)) as [_ [data' [H0 H1]]].
  - exists (Tree.top rel). split.
    + apply star_names_listed; [| exact Hv].
      apply lookup_listed. rewrite Hdata. discriminate.
    + apply entry_of_file.
  - exact Hb.
  - rewrite Hdata. discriminate.
  - rewrite Hr in H1. rewrite Hdata in H0. injection H0 as H0. subst data'.
    exact H1.
Qed.

Lemma shell_rm_rf_run (path : string) (w : World) :
  shell_rm_rf host path w =
  (inr tt, {| files := Tree.remove_recursive (resolve host path) (files w);
              events := events w |}).
Proof. reflexivity. Qed.

End Steps.

Section PlainDirectories.

Local Open Scope string_scope.

Lemma all_chars_weaken (P Q : ascii -> bool) (s : string) :
  (forall c, P c = true -> Q c = true) ->
  all_chars P s = true -> all_chars Q s = true.
Proof.
  intro HPQ. induction s as [| c s IH]; [reflexivity |].
  cbn [all_chars]. intro H. apply andb_true_iff in H. destruct H as [Hc H].
  rewrite (HPQ c Hc), (IH H). reflexivity.
Qed.

Lemma plain_char_not (special c : ascii) :
  plain_char special = false -> plain_char c = true ->
  negb (Ascii.eqb c special) = true.
Proof.
  intros Hs Hc. destruct (Ascii.eqb c special) eqn:E; [| reflexivity].
  apply Ascii.eqb_eq in E. subst c. congruence.
Qed.

Lemma plain_directory_inv (d : string) :
  plain_directory d = true ->
  normal_absolute d = true /\ star_free d = true /\ one_word d = true.
Proof.
  unfold plain_directory. intro H. apply andb_true_iff in H.
  destruct H as [Hn Hp]. repeat split; [exact Hn | |].
  - apply (all_chars_weaken plain_char); [| exact Hp].
    intros c Hc. exact (plain_char_not "*"%char c eq_refl Hc).
  - apply (all_chars_weaken plain_char); [| exact Hp].
    intros c Hc. exact (plain_char_not " "%char c eq_refl Hc).
Qed.

(** The temporary directory of a plain output directory. *)
Lemma temporary_directory_plain (outDir : string) :
  plain_directory outDir = true -> plain_directory (outDir ++ "/cjs") = true.
Proof.
  unfold plain_directory. intro H. apply andb_true_iff in H.
  destruct H as [Hn Hp].
  change (outDir ++ "/cjs") with (outDir ++ "/" ++ "cjs").
  rewrite (normal_absolute_append outDir "cjs" Hn eq_refl).
  rewrite all_chars_append, Hp. reflexivity.
Qed.

Lemma path_join_cjs (outDir : string) :
  normal_absolute outDir = true ->
  NodePath.join [outDir; "cjs"] = outDir ++ "/cjs".
Proof.
  intro H. destruct (path_join_normal ["cjs"] eq_refl outDir H) as [E _].
  rewrite E. destruct outDir; reflexivity.
Qed.

Lemma path_join_cjs_star (outDir : string) :
  normal_absolute outDir = true ->
  NodePath.join [outDir; "cjs"; "*"] = (outDir ++ "/cjs") ++ "/*".
Proof.
  intro H. destruct (path_join_normal ["cjs"; "*"] eq_refl outDir H) as [E _].
  rewrite E, append_assoc. reflexivity.
Qed.

Lemma path_join_cjs_glob (outDir : string) (cwd : string) :
  normal_absolute outDir = true ->
  NodePath.resolve cwd (NodePath.join [outDir; "cjs"; "**"; "*.js"]) =
  (outDir ++ "/cjs") ++ "/**/*" ++ ".js".
Proof.
  intro H.
  destruct (path_join_normal ["cjs"; "**"; "*.js"] eq_refl outDir H) as [E N].
  rewrite E, (resolve_normal_absolute cwd _ N), append_assoc. reflexivity.
Qed.

Lemma path_join_output_glob (outDir : string) (cwd : string) :
  normal_absolute outDir = true ->
  NodePath.resolve cwd (NodePath.join [outDir; "**"; "*.cjs.js"]) =
  outDir ++ "/**/*" ++ ".cjs.js".
Proof.
  intro H.
  destruct (path_join_normal ["**"; "*.cjs.js"] eq_refl outDir H) as [E N].
  rewrite E, (resolve_normal_absolute cwd _ N). reflexivity.
Qed.

(** The words of the two command lines. *)
Lemma split_cp_command (src dest : string) :
  one_word src = true -> one_word dest = true ->
  split " " ("cp -r " ++ src ++ " " ++ dest) = ["cp"; "-r"; src; dest].
Proof.
  intros Hs Hd.
  change ("cp -r " ++ src ++ " " ++ dest)
    with ("cp" ++ String " " ("-r" ++ String " " (src ++ String " " dest))).
  rewrite !split_append_sep.
  rewrite (split_unbroken " "%char src Hs), (split_unbroken " "%char dest Hd).
  reflexivity.
Qed.

Lemma split_rm_command (path : string) :
  one_word path = true ->
  split " " ("rm -rf " ++ path) = ["rm"; "-rf"; path].
Proof.
  intro Hp.
  change ("rm -rf " ++ path) with ("rm" ++ String " " ("-rf" ++ String " " path)).
  rewrite !split_append_sep, (split_unbroken " "%char path Hp). reflexivity.
Qed.

End PlainDirectories.

Section Renaming.

Local Open Scope string_scope.

Lemma cjsName_js (stem : string) : cjsName (stem ++ ".js") = stem ++ ".cjs.js".
Proof. unfold cjsName. apply replace_at_end_append. Qed.

Lemma cjsName_injective (p q : string) :
  endsWith ".js" p = true -> endsWith ".js" q = true ->
  cjsName p = cjsName q -> p = q.
Proof.
  intros Hp Hq. destruct (endsWith_inv _ _ Hp) as [a Ea].
  destruct (endsWith_inv _ _ Hq) as [b Eb]. subst p q.
  rewrite !cjsName_js. intro E. apply append_cancel_r in E. subst b.
  reflexivity.
Qed.

Lemma visible_path_renamed (stem : string) :
  visible_path (stem ++ ".js") = true -> visible_path (stem ++ ".cjs.js") = true.
Proof.
  unfold visible_path.
  destruct (exists_last (split_nonempty "/"%char stem)) as [init [l E]].
  rewrite (split_append_unbroken "/"%char stem ".js" init l eq_refl E).
  rewrite (split_append_unbroken "/"%char stem ".cjs.js" init l eq_refl E).
  rewrite !forallb_snoc. intro H. apply andb_true_iff in H.
  destruct H as [Hi Hl]. rewrite Hi. destruct l as [| c l]; [discriminate Hl |].
  exact Hl.
Qed.

Lemma renamed_not_below_cjs (stem : string) :
  startsWith "cjs/" stem = false -> startsWith "cjs/" (stem ++ ".cjs.js") = false.
Proof.
  destruct stem as [| a [| b [| c [| d stem]]]]; cbn [append startsWith]; intro H;
    try exact H;
    repeat match goal with
           | |- context [Ascii.eqb ?x ?y] => destruct (Ascii.eqb x y)
           end;
    reflexivity.
Qed.

Lemma visible_path_top (rel : string) :
  visible_path rel = true -> Glob.visible (Tree.top rel) = true.
Proof.
  unfold visible_path, Tree.top.
  destruct (split "/" rel) as [| s segs] eqn:E.
  - exfalso. exact (split_nonempty "/"%char rel E).
  - cbn [forallb hd]. intro H. apply andb_true_iff in H. tauto.
Qed.

End Renaming.

Section PostProcess.

Local Open Scope string_scope.

Variable host : Host.

Lemma glob_sync_run (pattern : string) (w : World) :
  glob_sync host pattern w =
  (inr (nodup string_dec
          (filter (Glob.matches (resolve host pattern)) (map fst (files w)))),
   w).
Proof. reflexivity. Qed.

Lemma executeCmd_cp_run (src dest : string) (w : World) :
  one_word src = true -> one_word dest = true ->
  executeCmd host ("cp -r " ++ (src ++ "/*") ++ " " ++ dest) w =
  shell_cp_r_star host src dest
    {| files := files w;
       events := (events w ++
                  [EvExec ("cp -r " ++ (src ++ "/*") ++ " " ++ dest)])%list |}.
Proof.
  intros Hs Hd. unfold executeCmd. rewrite bind_run, emit_run.
  rewrite split_cp_command;
    [| unfold one_word, without in *; rewrite all_chars_append, Hs; reflexivity
     | exact Hd].
  rewrite endsWith_append, replace_at_end_append, append_nil_r. reflexivity.
Qed.

Lemma executeCmd_rm_run (path : string) (w : World) :
  one_word path = true ->
  executeCmd host ("rm -rf " ++ path) w =
  (inr tt,
   {| files := Tree.remove_recursive (resolve host path) (files w);
      events := (events w ++ [EvExec ("rm -rf " ++ path)])%list |}).
Proof.
  intro Hp. unfold executeCmd. rewrite bind_run, emit_run.
  rewrite (split_rm_command path Hp). reflexivity.
Qed.

Lemma writeFileSync_effect (path data : string) (w w' : World) (r : JSError + unit) :
  writeFileSync host path data w = (r, w') ->
  events w' = (events w ++ [EvWrite path data])%list /\
  (files w' = files w \/
   files w' = Tree.write (resolve host path) data (files w)).
Proof.
  unfold writeFileSync. rewrite bind_run, emit_run, bind_run.
  cbn [get_files files events].
  destruct (Tree.is_directory (resolve host path) (files w)).
  - intro H. injection H as _ H. subst w'. auto.
  - destruct (Tree.is_directory (NodePath.dirname (resolve host path)) (files w));
      intro H; injection H as _ H; subst w'; auto.
Qed.

(** A manifest goes to a file named [package.json]. *)
Lemma manifest_target (outDir cjsFilePath : string) :
  last_char (resolve host (manifestPath outDir cjsFilePath)) = Some "n"%char.
Proof.
  unfold resolve, manifestPath.
  rewrite (ends_in_segment_last_char "package.json"); [reflexivity | discriminate |].
  apply ends_in_segment_resolve; try reflexivity; [discriminate |].
  apply (ends_in_segment_path_join "package.json" [outDir; _]); reflexivity.
Qed.

(** Writing manifests leaves every file not named like one as it is. *)
Lemma manifests_keep (packageName outDir : string) (sources : list string) :
  forall (w w' : World) (r : JSError + unit),
    forEach sources (writeManifest host packageName outDir) w = (r, w') ->
    forall k, last_char k <> Some "n"%char ->
              Tree.lookup k (files w') = Tree.lookup k (files w).
Proof.
  induction sources as [| f rest IH]; intros w w' r Hrun k Hk.
  - injection Hrun as _ Hrun. subst w'. reflexivity.
  - rewrite forEach_cons, bind_run in Hrun.
    destruct (writeManifest host packageName outDir f w) as [[e | []] w1] eqn:E.
    + injection Hrun as _ Hrun. subst w'.
      destruct (writeFileSync_effect _ _ _ _ _ E) as [_ [Hf | Hf]]; rewrite Hf.
      * reflexivity.
      * rewrite lookup_write.
        replace (String.eqb k (resolve host (manifestPath outDir f))) with false;
          [reflexivity |].
        symmetry. apply String.eqb_neq. intro Ek. apply Hk. rewrite Ek.
        apply manifest_target.
    + rewrite (IH _ _ _ Hrun k Hk).
      destruct (writeFileSync_effect _ _ _ _ _ E) as [_ [Hf | Hf]]; rewrite Hf.
      * reflexivity.
      * rewrite lookup_write.
        replace (String.eqb k (resolve host (manifestPath outDir f))) with false;
          [reflexivity |].
        symmetry. apply String.eqb_neq. intro Ek. apply Hk. rewrite Ek.
        apply manifest_target.
Qed.

(** The manifests written by a complete pass, in order. *)
Lemma manifests_written (packageName outDir : string) (sources : list string) :
  forall (w w' : World),
    forEach sources (writeManifest host packageName outDir) w = (inr tt, w') ->
    written (events w') =
    (written (events w) ++
     map (fun f => (manifestPath outDir f,
                    JSON.stringify (pJsonTemplate packageName outDir f)))
         sources)%list.
Proof.
  induction sources as [| f rest IH]; intros w w' Hrun.
  - injection Hrun as Hrun. subst w'. rewrite app_nil_r. reflexivity.
  - rewrite forEach_cons in Hrun.
    destruct (bind_ok _ _ _ _ _ Hrun) as [[] [w1 [Hone Hrest]]].
    rewrite (IH _ _ Hrest).
    destruct (writeFileSync_effect _ _ _ _ _ Hone) as [Hev _].
    rewrite Hev, written_app. cbn [written map].
    rewrite <- app_assoc. reflexivity.
Qed.

End PostProcess.

Section Relocation.

Local Open Scope string_scope.

Variable host : Host.

(** The files found by the first glob, for a plain output directory. *)
Lemma compiled_files_spec (outDir : string) (t : FileTree) (p : string) :
  plain_directory outDir = true ->
  In p (nodup string_dec
          (filter (Glob.matches
                     (resolve host (NodePath.join [outDir; "cjs"; "**"; "*.js"])))
                  (map fst t))) <->
  In p (map fst t) /\
  exists rel, p = (outDir ++ "/cjs") ++ "/" ++ rel /\
              visible_path rel = true /\ endsWith ".js" rel = true.
Proof.
  intro Hplain.
  destruct (plain_directory_inv outDir Hplain) as [Hn _].
  destruct (plain_directory_inv _ (temporary_directory_plain outDir Hplain))
    as [_ [Hstar _]].
  unfold resolve. rewrite (path_join_cjs_glob outDir _ Hn).
  rewrite nodup_In, filter_In.
  rewrite (glob_matches_below (outDir ++ "/cjs") ".js" p Hstar eq_refl eq_refl);
    [reflexivity | discriminate].
Qed.

Lemma output_files_spec (outDir : string) (t : FileTree) (p : string) :
  plain_directory outDir = true ->
  In p (nodup string_dec
          (filter (Glob.matches
                     (resolve host (NodePath.join [outDir; "**"; "*.cjs.js"])))
                  (map fst t))) <->
  In p (map fst t) /\
  exists rel, p = outDir ++ "/" ++ rel /\
              visible_path rel = true /\ endsWith ".cjs.js" rel = true.
Proof.
  intro Hplain.
  destruct (plain_directory_inv outDir Hplain) as [Hn [Hstar _]].
  unfold resolve. rewrite (path_join_output_glob outDir _ Hn).
  rewrite nodup_In, filter_In.
  rewrite (glob_matches_below outDir ".cjs.js" p Hstar eq_refl eq_refl);
    [reflexivity | discriminate].
Qed.

(** What the first glob finds are normal absolute paths below the
    temporary directory, and so are their new names. *)
Lemma compiled_paths (outDir p rel : string) :
  plain_directory outDir = true ->
  p = (outDir ++ "/cjs") ++ "/" ++ rel ->
  visible_path rel = true -> endsWith ".js" rel = true ->
  resolve host p = p /\ resolve host (cjsName p) = cjsName p /\
  endsWith ".js" p = true /\
  Tree.below outDir p = true /\ Tree.below outDir (cjsName p) = true /\
  exists stem, rel = stem ++ ".js" /\
               cjsName p = (outDir ++ "/cjs") ++ "/" ++ stem ++ ".cjs.js".
Proof.
  intros Hplain Ep Hv He.
  pose proof (temporary_directory_plain outDir Hplain) as Hplain'.
  destruct (plain_directory_inv _ Hplain') as [Hn' _].
  destruct (endsWith_inv _ _ He) as [stem Es]. subst rel p.
  assert (Hname : cjsName ((outDir ++ "/cjs") ++ "/" ++ stem ++ ".js") =
                  (outDir ++ "/cjs") ++ "/" ++ stem ++ ".cjs.js").
  { rewrite <- !append_assoc, cjsName_js, !append_assoc. reflexivity. }
  assert (Hbelow : forall x, Tree.below outDir ((outDir ++ "/cjs") ++ "/" ++ x) = true).
  { intro x. unfold Tree.below. rewrite (append_assoc outDir).
    change ("/cjs" ++ "/" ++ x) with ("/" ++ "cjs/" ++ x).
    rewrite <- append_assoc. apply startsWith_append. }
  rewrite Hname. repeat split.
  - apply resolve_normal_absolute, below_visible_normal; assumption.
  - apply resolve_normal_absolute, below_visible_normal; [exact Hn' |].
    apply visible_path_renamed. exact Hv.
  - rewrite <- !append_assoc. apply endsWith_append.
  - apply Hbelow.
  - apply Hbelow.
  - exists stem. auto.
Qed.

(** The steps of a complete post-processing, for a plain output
    directory. *)
Lemma post_process_stages (packageName outDir : string) (w w' : World) :
  plain_directory outDir = true ->
  post_process host packageName outDir w = (inr tt, w') ->
  exists compiled w1 w2 sources,
    NoDup compiled /\
    (forall p, In p compiled <->
               In p (map fst (files w)) /\
               exists rel, p = (outDir ++ "/cjs") ++ "/" ++ rel /\
                           visible_path rel = true /\ endsWith ".js" rel = true) /\
    forEach compiled (fun p => moveSync host p (cjsName p)) w = (inr tt, w1) /\
    shell_cp_r_star host (outDir ++ "/cjs") outDir
      {| files := files w1;
         events := (events w1 ++
                    [EvExec ("cp -r " ++ ((outDir ++ "/cjs") ++ "/*") ++ " " ++
                             outDir)])%list |} = (inr tt, w2) /\
    NoDup sources /\
    (forall f, In f sources <->
               notPackageEntry f = true /\
               In f (map fst (Tree.remove_recursive (outDir ++ "/cjs") (files w2))) /\
               exists rel, f = outDir ++ "/" ++ rel /\
                           visible_path rel = true /\
                           endsWith ".cjs.js" rel = true) /\
    forEach sources (writeManifest host packageName outDir)
      {| files := Tree.remove_recursive (outDir ++ "/cjs") (files w2);
         events := (events w2 ++ [EvExec ("rm -rf " ++ (outDir ++ "/cjs"))])%list |} =
    (inr tt, w').
Proof.
  intros Hplain Hrun.
  destruct (plain_directory_inv outDir Hplain) as [Hn [Hstar Hword]].
  pose proof (temporary_directory_plain outDir Hplain) as Hplain'.
  destruct (plain_directory_inv _ Hplain') as [Hn' [Hstar' Hword']].
  set (tmp := outDir ++ "/cjs") in *.
  unfold post_process in Hrun.
  rewrite bind_run, glob_sync_run in Hrun.
  set (compiled := nodup string_dec _) in Hrun.
  destruct (bind_ok _ _ _ _ _ Hrun) as [[] [w1 [Hmoves Hrun1]]]. clear Hrun.
  rewrite (path_join_cjs_star outDir Hn) in Hrun1. fold tmp in Hrun1.
  rewrite bind_run, (executeCmd_cp_run host tmp outDir _ Hword' Hword) in Hrun1.
  match type of Hrun1 with
  | context [shell_cp_r_star host tmp outDir ?w0] =>
      destruct (shell_cp_r_star host tmp outDir w0) as [[e | []] w2] eqn:Hcp
  end; [discriminate Hrun1 |].
  rewrite (path_join_cjs outDir Hn) in Hrun1. fold tmp in Hrun1.
  rewrite bind_run, (executeCmd_rm_run host tmp _ Hword') in Hrun1.
  rewrite bind_run, glob_sync_run in Hrun1. cbn [files] in Hrun1.
  replace (resolve host tmp) with tmp in Hrun1
    by (symmetry; exact (resolve_normal_absolute _ tmp Hn')).
  match type of Hrun1 with
  | forEach ?listed _ _ = _ => set (sources := listed) in *
  end.
  exists compiled, w1, w2, sources.
  split; [apply NoDup_nodup |].
  split; [intro p; apply compiled_files_spec; exact Hplain |].
  split; [exact Hmoves |]. split; [exact Hcp |].
  split; [apply NoDup_filter, NoDup_nodup |].
  split; [| exact Hrun1].
  intro f. unfold sources. rewrite filter_In.
  rewrite (output_files_spec outDir _ f Hplain). tauto.
Qed.

(** The renaming of the compiled files, when every move succeeds: each
    is found under its new name, and every other path is as before. *)
Lemma compiled_moves (outDir : string) (compiled : list string) (w w1 : World) :
  plain_directory outDir = true ->
  NoDup compiled ->
  (forall p, In p compiled <->
             In p (map fst (files w)) /\
             exists rel, p = (outDir ++ "/cjs") ++ "/" ++ rel /\
                         visible_path rel = true /\ endsWith ".js" rel = true) ->
  forEach compiled (fun p => moveSync host p (cjsName p)) w = (inr tt, w1) ->
  (forall p, In p compiled ->
             Tree.lookup (cjsName p) (files w1) = Tree.lookup p (files w)) /\
  (forall k, ~ In k compiled -> ~ In k (map cjsName compiled) ->
             Tree.lookup k (files w1) = Tree.lookup k (files w)).
Proof.
  intros Hplain Hnd Hcompiled Hmoves.
  assert (Hpaths : forall p, In p compiled ->
            exists r0, p = (outDir ++ "/cjs") ++ "/" ++ r0 /\
                       visible_path r0 = true /\ endsWith ".js" r0 = true).
  { intros p Hp. apply Hcompiled in Hp. tauto. }
  apply (forEach_moves host cjsName compiled Hnd).
  - intros p Hp. destruct (Hpaths p Hp) as [r0 [Ep [Hv0 He0]]].
    destruct (compiled_paths outDir p r0 Hplain Ep Hv0 He0) as [R1 [R2 _]].
    auto.
  - intros p q Hp Hq. destruct (Hpaths p Hp) as [rp [Ep [Hvp Hep]]].
    destruct (Hpaths q Hq) as [rq [Eq [Hvq Heq]]].
    destruct (compiled_paths outDir p rp Hplain Ep Hvp Hep)
      as [_ [_ [Jp _]]].
    destruct (compiled_paths outDir q rq Hplain Eq Hvq Heq)
      as [_ [_ [Jq _]]].
    apply cjsName_injective; assumption.
  - intros p Hp. apply lookup_listed. apply Hcompiled in Hp. tauto.
  - exact Hmoves.
Qed.

Lemma below_nested_cjs (outDir rel : string) :
  Tree.below (outDir ++ "/cjs/cjs") ((outDir ++ "/cjs") ++ "/" ++ rel) =
  startsWith "cjs/" rel.
Proof.
  unfold Tree.below. rewrite !append_assoc. rewrite startsWith_cancel.
  reflexivity.
Qed.

(** When the temporary directory has no entry named [cjs] before the
    renaming, it has none after it. *)
Lemma moves_add_no_cjs_entry (outDir : string) (compiled : list string)
    (w w1 : World) :
  plain_directory outDir = true ->
  NoDup compiled ->
  (forall p, In p compiled <->
             In p (map fst (files w)) /\
             exists rel, p = (outDir ++ "/cjs") ++ "/" ++ rel /\
                         visible_path rel = true /\ endsWith ".js" rel = true) ->
  forEach compiled (fun p => moveSync host p (cjsName p)) w = (inr tt, w1) ->
  (forall q, Tree.below (outDir ++ "/cjs/cjs") q = true ->
             Tree.lookup q (files w) = None) ->
  forall q, Tree.below (outDir ++ "/cjs/cjs") q = true ->
            Tree.lookup q (files w1) = None.
Proof.
  intros Hplain Hnd Hcompiled Hmoves Hfree q Hq.
  destruct (compiled_moves outDir compiled w w1 Hplain Hnd Hcompiled Hmoves)
    as [_ Hkept].
  rewrite Hkept; [exact (Hfree q Hq) | |].
  - intro Hin. apply Hcompiled in Hin. destruct Hin as [Hin _].
    apply lookup_listed in Hin. apply Hin. exact (Hfree q Hq).
  - intro Hin. apply in_map_iff in Hin. destruct Hin as [p [E Hp]].
    pose proof (proj1 (Hcompiled p) Hp) as [Hkey [r0 [Ep [Hv0 He0]]]].
    destruct (compiled_paths outDir p r0 Hplain Ep Hv0 He0)
      as [_ [_ [_ [_ [_ [stem [Er En]]]]]]].
    rewrite En in E. subst q r0. rewrite below_nested_cjs in Hq.
    apply lookup_listed in Hkey. apply Hkey. apply Hfree.
    rewrite Ep, below_nested_cjs.
    destruct (startsWith "cjs/" stem) eqn:Es.
    + destruct (startsWith_inv _ _ Es) as [c Ec]. rewrite Ec, append_assoc.
      apply startsWith_append.
    + rewrite (renamed_not_below_cjs stem Es) in Hq. discriminate Hq.
Qed.

(** The copy and the removal, when the temporary directory has no entry
    named [cjs]: a file below a visible entry of the temporary directory is
    found at the same place below the output directory. *)
Lemma copy_stage (outDir : string) (w1 w2 : World) (rel data : string) :
  plain_directory outDir = true ->
  shell_cp_r_star host (outDir ++ "/cjs") outDir w1 = (inr tt, w2) ->
  (forall q, Tree.below (outDir ++ "/cjs/cjs") q = true ->
             Tree.lookup q (files w1) = None) ->
  Tree.lookup ((outDir ++ "/cjs") ++ "/" ++ rel) (files w1) = Some data ->
  Glob.visible (Tree.top rel) = true ->
  rel <> "cjs" ->
  Tree.lookup (outDir ++ "/" ++ rel)
              (Tree.remove_recursive (outDir ++ "/cjs") (files w2)) = Some data.
Proof.
  intros Hplain Hcp Hfree Hdata Hv Hrel.
  destruct (plain_directory_inv outDir Hplain) as [Hn _].
  destruct (plain_directory_inv _ (temporary_directory_plain outDir Hplain))
    as [Hn' _].
  pose proof (shell_cp_r_star_ok host _ _ _ _ Hcp) as Hcopied.
  unfold resolve in Hcopied.
  rewrite (resolve_normal_absolute _ (outDir ++ "/cjs") Hn'),
          (resolve_normal_absolute _ outDir Hn) in Hcopied.
  assert (Hinside : forall r, Tree.below (outDir ++ "/cjs") (outDir ++ "/" ++ r) =
                              startsWith "cjs/" r).
  { intro r. unfold Tree.below. rewrite !append_assoc, startsWith_cancel.
    reflexivity. }
  rewrite lookup_remove_recursive.
  replace (String.eqb (outDir ++ "/" ++ rel) (outDir ++ "/cjs") ||
           Tree.below (outDir ++ "/cjs") (outDir ++ "/" ++ rel)) with false.
  - apply Hcopied; [| exact Hdata | exact Hv].
    intros q Hkey Hq. rewrite Hinside.
    destruct (startsWith "cjs/" (Tree.relative (outDir ++ "/cjs") q)) eqn:Es;
      [| reflexivity].
    exfalso. apply Hkey. apply Hfree.
    rewrite (below_inv _ _ Hq), below_nested_cjs. exact Es.
  - symmetry. apply orb_false_iff. split.
    + apply String.eqb_neq. intro E.
      apply append_cancel_l in E. injection E as E. exact (Hrel E).
    + rewrite Hinside. destruct (startsWith "cjs/" rel) eqn:Es; [| reflexivity].
      rewrite Hfree in Hdata; [discriminate Hdata |].
      rewrite below_nested_cjs. exact Es.
Qed.

(** The tree after renaming, copying and removing: when the bundler left
    no entry named [cjs] in the temporary directory, every visible [.js]
    file below the temporary directory is found with the [.cjs.js] suffix
    at the same place below the output directory; and nothing is left
    below the temporary directory. *)
Lemma relocation (packageName outDir : string) (w w' : World) :
  plain_directory outDir = true ->
  post_process host packageName outDir w = (inr tt, w') ->
  exists relocated : FileTree,
    ((forall q, Tree.below (outDir ++ "/cjs/cjs") q = true ->
                Tree.lookup q (files w) = None) ->
     forall stem data,
       Tree.lookup (outDir ++ "/cjs/" ++ stem ++ ".js") (files w) = Some data ->
       visible_path (stem ++ ".js") = true ->
       Tree.lookup (outDir ++ "/" ++ stem ++ ".cjs.js") relocated = Some data) /\
    (forall q, Tree.below (outDir ++ "/cjs") q = true ->
               Tree.lookup q relocated = None) /\
    (forall k, last_char k <> Some "n"%char ->
               Tree.lookup k (files w') = Tree.lookup k relocated) /\
    exists sources,
      (forall f, In f sources <->
                 notPackageEntry f = true /\ In f (map fst relocated) /\
                 exists rel, f = outDir ++ "/" ++ rel /\
                             visible_path rel = true /\
                             endsWith ".cjs.js" rel = true) /\
      written (events w') =
      (written (events w) ++
       map (fun f => (manifestPath outDir f,
                      JSON.stringify (pJsonTemplate packageName outDir f)))
           sources)%list.
Proof.
  intros Hplain Hrun.
  destruct (post_process_stages packageName outDir w w' Hplain Hrun)
    as [compiled [w1 [w2 [sources
         [Hnd [Hcompiled [Hmoves [Hcp [_ [Hsources Hwrites]]]]]]]]]].
  exists (Tree.remove_recursive (outDir ++ "/cjs") (files w2)).
  split; [| split; [| split]].
  - intros Hfree stem data Hl Hv.
    destruct (compiled_moves outDir compiled w w1 Hplain Hnd Hcompiled Hmoves)
      as [Hmoved _].
    apply (copy_stage outDir _ w2 (stem ++ ".cjs.js") data Hplain Hcp).
    + cbn [files].
      exact (moves_add_no_cjs_entry outDir compiled w w1 Hplain Hnd Hcompiled
               Hmoves Hfree).
    + cbn [files].
      assert (Hp : In ((outDir ++ "/cjs") ++ "/" ++ stem ++ ".js") compiled).
      { apply Hcompiled. split.
        - apply lookup_listed. rewrite !append_assoc.
          cbn [append]. cbn [append] in Hl. rewrite Hl. discriminate.
        - exists (stem ++ ".js"). repeat split; [exact Hv | apply endsWith_append]. }
      specialize (Hmoved _ Hp).
      rewrite <- !append_assoc, cjsName_js, !append_assoc in Hmoved.
      rewrite !append_assoc. rewrite Hmoved. exact Hl.
    + apply visible_path_top, visible_path_renamed. exact Hv.
    + intro E. apply (f_equal String.length) in E.
      rewrite length_append in E. cbn [String.length] in E. lia.
  - intros q Hq. rewrite lookup_remove_recursive, Hq.
    rewrite orb_true_r. reflexivity.
  - intros k Hk.
    rewrite (manifests_keep host packageName outDir _ _ _ _ Hwrites k Hk).
    reflexivity.
  - exists sources. split; [exact Hsources |].
    rewrite (manifests_written host packageName outDir _ _ _ Hwrites).
    cbn [events]. rewrite written_app.
    rewrite (shell_cp_r_star_events host _ _ _ _ _ Hcp). cbn [events].
    rewrite written_app. cbn [written]. rewrite !app_nil_r.
    rewrite (moves_write_nothing host cjsName compiled _ _ _ Hmoves).
    reflexivity.
Qed.

End Relocation.

(* ================================================================== *)
(** * The plugin loader *)
(* ================================================================== *)

Ltac unfold_loader :=
  cbv beta iota zeta delta
    [readUserPlugins try_catch bind stat import emit lift_result console_warn
     ret falsy files events].

Section Loader.

Variable host : Host.


Lemma loader_stat_fails (e : JSError) (w : World) :
  fs_stat host (pluginFilePath host) = inl e ->
  readUserPlugins host w =
  (inr defaultOut,
   {| files := files w;
      events := events w ++
                [EvStat (pluginFilePath host); EvWarn (read_error_warning host)] |}).
Proof.
  intro H. unfold_loader. rewrite H. unfold_loader.
  rewrite <- app_assoc. reflexivity.
Qed.

Lemma loader_not_a_file (stats : Stats) (w : World) :
  fs_stat host (pluginFilePath host) = inr stats -> isFile stats = false ->
  readUserPlugins host w =
  (inr defaultOut,
   {| files := files w; events := events w ++ [EvStat (pluginFilePath host)] |}).
Proof.
  intros H Hf. unfold_loader. rewrite H, Hf. reflexivity.
Qed.

Lemma loader_import_fails (stats : Stats) (e : JSError) (w : World) :
  fs_stat host (pluginFilePath host) = inr stats -> isFile stats = true ->
  dynamic_import host (pluginFilePath host) = inl e ->
  readUserPlugins host w =
  (inr defaultOut,
   {| files := files w;
      events := events w ++
                [EvStat (pluginFilePath host); EvImport (pluginFilePath host);
                 EvWarn (read_error_warning host)] |}).
Proof.
  intros H Hf Hi. unfold_loader. rewrite H, Hf. unfold_loader.
  rewrite Hi. unfold_loader. rewrite <- !app_assoc. reflexivity.
Qed.

Lemma loader_invalid_export (stats : Stats) (m : JSModule) (w : World) :
  fs_stat host (pluginFilePath host) = inr stats -> isFile stats = true ->
  dynamic_import host (pluginFilePath host) = inr m ->
  (default_export m = None \/
   exists exported, default_export m = Some exported /\
                    cjs exported = None /\ esm exported = None) ->
  readUserPlugins host w =
  (inr defaultOut,
   {| files := files w;
      events := events w ++
                [EvStat (pluginFilePath host); EvImport (pluginFilePath host);
                 EvWarn (invalid_format_warning host)] |}).
Proof.
  intros H Hf Hi Hd. unfold_loader. rewrite H, Hf. unfold_loader.
  rewrite Hi. unfold_loader.
  destruct Hd as [Hd | [exported [Hd [Hc He]]]]; rewrite Hd.
  - rewrite <- !app_assoc. reflexivity.
  - rewrite Hc, He. cbv beta iota delta [andb].
    rewrite <- !app_assoc. reflexivity.
Qed.

Lemma loader_valid_export (stats : Stats) (m : JSModule) (exported : UserPlugins)
    (w : World) :
  fs_stat host (pluginFilePath host) = inr stats -> isFile stats = true ->
  dynamic_import host (pluginFilePath host) = inr m ->
  default_export m = Some exported ->
  cjs exported <> None \/ esm exported <> None ->
  readUserPlugins host w =
  (inr exported,
   {| files := files w;
      events := events w ++
                [EvStat (pluginFilePath host); EvImport (pluginFilePath host)] |}).
Proof.
  intros H Hf Hi Hd Hfield. unfold_loader. rewrite H, Hf.
  unfold_loader. rewrite Hi. unfold_loader. rewrite Hd.
  assert (Hb : match cjs exported with Some _ => false | None => true end &&
               match esm exported with Some _ => false | None => true end = false).
  { destruct (cjs exported), (esm exported); try reflexivity.
    destruct Hfield as [F | F]; exfalso; apply F; reflexivity. }
  rewrite Hb. rewrite <- !app_assoc. reflexivity.
Qed.

(** The loader always returns, leaves the tree alone and calls no
    bundler. *)
Lemma loader_total (w : World) :
  exists out evs,
    readUserPlugins host w =
    (inr out, {| files := files w; events := events w ++ evs |}) /\
    build_calls evs = [] /\ written evs = [].
Proof.
  assert (Hdone : forall out evs,
            readUserPlugins host w =
            (inr out, {| files := files w; events := events w ++ evs |}) ->
            build_calls evs = [] -> written evs = [] ->
            exists out evs,
              readUserPlugins host w =
              (inr out, {| files := files w; events := events w ++ evs |}) /\
              build_calls evs = [] /\ written evs = []) by eauto.
  destruct (fs_stat host (pluginFilePath host)) as [e | stats] eqn:Hs.
  { exact (Hdone _ _ (loader_stat_fails e w Hs) eq_refl eq_refl). }
  destruct (isFile stats) eqn:Hf.
  2:{ exact (Hdone _ _ (loader_not_a_file stats w Hs Hf) eq_refl eq_refl). }
  destruct (dynamic_import host (pluginFilePath host)) as [e | m] eqn:Hi.
  { exact (Hdone _ _ (loader_import_fails stats e w Hs Hf Hi) eq_refl eq_refl). }
  destruct (default_export m) as [exported |] eqn:Hd.
  2:{ exact (Hdone _ _ (loader_invalid_export stats m w Hs Hf Hi (or_introl Hd))
                   eq_refl eq_refl). }
  destruct (cjs exported) as [c |] eqn:Hc.
  { refine (Hdone _ _ (loader_valid_export stats m exported w Hs Hf Hi Hd _)
                  eq_refl eq_refl).
    left. rewrite Hc. discriminate. }
  destruct (esm exported) as [c |] eqn:He.
  { refine (Hdone _ _ (loader_valid_export stats m exported w Hs Hf Hi Hd _)
                  eq_refl eq_refl).
    right. rewrite He. discriminate. }
  refine (Hdone _ _ (loader_invalid_export stats m w Hs Hf Hi _) eq_refl eq_refl).
  right. exists exported. auto.
Qed.

End Loader.

(** C7.  When [fs.stat] finds no file at the conventional path, the loader
    returns [{ cjs: [], esm: [] }] and throws nothing: the failed [stat] is
    caught, reported with [console.warn], and the tree is left alone. *)
Theorem readUserPlugins_without_plugin_file (host : Host) (e : JSError) (w : World) :
  fs_stat host (pluginFilePath host) = inl e ->
  readUserPlugins host w =
  (inr {| cjs := Some []; esm := Some [] |},
   {| files := files w;
      events := events w ++
                [EvStat (pluginFilePath host); EvWarn (read_error_warning host)] |}).
Proof. intro H. exact (loader_stat_fails host e w H). Qed.

Lemma readUserPlugins_without_plugin_file_witness :
  fs_stat Sample.bare (pluginFilePath Sample.bare) = inl Sample.enoent /\
  readUserPlugins Sample.bare Sample.world =
  (inr {| cjs := Some []; esm := Some [] |},
   {| files := files Sample.world;
      events := [EvStat "/proj/package-bundler.plugins.js";
                 EvWarn (read_error_warning Sample.bare)] |}).
Proof.
  split; [reflexivity |].
  apply (readUserPlugins_without_plugin_file Sample.bare Sample.enoent Sample.world).
  reflexivity.
Defined.

(** C10.  When the conventional path exists but is not a regular file, the
    loader returns [{ cjs: [], esm: [] }]; its only effect is the [stat]
    call: no [import] is attempted and no warning is printed. *)
Theorem readUserPlugins_path_not_a_file (host : Host) (stats : Stats) (w : World) :
  fs_stat host (pluginFilePath host) = inr stats ->
  isFile stats = false ->
  readUserPlugins host w =
  (inr {| cjs := Some []; esm := Some [] |},
   {| files := files w; events := events w ++ [EvStat (pluginFilePath host)] |}).
Proof. intros H Hf. exact (loader_not_a_file host stats w H Hf). Qed.

Lemma readUserPlugins_path_not_a_file_witness :
  readUserPlugins Sample.plugin_directory Sample.world =
  (inr {| cjs := Some []; esm := Some [] |},
   {| files := files Sample.world;
      events := [EvStat "/proj/package-bundler.plugins.js"] |}).
Proof.
  apply (readUserPlugins_path_not_a_file Sample.plugin_directory
           {| isFile := false |} Sample.world); reflexivity.
Defined.

(** C6.  The loader never throws.  When the plugin file cannot be examined
    or loaded, has no default export, or exports an object with neither a
    [cjs] nor an [esm] field, the loader prints one warning as its last
    effect and returns [{ cjs: [], esm: [] }]. *)
Theorem readUserPlugins_never_fatal (host : Host) (w : World) :
  (exists out w', readUserPlugins host w = (inr out, w')) /\
  (PluginFileProblem host ->
   exists before message,
     (message = read_error_warning host \/ message = invalid_format_warning host) /\
     readUserPlugins host w =
     (inr {| cjs := Some []; esm := Some [] |},
      {| files := files w;
         events := events w ++ before ++ [EvWarn message] |})).
Proof.
  split.
  - destruct (loader_total host w) as [out [evs [H _]]]. eauto.
  - intros [e Hs | stats e Hs Hf Hi | stats m Hs Hf Hi Hd
            | stats m exported Hs Hf Hi Hd Hc He].
    + exists [EvStat (pluginFilePath host)], (read_error_warning host).
      split; [left; reflexivity | exact (loader_stat_fails host e w Hs)].
    + exists [EvStat (pluginFilePath host); EvImport (pluginFilePath host)],
        (read_error_warning host).
      split; [left; reflexivity | exact (loader_import_fails host stats e w Hs Hf Hi)].
    + exists [EvStat (pluginFilePath host); EvImport (pluginFilePath host)],
        (invalid_format_warning host).
      split; [right; reflexivity |].
      apply (loader_invalid_export host stats m w Hs Hf Hi). left. exact Hd.
    + exists [EvStat (pluginFilePath host); EvImport (pluginFilePath host)],
        (invalid_format_warning host).
      split; [right; reflexivity |].
      apply (loader_invalid_export host stats m w Hs Hf Hi). right. eauto.
Qed.

Lemma readUserPlugins_never_fatal_witness :
  PluginFileProblem Sample.empty_export /\
  exists before message,
    (message = read_error_warning Sample.empty_export \/
     message = invalid_format_warning Sample.empty_export) /\
    readUserPlugins Sample.empty_export Sample.world =
    (inr {| cjs := Some []; esm := Some [] |},
     {| files := files Sample.world;
        events := events Sample.world ++ before ++ [EvWarn message] |}).
Proof.
  assert (P : PluginFileProblem Sample.empty_export).
  { apply (export_without_fields Sample.empty_export
             {| isFile := true |}
             {| default_export := Some {| cjs := None; esm := None |} |}
             {| cjs := None; esm := None |}); reflexivity. }
  split; [exact P |].
  exact (proj2 (readUserPlugins_never_fatal Sample.empty_export Sample.world) P).
Defined.

(* ================================================================== *)
(** * The bundler calls *)
(* ================================================================== *)

Section BundlerCalls.

Variable host : Host.

Lemma build_run (o : BuildOptions) (w : World) :
  build host o w =
  (fst (esbuild_build host o (files w)),
   {| files := snd (esbuild_build host o (files w));
      events := events w ++ [EvBuild o] |}).
Proof.
  unfold build, bind, emit. simpl.
  destruct (esbuild_build host o (files w)). reflexivity.
Qed.

End BundlerCalls.

Lemma buildCJS_unfold (host : Host) (packageName : string)
    (cjsFilesToCompile : list string) (outDir : string) (sourcemap : bool)
    (packageJsonFiles target : list string) :
  buildCJS host packageName cjsFilesToCompile outDir sourcemap packageJsonFiles target =
  (userPlugins <- readUserPlugins host ;;
   build host (cjsBuildOptions userPlugins cjsFilesToCompile outDir sourcemap
                               packageJsonFiles target) ;;
   post_process host packageName outDir).
Proof. reflexivity. Qed.

Lemma no_build_post_process (host : Host) (packageName outDir : string) :
  no_build (post_process host packageName outDir).
Proof.
  unfold post_process.
  repeat first
    [ apply no_build_glob_sync
    | apply no_build_executeCmd
    | apply no_build_moveSync
    | apply no_build_writeFileSync
    | apply no_build_forEach; intro
    | apply no_build_bind; [| intro] ].
Qed.

(** The one bundler call of [buildCJS], whatever happens afterwards. *)
Lemma buildCJS_build_calls (host : Host) (packageName : string)
    (cjsFilesToCompile : list string) (outDir : string) (sourcemap : bool)
    (packageJsonFiles target : list string) (w : World) :
  exists userPlugins w1,
    readUserPlugins host w = (inr userPlugins, w1) /\
    build_calls
      (events (snd (buildCJS host packageName cjsFilesToCompile outDir sourcemap
                             packageJsonFiles target w))) =
    (build_calls (events w) ++
     [cjsBuildOptions userPlugins cjsFilesToCompile outDir sourcemap
                      packageJsonFiles target])%list.
Proof.
  destruct (loader_total host w) as [up [evs [Hl [Hevs _]]]].
  exists up, {| files := files w; events := (events w ++ evs)%list |}.
  split; [exact Hl |].
  rewrite buildCJS_unfold, bind_run, Hl, bind_run, build_run.
  set (o := cjsBuildOptions up cjsFilesToCompile outDir sourcemap
                            packageJsonFiles target).
  assert (Hb : build_calls ((events w ++ evs) ++ [EvBuild o]) =
               (build_calls (events w) ++ [o])%list).
  { rewrite !build_calls_app, Hevs, app_nil_r. reflexivity. }
  simpl files; simpl events.
  destruct (esbuild_build host o (files w)) as [[e | []] t]; simpl fst; simpl snd.
  - simpl. exact Hb.
  - destruct (post_process host packageName outDir
                {| files := t; events := (events w ++ evs) ++ [EvBuild o] |})
      as [r w'] eqn:E.
    simpl. rewrite (no_build_post_process host packageName outDir _ _ _ E).
    exact Hb.
Qed.

(** C8.  [buildCJS] calls the bundler once, with bundling on, the CJS
    format, the [cjs] subdirectory of the output directory as output
    directory, and a plugin list that starts with the externals plugin made
    from the given manifest paths and goes on with the user's CJS plugins in
    their order (none when the [cjs] field is absent). *)
Theorem buildCJS_bundler_call (host : Host) (packageName : string)
    (cjsFilesToCompile : list string) (outDir : string) (sourcemap : bool)
    (packageJsonFiles target : list string) (w : World) :
  exists userPlugins w1,
    readUserPlugins host w = (inr userPlugins, w1) /\
    build_calls
      (events (snd (buildCJS host packageName cjsFilesToCompile outDir sourcemap
                             packageJsonFiles target w))) =
    (build_calls (events w) ++
     [{| sourcemap := sourcemap;
         target := target;
         bundle := true;
         entryPoints := cjsFilesToCompile;
         format := format_cjs;
         outdir := NodePath.join [outDir; "cjs"];
         plugins :=
           Some (nodeExternalsPlugin {| packagePath := packageJsonFiles |}
                 :: match cjs userPlugins with
                    | Some user => user
                    | None => []
                    end) |}])%list.
Proof.
  exact (buildCJS_build_calls host packageName cjsFilesToCompile outDir sourcemap
           packageJsonFiles target w).
Qed.

(** C9.  [buildESM] adds to the loader's effects, which include no bundler
    call, exactly one bundler call, with bundling off, the ESM format, the
    given source-map flag, targets, entry points and output directory and
    the loaded [esm] field; the call is its last effect, and its result and
    the tree it leaves are those of the whole function. *)
Theorem buildESM_single_call (host : Host) (srcFilesToCompile : list string)
    (outDir : string) (sourcemap : bool) (target : list string) (w : World) :
  exists userPlugins loaded,
    readUserPlugins host w =
    (inr userPlugins, {| files := files w; events := events w ++ loaded |}) /\
    build_calls loaded = [] /\
    let options :=
      {| sourcemap := sourcemap;
         target := target;
         bundle := false;
         entryPoints := srcFilesToCompile;
         format := format_esm;
         outdir := outDir;
         plugins := esm userPlugins |} in
    buildESM host srcFilesToCompile outDir sourcemap target w =
    (fst (esbuild_build host options (files w)),
     {| files := snd (esbuild_build host options (files w));
        events := events w ++ loaded ++ [EvBuild options] |}).
Proof.
  destruct (loader_total host w) as [up [evs [Hl [Hevs _]]]].
  exists up, evs. split; [exact Hl |]. split; [exact Hevs |].
  intro options. unfold buildESM. rewrite bind_run, Hl, build_run.
  simpl files; simpl events. rewrite <- app_assoc. reflexivity.
Qed.

(** C4.  When the bundler call of [buildCJS] fails, [buildCJS] ends with
    that same error; the bundler call is its last effect, so nothing is
    moved, no command is run and no manifest is written, and the tree is
    the one the bundler left. *)
Theorem buildCJS_bundler_failure (host : Host) (packageName : string)
    (cjsFilesToCompile : list string) (outDir : string) (sourcemap : bool)
    (packageJsonFiles target : list string) (w w1 : World)
    (userPlugins : UserPlugins) (e : JSError) (left_behind : FileTree) :
  readUserPlugins host w = (inr userPlugins, w1) ->
  esbuild_build host
    (cjsBuildOptions userPlugins cjsFilesToCompile outDir sourcemap
                     packageJsonFiles target)
    (files w1) = (inl e, left_behind) ->
  buildCJS host packageName cjsFilesToCompile outDir sourcemap packageJsonFiles
           target w =
  (inl e,
   {| files := left_behind;
      events := events w1 ++
                [EvBuild (cjsBuildOptions userPlugins cjsFilesToCompile outDir
                                          sourcemap packageJsonFiles target)] |}).
Proof.
  intros Hl Hb.
  rewrite buildCJS_unfold, bind_run, Hl, bind_run, build_run, Hb.
  reflexivity.
Qed.

Lemma buildCJS_bundler_failure_witness :
  buildCJS Sample.broken_build "mylib" ["src/index.ts"] "/proj/dist" true
           ["package.json"] ["es2019"] Sample.world =
  (inl (Error "Build failed with 1 error"),
   {| files := files Sample.world;
      events :=
        [EvStat "/proj/package-bundler.plugins.js";
         EvWarn (read_error_warning Sample.broken_build);
         EvBuild (cjsBuildOptions defaultOut ["src/index.ts"] "/proj/dist" true
                                  ["package.json"] ["es2019"])] |}).
Proof.
  apply (buildCJS_bundler_failure Sample.broken_build "mylib" ["src/index.ts"]
           "/proj/dist" true ["package.json"] ["es2019"] Sample.world
           {| files := files Sample.world;
              events := [EvStat "/proj/package-bundler.plugins.js";
                         EvWarn (read_error_warning Sample.broken_build)] |}
           defaultOut (Error "Build failed with 1 error") (files Sample.world));
    reflexivity.
Defined.

(** C3.  When the default export of the plugin file has at least one of the
    two fields, the loader returns the exported object itself.  [buildESM]
    gives the bundler the [esm] field as it is, so that the call carries
    the user's ESM plugins, and none when the field is absent; [buildCJS]
    gives it the externals plugin followed by the user's CJS plugins, and
    by none when the [cjs] field is absent. *)
Theorem partial_export_reaches_bundler (host : Host) (stats : Stats)
    (m : JSModule) (exported : UserPlugins) (packageName : string)
    (entries : list string) (outDir : string) (sourcemap : bool)
    (packageJsonFiles target : list string) (w : World) :
  fs_stat host (pluginFilePath host) = inr stats -> isFile stats = true ->
  dynamic_import host (pluginFilePath host) = inr m ->
  default_export m = Some exported ->
  cjs exported <> None \/ esm exported <> None ->
  readUserPlugins host w =
  (inr exported,
   {| files := files w;
      events := events w ++
                [EvStat (pluginFilePath host); EvImport (pluginFilePath host)] |}) /\
  (exists options,
      build_calls (events (snd (buildESM host entries outDir sourcemap target w))) =
      (build_calls (events w) ++ [options])%list /\
      plugins options = esm exported /\
      carried_plugins options =
      match esm exported with
      | Some user => user
      | None => []
      end) /\
  (exists options,
      build_calls
        (events (snd (buildCJS host packageName entries outDir sourcemap
                               packageJsonFiles target w))) =
      (build_calls (events w) ++ [options])%list /\
      carried_plugins options =
      nodeExternalsPlugin {| packagePath := packageJsonFiles |}
      :: match cjs exported with
         | Some user => user
         | None => []
         end).
Proof.
  intros Hs Hf Hi Hd Hfield.
  pose proof (loader_valid_export host stats m exported w Hs Hf Hi Hd Hfield) as Hl.
  split; [exact Hl |]. split.
  - eexists. split; [| split].
    + unfold buildESM. rewrite bind_run, Hl, build_run. simpl.
      rewrite !build_calls_app. simpl. rewrite app_nil_r. reflexivity.
    + reflexivity.
    + reflexivity.
  - destruct (buildCJS_build_calls host packageName entries outDir sourcemap
                packageJsonFiles target w) as [up [w1 [Hl' Hc]]].
    rewrite Hl in Hl'. inversion Hl'; subst up.
    eexists. split; [exact Hc | reflexivity].
Qed.

Lemma partial_export_reaches_bundler_witness :
  readUserPlugins Sample.cjs_only Sample.world =
  (inr {| cjs := Some [userPlugin "p1"]; esm := None |},
   {| files := files Sample.world;
      events := [EvStat "/proj/package-bundler.plugins.js";
                 EvImport "/proj/package-bundler.plugins.js"] |}) /\
  (exists options,
      build_calls
        (events (snd (buildESM Sample.cjs_only ["src/index.ts"] "/proj/dist" true
                               ["es2019"] Sample.world))) = [options] /\
      plugins options = None /\
      carried_plugins options = []) /\
  (exists options,
      build_calls
        (events (snd (buildCJS Sample.cjs_only "mylib" ["src/index.ts"]
                               "/proj/dist" true ["package.json"] ["es2019"]
                               Sample.world))) = [options] /\
      carried_plugins options =
      [nodeExternalsPlugin {| packagePath := ["package.json"] |};
       userPlugin "p1"]).
Proof.
  apply (partial_export_reaches_bundler Sample.cjs_only {| isFile := true |}
           {| default_export := Some {| cjs := Some [userPlugin "p1"]; esm := None |} |}
           {| cjs := Some [userPlugin "p1"]; esm := None |}
           "mylib" ["src/index.ts"] "/proj/dist" true ["package.json"] ["es2019"]
           Sample.world); try reflexivity.
  left. discriminate.
Defined.

(* ================================================================== *)
(** * The post-processing of [buildCJS] *)
(* ================================================================== *)

Section CompleteBuilds.

Local Open Scope string_scope.

(** A complete run of [buildCJS]: the loader, a successful bundler call,
    and a complete post-processing. *)
Lemma buildCJS_complete (host : Host) (packageName : string)
    (cjsFilesToCompile : list string) (outDir : string) (sourcemap : bool)
    (packageJsonFiles target : list string) (w w' : World) :
  buildCJS host packageName cjsFilesToCompile outDir sourcemap packageJsonFiles
           target w = (inr tt, w') ->
  exists userPlugins loaded built,
    let options := cjsBuildOptions userPlugins cjsFilesToCompile outDir sourcemap
                                   packageJsonFiles target in
    readUserPlugins host w =
    (inr userPlugins,
     {| files := files w; events := (events w ++ loaded)%list |}) /\
    written loaded = [] /\
    esbuild_build host options (files w) = (inr tt, built) /\
    post_process host packageName outDir
      {| files := built;
         events := ((events w ++ loaded) ++ [EvBuild options])%list |} =
    (inr tt, w').
Proof.
  intro Hrun. rewrite buildCJS_unfold in Hrun.
  destruct (loader_total host w) as [up [loaded [Hl [_ Hw]]]].
  rewrite bind_run, Hl, bind_run, build_run in Hrun. cbn [files events] in Hrun.
  exists up, loaded.
  destruct (esbuild_build host _ (files w)) as [[e | []] built] eqn:Hb;
    cbn [fst snd] in Hrun; [discriminate Hrun |].
  exists built. cbv zeta. auto.
Qed.

(** C5, as the code has it.  Let the output directory be a normalized
    absolute path of plain characters and let [buildCJS] run to its end.
    When the bundler left no entry named [cjs] in the temporary [cjs]
    directory, every [.js] file it left below the temporary directory on a
    path without hidden segments is then found with the [.cjs.js] suffix
    at the same relative position below the output directory.  In every
    case no [.js] file is left below the temporary directory. *)
Theorem buildCJS_relocates_compiled_files (host : Host) (packageName : string)
    (cjsFilesToCompile : list string) (outDir : string) (sourcemap : bool)
    (packageJsonFiles target : list string) (w w' : World) :
  plain_directory outDir = true ->
  buildCJS host packageName cjsFilesToCompile outDir sourcemap packageJsonFiles
           target w = (inr tt, w') ->
  exists userPlugins w1 built,
    readUserPlugins host w = (inr userPlugins, w1) /\
    esbuild_build host
      (cjsBuildOptions userPlugins cjsFilesToCompile outDir sourcemap
                       packageJsonFiles target)
      (files w1) = (inr tt, built) /\
    ((forall q, Tree.below (outDir ++ "/cjs/cjs") q = true ->
                Tree.lookup q built = None) ->
     forall stem data,
       Tree.lookup (outDir ++ "/cjs/" ++ stem ++ ".js") built = Some data ->
       visible_path (stem ++ ".js") = true ->
       Tree.lookup (outDir ++ "/" ++ stem ++ ".cjs.js") (files w') = Some data) /\
    (forall q,
        Tree.below (outDir ++ "/cjs") q = true -> endsWith ".js" q = true ->
        Tree.lookup q (files w') = None).
Proof.
  intros Hplain Hrun.
  destruct (buildCJS_complete _ _ _ _ _ _ _ _ _ Hrun)
    as [up [loaded [built [Hl [_ [Hb Hpost]]]]]].
  destruct (relocation host packageName outDir _ _ Hplain Hpost)
    as [relocated [Hmoved [Hgone [Hkept _]]]].
  cbn [files] in Hmoved.
  exists up, {| files := files w; events := (events w ++ loaded)%list |}, built.
  split; [exact Hl |]. split; [exact Hb |]. split.
  - intros Hfree stem data Hfile Hv. rewrite Hkept.
    + exact (Hmoved Hfree stem data Hfile Hv).
    + rewrite <- !append_assoc, last_char_append by discriminate. discriminate.
  - intros q Hq He. rewrite Hkept.
    + exact (Hgone q Hq).
    + rewrite (last_char_endsWith ".js" q) by (discriminate || exact He).
      discriminate.
Qed.

(** C2, as the code has it.  Let the output directory be a normalized
    absolute path of plain characters and let [buildCJS] run to its end.
    The manifests it writes are those of a list of files, in order.  The
    files of that list are the [*.cjs.js] files of the final tree that lie
    below the output directory on a path without hidden segments and whose
    absolute path does not contain [dist/index.cjs.js].  So, when the path
    of the output directory ends in [dist], the top-level [index.cjs.js] is
    not in the list. *)
Theorem buildCJS_manifest_sources (host : Host) (packageName : string)
    (cjsFilesToCompile : list string) (outDir : string) (sourcemap : bool)
    (packageJsonFiles target : list string) (w w' : World) :
  plain_directory outDir = true ->
  buildCJS host packageName cjsFilesToCompile outDir sourcemap packageJsonFiles
           target w = (inr tt, w') ->
  exists sources,
    written (events w') =
    (written (events w) ++
     map (fun f => (manifestPath outDir f,
                    JSON.stringify (pJsonTemplate packageName outDir f)))
         sources)%list /\
    (forall f,
        In f sources <->
        includes "dist/index.cjs.js" f = false /\
        Tree.lookup f (files w') <> None /\
        exists rel, f = outDir ++ "/" ++ rel /\
                    visible_path rel = true /\ endsWith ".cjs.js" rel = true) /\
    (endsWith "dist" outDir = true -> ~ In (outDir ++ "/index.cjs.js") sources).
Proof.
  intros Hplain Hrun.
  destruct (buildCJS_complete _ _ _ _ _ _ _ _ _ Hrun)
    as [up [loaded [built [_ [Hw [_ Hpost]]]]]].
  destruct (relocation host packageName outDir _ _ Hplain Hpost)
    as [relocated [_ [_ [Hkept [sources [Hsrc Hwritten]]]]]].
  assert (Hsame : forall rel, endsWith ".cjs.js" rel = true ->
            Tree.lookup (outDir ++ "/" ++ rel) (files w') =
            Tree.lookup (outDir ++ "/" ++ rel) relocated).
  { intros rel He. apply Hkept. destruct (endsWith_inv _ _ He) as [a Ea].
    rewrite Ea, <- !append_assoc, last_char_append by discriminate.
    discriminate. }
  exists sources. split; [| split].
  - rewrite Hwritten. cbn [events]. rewrite !written_app, Hw.
    cbn [written]. rewrite !app_nil_r. reflexivity.
  - intro f. rewrite (Hsrc f). unfold notPackageEntry.
    rewrite negb_true_iff, <- lookup_listed. split.
    + intros [Hentry [Hfile [rel [Ef [Hv He]]]]]. subst f.
      rewrite (Hsame rel He). eauto 7.
    + intros [Hentry [Hfile [rel [Ef [Hv He]]]]]. subst f.
      rewrite (Hsame rel He) in Hfile. eauto 7.
  - intros Hdist Hin. apply Hsrc in Hin. destruct Hin as [Hentry _].
    destruct (endsWith_inv _ _ Hdist) as [a Ea].
    unfold notPackageEntry in Hentry. apply negb_true_iff in Hentry.
    rewrite Ea, append_assoc in Hentry.
    change ("dist" ++ "/index.cjs.js") with ("dist/index.cjs.js" ++ "") in Hentry.
    rewrite includes_append in Hentry. discriminate Hentry.
Qed.

End CompleteBuilds.

(* ================================================================== *)
(** * Sample runs *)
(* ================================================================== *)

Section SampleRuns.

Local Open Scope string_scope.

Lemma buildCJS_relocates_compiled_files_witness :
  plain_directory "/proj/dist" = true /\
  fst (Sample.run Sample.bare "/proj/dist") = inr tt /\
  (forall q, Tree.below ("/proj/dist" ++ "/cjs/cjs") q = true ->
             Tree.lookup q
               (snd (esbuild_build Sample.bare
                       (cjsBuildOptions defaultOut Sample.entries "/proj/dist"
                                        true ["package.json"] ["es2019"])
                       (files Sample.world))) = None) /\
  exists userPlugins w1 built,
    readUserPlugins Sample.bare Sample.world = (inr userPlugins, w1) /\
    esbuild_build Sample.bare
      (cjsBuildOptions userPlugins Sample.entries "/proj/dist" true ["package.json"]
                       ["es2019"])
      (files w1) = (inr tt, built) /\
    ((forall q, Tree.below ("/proj/dist" ++ "/cjs/cjs") q = true ->
                Tree.lookup q built = None) ->
     forall stem data,
       Tree.lookup ("/proj/dist" ++ "/cjs/" ++ stem ++ ".js") built = Some data ->
       visible_path (stem ++ ".js") = true ->
       Tree.lookup ("/proj/dist" ++ "/" ++ stem ++ ".cjs.js")
                   (files (snd (Sample.run Sample.bare "/proj/dist"))) = Some data) /\
    (forall q,
        Tree.below ("/proj/dist" ++ "/cjs") q = true -> endsWith ".js" q = true ->
        Tree.lookup q (files (snd (Sample.run Sample.bare "/proj/dist"))) = None).
Proof.
  split; [reflexivity |]. split; [vm_compute; reflexivity |]. split.
  { intros q Hq.
    match goal with |- ?l = None => destruct l eqn:E; [exfalso | reflexivity] end.
    assert (Hin : Tree.lookup q
                    (snd (esbuild_build Sample.bare
                            (cjsBuildOptions defaultOut Sample.entries "/proj/dist"
                                             true ["package.json"] ["es2019"])
                            (files Sample.world))) <> None)
      by (rewrite E; discriminate).
    apply lookup_listed in Hin. vm_compute in Hin.
    repeat (destruct Hin as [Hin | Hin]; [subst q; discriminate Hq |]).
    exact Hin. }
  apply (buildCJS_relocates_compiled_files Sample.bare "mylib" Sample.entries
           "/proj/dist" true ["package.json"] ["es2019"] Sample.world
           (snd (Sample.run Sample.bare "/proj/dist"))).
  - reflexivity.
  - vm_compute. reflexivity.
Defined.

Lemma buildCJS_manifest_sources_witness :
  exists sources,
    written (events (snd (Sample.run Sample.bare "/proj/dist"))) =
    (written (events Sample.world) ++
     map (fun f => (manifestPath "/proj/dist" f,
                    JSON.stringify (pJsonTemplate "mylib" "/proj/dist" f)))
         sources)%list /\
    (forall f,
        In f sources <->
        includes "dist/index.cjs.js" f = false /\
        Tree.lookup f (files (snd (Sample.run Sample.bare "/proj/dist"))) <> None /\
        exists rel, f = "/proj/dist" ++ "/" ++ rel /\
                    visible_path rel = true /\ endsWith ".cjs.js" rel = true) /\
    (endsWith "dist" "/proj/dist" = true ->
     ~ In ("/proj/dist" ++ "/index.cjs.js") sources).
Proof.
  apply (buildCJS_manifest_sources Sample.bare "mylib" Sample.entries
           "/proj/dist" true ["package.json"] ["es2019"] Sample.world
           (snd (Sample.run Sample.bare "/proj/dist"))).
  - reflexivity.
  - vm_compute. reflexivity.
Defined.

(** C1, as the claim has it, fails: with the output directory
    [/proj/dist] the manifest of [sub/feature.cjs.js] is written to
    [/proj/dist/sub/package.json], beside the compiled file, and nothing is
    written to [/proj/dist/.sub/package.json]. *)
Lemma manifest_is_written_beside_the_file :
  let w' := snd (Sample.run Sample.bare "/proj/dist") in
  let stub := {| main := "feature.cjs.js"; module := "feature.js";
                 name := "mylib/sub"; types := "index.d.ts" |} in
  fst (Sample.run Sample.bare "/proj/dist") = inr tt /\
  Tree.lookup "/proj/dist/sub/feature.cjs.js" (files w') =
    Some "exports.feature = 1;" /\
  written (events w') = [("/proj/dist/sub/package.json", JSON.stringify stub)] /\
  Tree.lookup "/proj/dist/sub/package.json" (files w') = Some (JSON.stringify stub) /\
  Tree.lookup "/proj/dist/.sub/package.json" (files w') = None /\
  manifestPath "/proj/dist" "/proj/dist/sub/feature.cjs.js" <>
    "/proj/dist/.sub/package.json".
Proof.
  cbv zeta.
  repeat match goal with |- _ /\ _ => split end;
    try (vm_compute; reflexivity).
  vm_compute. discriminate.
Qed.

(** C2, as the claim has it, fails.  With the output directory
    [/proj/build] the top-level [index.cjs.js] does get a manifest, written
    to [/proj/build/package.json].  With the output directory [/proj/dist],
    a file [legacy/dist/index.cjs.js] of the output tree and a [.cjs.js]
    file in a hidden directory get none: in both runs the only manifest
    written is that of [sub/feature.cjs.js]. *)
Lemma entry_file_outside_dist_gets_manifest :
  let w' := snd (Sample.run Sample.bare "/proj/build") in
  let stub := {| main := "index.cjs.js"; module := "index.js";
                 name := "mylib/"; types := "index.d.ts" |} in
  let feature := {| main := "feature.cjs.js"; module := "feature.js";
                    name := "mylib/sub"; types := "index.d.ts" |} in
  let awkward := snd (Sample.run Sample.awkward "/proj/dist") in
  let cached := snd (Sample.run_in Sample.world_with_cache Sample.bare "/proj/dist") in
  (fst (Sample.run Sample.bare "/proj/build") = inr tt /\
   Tree.lookup "/proj/build/index.cjs.js" (files w') = Some "exports.root = 1;" /\
   pJsonTemplate "mylib" "/proj/build" "/proj/build/index.cjs.js" = stub /\
   manifestPath "/proj/build" "/proj/build/index.cjs.js" = "/proj/build/package.json" /\
   In ("/proj/build/package.json", JSON.stringify stub) (written (events w'))) /\
  (fst (Sample.run Sample.awkward "/proj/dist") = inr tt /\
   Tree.lookup "/proj/dist/legacy/dist/index.cjs.js" (files awkward) =
     Some "exports.old = 1;" /\
   written (events awkward) =
     [("/proj/dist/sub/package.json", JSON.stringify feature)]) /\
  (fst (Sample.run_in Sample.world_with_cache Sample.bare "/proj/dist") = inr tt /\
   Tree.lookup "/proj/dist/.cache/old.cjs.js" (files cached) = Some "stale" /\
   written (events cached) =
     [("/proj/dist/sub/package.json", JSON.stringify feature)]).
Proof.
  cbv zeta.
  repeat match goal with |- _ /\ _ => split end;
    try (vm_compute; reflexivity).
  vm_compute. left. reflexivity.
Qed.

(** C5, as the claim has it, fails.  A [.js] file the bundler writes into
    a hidden directory below the temporary directory is neither renamed
    nor copied, and is gone with the temporary directory.  A directory
    named [cjs] that the bundler writes below the temporary directory is
    copied first, onto the temporary directory itself: its files are gone
    with the temporary directory, and where one of them has the relative
    position of another output, it is the one found in the output
    directory in the end. *)
Lemma hidden_output_is_lost :
  let options := cjsBuildOptions defaultOut Sample.entries "/proj/dist" true
                                 ["package.json"] ["es2019"] in
  let built := snd (esbuild_build Sample.awkward options (files Sample.world)) in
  let w' := snd (Sample.run Sample.awkward "/proj/dist") in
  let shadowing :=
    snd (esbuild_build Sample.shadowing options (files Sample.world)) in
  let shadowed := snd (Sample.run Sample.shadowing "/proj/dist") in
  (fst (Sample.run Sample.awkward "/proj/dist") = inr tt /\
   Tree.lookup "/proj/dist/cjs/.internal/tool.js" built = Some "exports.tool = 1;" /\
   Tree.lookup "/proj/dist/.internal/tool.cjs.js" (files w') = None /\
   Tree.lookup "/proj/dist/cjs/cjs/legacy.js" built = Some "exports.legacy = 1;" /\
   Tree.lookup "/proj/dist/cjs/legacy.cjs.js" (files w') = None /\
   Tree.lookup "/proj/dist/sub/feature.cjs.js" (files w') =
     Some "exports.feature = 1;") /\
  (fst (Sample.run Sample.shadowing "/proj/dist") = inr tt /\
   Tree.lookup "/proj/dist/cjs/cjs/index.js" shadowing =
     Some "exports.nested = 1;" /\
   Tree.lookup "/proj/dist/cjs/index.cjs.js" (files shadowed) = None /\
   Tree.lookup "/proj/dist/cjs/index.js" shadowing = Some "exports.root = 1;" /\
   visible_path "index.js" = true /\
   Tree.lookup "/proj/dist/index.cjs.js" (files shadowed) =
     Some "exports.nested = 1;" /\
   Tree.lookup "/proj/dist/cjs/sub/feature.js" shadowing =
     Some "exports.feature = 1;" /\
   Tree.lookup "/proj/dist/sub/feature.cjs.js" (files shadowed) =
     Some "exports.nested_feature = 1;").
Proof.
  cbv zeta.
  repeat match goal with |- _ /\ _ => split end; vm_compute; reflexivity.
Qed.

End SampleRuns.

(* ================================================================== *)
(** * More about the plugin loader *)
(* ================================================================== *)

Section LoaderOutcomes.

Variable host : Host.

(** The five ways [readUserPlugins] can go, with what it adds to the event
    log. *)
Lemma loader_cases (w : World) :
  exists out evs,
    readUserPlugins host w =
    (inr out, {| files := files w; events := events w ++ evs |}) /\
    ((evs = [EvStat (pluginFilePath host); EvWarn (read_error_warning host)] /\
      out = defaultOut /\
      exists e, fs_stat host (pluginFilePath host) = inl e) \/
     (evs = [EvStat (pluginFilePath host)] /\
      out = defaultOut /\
      exists stats, fs_stat host (pluginFilePath host) = inr stats /\
                    isFile stats = false) \/
     (evs = [EvStat (pluginFilePath host); EvImport (pluginFilePath host);
             EvWarn (read_error_warning host)] /\
      out = defaultOut /\
      exists stats e, fs_stat host (pluginFilePath host) = inr stats /\
                      isFile stats = true /\
                      dynamic_import host (pluginFilePath host) = inl e) \/
     (evs = [EvStat (pluginFilePath host); EvImport (pluginFilePath host);
             EvWarn (invalid_format_warning host)] /\
      out = defaultOut /\
      exists stats m, fs_stat host (pluginFilePath host) = inr stats /\
                      isFile stats = true /\
                      dynamic_import host (pluginFilePath host) = inr m /\
                      (default_export m = None \/
                       exists exported, default_export m = Some exported /\
                                        cjs exported = None /\
                                        esm exported = None)) \/
     (evs = [EvStat (pluginFilePath host); EvImport (pluginFilePath host)] /\
      (cjs out <> None \/ esm out <> None) /\
      exists stats m, fs_stat host (pluginFilePath host) = inr stats /\
                      isFile stats = true /\
                      dynamic_import host (pluginFilePath host) = inr m /\
                      default_export m = Some out)).
Proof.
  destruct (fs_stat host (pluginFilePath host)) as [e | stats] eqn:Hs.
  { eexists _, _. split; [exact (loader_stat_fails host e w Hs) |].
    left. eauto. }
  destruct (isFile stats) eqn:Hf.
  2:{ eexists _, _. split; [exact (loader_not_a_file host stats w Hs Hf) |].
      right; left. eauto. }
  destruct (dynamic_import host (pluginFilePath host)) as [e | m] eqn:Hi.
  { eexists _, _. split; [exact (loader_import_fails host stats e w Hs Hf Hi) |].
    right; right; left. eauto 7. }
  destruct (default_export m) as [exported |] eqn:Hd.
  2:{ eexists _, _.
      split; [exact (loader_invalid_export host stats m w Hs Hf Hi (or_introl Hd)) |].
      right; right; right; left. eauto 9. }
  destruct (cjs exported) as [c |] eqn:Hc.
  { assert (Hfield : cjs exported <> None \/ esm exported <> None)
      by (left; rewrite Hc; discriminate).
    eexists _, _.
    split; [exact (loader_valid_export host stats m exported w Hs Hf Hi Hd Hfield) |].
    right; right; right; right. eauto 9. }
  destruct (esm exported) as [c |] eqn:He.
  { assert (Hfield : cjs exported <> None \/ esm exported <> None)
      by (right; rewrite He; discriminate).
    eexists _, _.
    split; [exact (loader_valid_export host stats m exported w Hs Hf Hi Hd Hfield) |].
    right; right; right; right. eauto 9. }
  assert (Hnone : default_export m = None \/
                  exists exported, default_export m = Some exported /\
                                   cjs exported = None /\ esm exported = None)
    by (right; eauto).
  eexists _, _.
  split; [exact (loader_invalid_export host stats m w Hs Hf Hi Hnone) |].
  right; right; right; left. eauto 9.
Qed.

End LoaderOutcomes.


(** X2.  [readUserPlugins] prints a warning exactly when the plugin file is
    a problem: it cannot be examined or loaded, has no default export, or
    exports an object with neither field.  A path that is not a regular
    file and a usable plugin file are passed over in silence. *)
Theorem readUserPlugins_warns_iff_problem (host : Host) (w : World) :
  exists evs,
    events (snd (readUserPlugins host w)) = (events w ++ evs)%list /\
    ((exists message, In (EvWarn message) evs) <-> PluginFileProblem host).
Proof.
  destruct (loader_cases host w) as [out [evs [Hrun Hcase]]].
  exists evs. rewrite Hrun. split; [reflexivity |].
  destruct Hcase as [[He [_ [e Hs]]]
                    | [[He [_ [stats [Hs Hf]]]]
                    | [[He [_ [stats [e [Hs [Hf Hi]]]]]]
                    | [[He [_ [stats [m [Hs [Hf [Hi Hd]]]]]]]
                    | [He [Hfield [stats [m [Hs [Hf [Hi Hd]]]]]]]]]]];
    subst evs.
  - split; [intros _; exact (stat_fails host e Hs) |].
    intros _. eexists. right; left. reflexivity.
  - split.
    + intros [message [H | []]]. discriminate H.
    + intros [e H | s e H H0 _ | s m' H H0 _ _ | s m' x H H0 _ _ _ _];
        rewrite Hs in H; try discriminate H;
        injection H as H; subst s; rewrite Hf in H0; discriminate H0.
  - split; [intros _; exact (load_fails host stats e Hs Hf Hi) |].
    intros _. eexists. right; right; left. reflexivity.
  - split.
    + intros _. destruct Hd as [Hd | [exported [Hd [Hc Hm]]]].
      * exact (export_missing host stats m Hs Hf Hi Hd).
      * exact (export_without_fields host stats m exported Hs Hf Hi Hd Hc Hm).
    + intros _. eexists. right; right; left. reflexivity.
  - split.
    + intros [message [H | [H | []]]]; discriminate H.
    + intros [e H | s e _ _ H | s m' _ _ H H0 | s m' x _ _ H H0 H1 H2].
      * rewrite Hs in H. discriminate H.
      * rewrite Hi in H. discriminate H.
      * rewrite Hi in H. injection H as H. subst m'. rewrite Hd in H0.
        discriminate H0.
      * rewrite Hi in H. injection H as H. subst m'. rewrite Hd in H0.
        injection H0 as H0. subst x.
        exfalso. destruct Hfield as [F | F]; [exact (F H1) | exact (F H2)].
Qed.

(** X3.  [readUserPlugins] attempts the dynamic import exactly when
    [fs.stat] succeeds and reports a regular file, and then it imports the
    conventional path and nothing else. *)
Theorem readUserPlugins_imports_iff_regular_file (host : Host) (w : World) :
  exists evs,
    events (snd (readUserPlugins host w)) = (events w ++ evs)%list /\
    (In (EvImport (pluginFilePath host)) evs <->
     exists stats, fs_stat host (pluginFilePath host) = inr stats /\
                   isFile stats = true) /\
    (forall path, In (EvImport path) evs -> path = pluginFilePath host).
Proof.
  destruct (loader_cases host w) as [out [evs [Hrun Hcase]]].
  exists evs. rewrite Hrun. split; [reflexivity |].
  assert (Honly : forall path, In (EvImport path) evs -> path = pluginFilePath host).
  { intros path Hin.
    destruct Hcase as [[He _] | [[He _] | [[He _] | [[He _] | [He _]]]]];
      subst evs; simpl in Hin;
      repeat match goal with
             | H : _ \/ _ |- _ => destruct H as [H | H]
             | H : False |- _ => destruct H
             | H : EvImport _ = EvImport _ |- _ => injection H as H
             | H : _ = EvImport _ |- _ => try discriminate H
             end; congruence. }
  split; [| exact Honly].
  destruct Hcase as [[He [_ [e Hs]]]
                    | [[He [_ [stats [Hs Hf]]]]
                    | [[He [_ [stats [e [Hs [Hf Hi]]]]]]
                    | [[He [_ [stats [m [Hs [Hf [Hi Hd]]]]]]]
                    | [He [Hfield [stats [m [Hs [Hf [Hi Hd]]]]]]]]]]];
    subst evs.
  - split.
    + intros [H | [H | []]]; discriminate H.
    + intros [stats [H _]]. rewrite Hs in H. discriminate H.
  - split.
    + intros [H | []]. discriminate H.
    + intros [s [H H0]]. rewrite Hs in H. injection H as H. subst s.
      rewrite Hf in H0. discriminate H0.
  - split; [eauto | intros _; right; left; reflexivity].
  - split; [eauto | intros _; right; left; reflexivity].
  - split; [eauto | intros _; right; left; reflexivity].
Qed.

(* ================================================================== *)
(** * More about the manifest of one file *)
(* ================================================================== *)

Section ManifestFields.

Local Open Scope string_scope.

Lemma replace_self (pat rep : string) : replace pat rep pat = rep.
Proof.
  rewrite <- (append_nil_r pat) at 2. rewrite replace_prefix.
  apply append_nil_r.
Qed.

(** A string without separator that begins a path begins its first
    segment. *)
Lemma startsWith_before_separator (base s t : string) :
  without "/" base = true ->
  startsWith base (s ++ String "/" t) = true -> startsWith base s = true.
Proof.
  revert s. induction base as [| b base IH]; intros s Hb H; [reflexivity |].
  unfold without in Hb. cbn [all_chars] in Hb. apply andb_true_iff in Hb.
  destruct Hb as [Hb1 Hb2]. apply negb_true_iff in Hb1.
  destruct s as [| x s]; cbn [append startsWith] in *.
  - rewrite Hb1 in H. discriminate H.
  - apply andb_true_iff in H. destruct H as [Hx H]. rewrite Hx.
    exact (IH s Hb2 H).
Qed.

(** Removing the first occurrence of a file name from a path that ends in
    it, when the name does not occur in the directory part. *)
Lemma replace_last_segment (base a : string) :
  without "/" base = true -> base <> "" -> includes base a = false ->
  replace base "" (a ++ "/" ++ base) = a ++ "/".
Proof.
  intros Hb Hne. induction a as [| x a IH]; intro Hinc.
  - cbn [append replace].
    replace (startsWith base (String "/" base)) with false.
    + rewrite replace_self. reflexivity.
    + symmetry. destruct (startsWith base (String "/" base)) eqn:E; [| reflexivity].
      exfalso. apply (startsWith_before_separator base "" base Hb) in E.
      destruct base; [congruence | discriminate E].
  - cbn [includes] in Hinc. apply orb_false_iff in Hinc.
    destruct Hinc as [Hs Hinc]. cbn [append replace].
    replace (startsWith base (String x (a ++ String "/" base))) with false.
    + rewrite <- (IH Hinc). reflexivity.
    + symmetry.
      destruct (startsWith base (String x (a ++ String "/" base))) eqn:E;
        [| reflexivity].
      apply (startsWith_before_separator base (String x a) base Hb) in E.
      congruence.
Qed.

Lemma strip_trailing_separator_added (a : string) :
  strip_trailing_separator (a ++ "/") = a.
Proof.
  induction a as [| x a IH]; [reflexivity |].
  cbn [append strip_trailing_separator]. rewrite IH.
  destruct a; reflexivity.
Qed.

(** Taking [.cjs] out of a renamed file name gives the name back, when the
    name had no [.cjs] in it. *)
Lemma replace_cjs_infix (stem : string) :
  includes ".cjs" stem = false ->
  replace ".cjs" "" (stem ++ ".cjs.js") = stem ++ ".js".
Proof.
  induction stem as [| x stem IH]; intro H; [reflexivity |].
  cbn [includes] in H. apply orb_false_iff in H. destruct H as [Hs H].
  cbn [append replace].
  replace (startsWith ".cjs" (String x (stem ++ ".cjs.js"))) with false.
  - rewrite (IH H). reflexivity.
  - symmetry. clear IH H.
    destruct stem as [| a [| b [| c stem]]]; cbn [append startsWith] in *;
      try exact Hs;
      repeat match goal with
             | |- context [Ascii.eqb ?u ?v] => destruct (Ascii.eqb u v)
             end;
      reflexivity.
Qed.

Lemma includes_after_separator (base dir : string) :
  without "/" base = true -> base <> "" ->
  includes base ("/" ++ dir) = includes base dir.
Proof.
  intros Hb Hne. cbn [append includes].
  replace (startsWith base (String "/" dir)) with false; [reflexivity |].
  symmetry. destruct (startsWith base (String "/" dir)) eqn:E; [| reflexivity].
  exfalso. apply (startsWith_before_separator base "" dir Hb) in E.
  destruct base; [congruence | discriminate E].
Qed.

End ManifestFields.

Section ManifestsByPlace.

Local Open Scope string_scope.

(** X4.  Renaming [<stem>.js] gives [<stem>.cjs.js], and the manifest made
    for the renamed file, whatever the output directory and package name,
    has the new name as [main] and the old one as [module], provided the
    stem is one path segment without [.cjs] in it. *)
Theorem manifest_names_both_builds (packageName outDir dir stem : string) :
  one_segment stem = true ->
  includes ".cjs" stem = false ->
  let renamed := cjsName (dir ++ "/" ++ stem ++ ".js") in
  renamed = dir ++ "/" ++ stem ++ ".cjs.js" /\
  main (pJsonTemplate packageName outDir renamed) = stem ++ ".cjs.js" /\
  module (pJsonTemplate packageName outDir renamed) = stem ++ ".js" /\
  types (pJsonTemplate packageName outDir renamed) = "index.d.ts".
Proof.
  intros Hone Hcjs renamed.
  assert (Hren : renamed = dir ++ "/" ++ stem ++ ".cjs.js").
  { subst renamed. rewrite <- !append_assoc, cjsName_js, !append_assoc.
    reflexivity. }
  assert (Hbase : NodePath.basename renamed = stem ++ ".cjs.js").
  { rewrite Hren. apply basename_below.
    - unfold one_segment, without in *. rewrite all_chars_append, Hone.
      reflexivity.
    - destruct stem; reflexivity. }
  split; [exact Hren |]. unfold pJsonTemplate. cbn [main module types].
  rewrite Hbase. repeat split. apply replace_cjs_infix. exact Hcjs.
Qed.

Lemma manifest_names_both_builds_witness :
  cjsName ("/proj/dist/cjs/sub" ++ "/" ++ "feature" ++ ".js") =
    "/proj/dist/cjs/sub" ++ "/" ++ "feature" ++ ".cjs.js" /\
  main (pJsonTemplate "mylib" "/proj/dist"
          (cjsName ("/proj/dist/cjs/sub" ++ "/" ++ "feature" ++ ".js"))) =
    "feature" ++ ".cjs.js" /\
  module (pJsonTemplate "mylib" "/proj/dist"
            (cjsName ("/proj/dist/cjs/sub" ++ "/" ++ "feature" ++ ".js"))) =
    "feature" ++ ".js" /\
  types (pJsonTemplate "mylib" "/proj/dist"
           (cjsName ("/proj/dist/cjs/sub" ++ "/" ++ "feature" ++ ".js"))) =
    "index.d.ts".
Proof.
  apply (manifest_names_both_builds "mylib" "/proj/dist" "/proj/dist/cjs/sub"
           "feature"); reflexivity.
Defined.

(** X5.  For an output directory given as a normalized absolute path and a
    compiled file [<dir>/<base>] below it, where [dir] is a normalized
    relative path in which the file name [base] does not occur, the
    subpackage is named [<packageName>/<dir>] and its manifest is written
    to [<outDir>/<dir>/package.json], the directory of the file. *)
Theorem manifest_in_subdirectory (host : Host)
    (packageName outDir dir base : string) :
  normal_absolute outDir = true ->
  forallb normal_segment (split "/" dir) = true ->
  one_segment base = true -> base <> "" ->
  includes base dir = false ->
  let cjsFilePath := outDir ++ "/" ++ dir ++ "/" ++ base in
  packageJsonSubPackageName outDir cjsFilePath = "/" ++ dir /\
  main (pJsonTemplate packageName outDir cjsFilePath) = base /\
  name (pJsonTemplate packageName outDir cjsFilePath) = packageName ++ "/" ++ dir /\
  manifestPath outDir cjsFilePath = outDir ++ "/" ++ dir ++ "/package.json" /\
  writeManifest host packageName outDir cjsFilePath =
  writeFileSync host (outDir ++ "/" ++ dir ++ "/package.json")
    (JSON.stringify (pJsonTemplate packageName outDir cjsFilePath)).
Proof.
  intros Hout Hdir Hone Hne Hinc cjsFilePath.
  assert (Hbase : NodePath.basename cjsFilePath = base).
  { subst cjsFilePath. rewrite <- (append_assoc outDir), <- append_assoc.
    apply basename_below; [exact Hone | destruct base; [congruence | reflexivity]]. }
  assert (Hsub : packageJsonSubPackageName outDir cjsFilePath = "/" ++ dir).
  { unfold packageJsonSubPackageName. rewrite Hbase. subst cjsFilePath.
    rewrite replace_prefix. cbn [append].
    change (String "/" (dir ++ String "/" base)) with (("/" ++ dir) ++ "/" ++ base).
    rewrite replace_last_segment; [apply strip_trailing_separator_added
                                  | exact Hone | exact Hne |].
    rewrite includes_after_separator; assumption. }
  assert (Hpath : manifestPath outDir cjsFilePath =
                  outDir ++ "/" ++ dir ++ "/package.json").
  { unfold manifestPath, NodePath.join. rewrite Hsub. cbn [filter].
    rewrite (normal_absolute_nonempty outDir Hout). cbn [append is_empty negb].
    cbn [join].
    replace (is_empty (outDir ++ "/" ++ String "." (String "/" dir) ++ "/" ++
                       "package.json")) with false
      by (destruct outDir; reflexivity).
    destruct (exists_last (split_nonempty "/"%char dir)) as [init [l El]].
    assert (Hsplit : split "/" (String "." (String "/" dir) ++ "/" ++ "package.json") =
                     (("." :: split "/" dir) ++ ["package.json"])%list).
    { change (String "." (String "/" dir) ++ "/" ++ "package.json")
        with ("." ++ String "/" (dir ++ String "/" "package.json")).
      rewrite !split_append_sep. reflexivity. }
    rewrite (normalize_below outDir _ "package.json" ("." :: split "/" dir)
               Hout Hsplit); [| | reflexivity].
    - cbn [filter kept_segment is_empty String.eqb Ascii.eqb Bool.eqb orb negb].
      rewrite (filter_kept_normal _ Hdir).
      rewrite (join_app "/"%char);
        [| apply split_nonempty | discriminate].
      rewrite (join_split "/"%char dir). reflexivity.
    - cbn [forallb]. rewrite (forallb_no_parent_normal _ Hdir). reflexivity. }
  split; [exact Hsub |]. split; [unfold pJsonTemplate; cbn [main]; exact Hbase |].
  split; [unfold pJsonTemplate; cbn [name]; rewrite Hsub; reflexivity |].
  split; [exact Hpath |].
  unfold writeManifest. rewrite Hpath. reflexivity.
Qed.

End ManifestsByPlace.

Section ManifestsByPlaceMore.

Local Open Scope string_scope.

Lemma manifest_in_subdirectory_witness :
  packageJsonSubPackageName "/proj/dist"
    ("/proj/dist" ++ "/" ++ "widgets/button" ++ "/" ++ "index.cjs.js") =
    "/" ++ "widgets/button" /\
  main (pJsonTemplate "mylib" "/proj/dist"
          ("/proj/dist" ++ "/" ++ "widgets/button" ++ "/" ++ "index.cjs.js")) =
    "index.cjs.js" /\
  name (pJsonTemplate "mylib" "/proj/dist"
          ("/proj/dist" ++ "/" ++ "widgets/button" ++ "/" ++ "index.cjs.js")) =
    "mylib" ++ "/" ++ "widgets/button" /\
  manifestPath "/proj/dist"
    ("/proj/dist" ++ "/" ++ "widgets/button" ++ "/" ++ "index.cjs.js") =
    "/proj/dist" ++ "/" ++ "widgets/button" ++ "/package.json" /\
  writeManifest Sample.bare "mylib" "/proj/dist"
    ("/proj/dist" ++ "/" ++ "widgets/button" ++ "/" ++ "index.cjs.js") =
  writeFileSync Sample.bare
    ("/proj/dist" ++ "/" ++ "widgets/button" ++ "/package.json")
    (JSON.stringify
       (pJsonTemplate "mylib" "/proj/dist"
          ("/proj/dist" ++ "/" ++ "widgets/button" ++ "/" ++ "index.cjs.js"))).
Proof.
  apply (manifest_in_subdirectory Sample.bare "mylib" "/proj/dist"
           "widgets/button" "index.cjs.js"); try reflexivity.
  discriminate.
Defined.

(** X6.  For an output directory given as a normalized absolute path and a
    compiled file directly in it, the subpackage path is empty: the
    manifest is named [<packageName>/], with nothing after the separator,
    and is written to [<outDir>/package.json]. *)
Theorem manifest_of_top_level_file (host : Host)
    (packageName outDir base : string) :
  normal_absolute outDir = true ->
  one_segment base = true -> base <> "" ->
  let cjsFilePath := outDir ++ "/" ++ base in
  packageJsonSubPackageName outDir cjsFilePath = "" /\
  name (pJsonTemplate packageName outDir cjsFilePath) = packageName ++ "/" /\
  manifestPath outDir cjsFilePath = outDir ++ "/package.json" /\
  writeManifest host packageName outDir cjsFilePath =
  writeFileSync host (outDir ++ "/package.json")
    (JSON.stringify (pJsonTemplate packageName outDir cjsFilePath)).
Proof.
  intros Hout Hone Hne cjsFilePath.
  assert (Hbase : NodePath.basename cjsFilePath = base).
  { subst cjsFilePath.
    apply basename_below; [exact Hone | destruct base; [congruence | reflexivity]]. }
  assert (Hsub : packageJsonSubPackageName outDir cjsFilePath = "").
  { unfold packageJsonSubPackageName. rewrite Hbase. subst cjsFilePath.
    rewrite replace_prefix. cbn [append].
    change (String "/" base) with ("" ++ "/" ++ base).
    rewrite replace_last_segment; [reflexivity | exact Hone | exact Hne |].
    destruct base; [congruence | reflexivity]. }
  assert (Hpath : manifestPath outDir cjsFilePath = outDir ++ "/package.json").
  { unfold manifestPath, NodePath.join. rewrite Hsub. cbn [filter].
    rewrite (normal_absolute_nonempty outDir Hout).
    cbn [append is_empty negb join].
    replace (is_empty (outDir ++ "/./package.json")) with false
      by (destruct outDir; reflexivity).
    change (outDir ++ "/./package.json") with (outDir ++ "/" ++ "./package.json").
    rewrite (normalize_below outDir "./package.json" "package.json" ["."] Hout);
      reflexivity. }
  split; [exact Hsub |].
  split; [unfold pJsonTemplate; cbn [name]; rewrite Hsub; reflexivity |].
  split; [exact Hpath |].
  unfold writeManifest. rewrite Hpath. reflexivity.
Qed.

Lemma manifest_of_top_level_file_witness :
  packageJsonSubPackageName "/proj/dist" ("/proj/dist" ++ "/" ++ "utils.cjs.js") = "" /\
  name (pJsonTemplate "mylib" "/proj/dist" ("/proj/dist" ++ "/" ++ "utils.cjs.js")) =
    "mylib" ++ "/" /\
  manifestPath "/proj/dist" ("/proj/dist" ++ "/" ++ "utils.cjs.js") =
    "/proj/dist" ++ "/package.json" /\
  writeManifest Sample.bare "mylib" "/proj/dist"
    ("/proj/dist" ++ "/" ++ "utils.cjs.js") =
  writeFileSync Sample.bare ("/proj/dist" ++ "/package.json")
    (JSON.stringify
       (pJsonTemplate "mylib" "/proj/dist" ("/proj/dist" ++ "/" ++ "utils.cjs.js"))).
Proof.
  apply (manifest_of_top_level_file Sample.bare "mylib" "/proj/dist" "utils.cjs.js");
    try reflexivity.
  discriminate.
Defined.




End ManifestsByPlaceMore.

(* ================================================================== *)
(** * More about the post-processing *)
(* ================================================================== *)

Section ManifestTargets.

Local Open Scope string_scope.

Variable host : Host.

Lemma last_segment_ends_in (l p : string) :
  without "/" l = true -> ends_in_segment l p -> last_segment p = l.
Proof.
  intros Hl Hp. destruct (ends_in_segment_split l p Hl Hp) as [init E].
  unfold last_segment. rewrite E. apply last_last.
Qed.

Lemma last_segment_below (d rel : string) :
  last_segment (d ++ "/" ++ rel) = last_segment rel.
Proof.
  unfold last_segment. cbn [append]. rewrite split_append_sep.
  destruct (exists_last (split_nonempty "/"%char rel)) as [init [l E]].
  rewrite E, app_assoc, !last_last. reflexivity.
Qed.

Lemma manifest_target_name (outDir cjsFilePath : string) :
  ends_in_segment "package.json" (manifestPath outDir cjsFilePath) /\
  ends_in_segment "package.json" (resolve host (manifestPath outDir cjsFilePath)).
Proof.
  assert (H : ends_in_segment "package.json" (manifestPath outDir cjsFilePath)).
  { unfold manifestPath.
    apply (ends_in_segment_path_join "package.json" [outDir; _]); reflexivity. }
  split; [exact H |].
  unfold resolve. apply ends_in_segment_resolve; try reflexivity;
    [discriminate | exact H].
Qed.

Lemma manifests_keep_other_names (packageName outDir : string)
    (sources : list string) :
  forall (w w' : World) (r : JSError + unit),
    forEach sources (writeManifest host packageName outDir) w = (r, w') ->
    forall k, last_segment k <> "package.json" ->
              Tree.lookup k (files w') = Tree.lookup k (files w).
Proof.
  assert (Hone : forall f w w1 r k,
             writeManifest host packageName outDir f w = (r, w1) ->
             last_segment k <> "package.json" ->
             Tree.lookup k (files w1) = Tree.lookup k (files w)).
  { intros f w w1 r k E Hk.
    destruct (writeFileSync_effect _ _ _ _ _ _ E) as [_ [Hf | Hf]]; rewrite Hf;
      [reflexivity |].
    rewrite lookup_write.
    replace (String.eqb k (resolve host (manifestPath outDir f))) with false;
      [reflexivity |].
    symmetry. apply String.eqb_neq. intro Ek. apply Hk. rewrite Ek.
    apply last_segment_ends_in; [reflexivity |].
    apply manifest_target_name. }
  induction sources as [| f rest IH]; intros w w' r Hrun k Hk.
  - injection Hrun as _ Hrun. subst w'. reflexivity.
  - rewrite forEach_cons, bind_run in Hrun.
    destruct (writeManifest host packageName outDir f w) as [[e | []] w1] eqn:E.
    + injection Hrun as _ Hrun. subst w'. exact (Hone _ _ _ _ _ E Hk).
    + rewrite (IH _ _ _ Hrun k Hk). exact (Hone _ _ _ _ _ E Hk).
Qed.

End ManifestTargets.

(** X8.  Every manifest is written to a file named [package.json],
    whatever the output directory and the compiled file; so the pass that
    writes the manifests, complete or cut short by an error, leaves every
    file with another name as it is. *)
Theorem manifests_only_touch_package_json (host : Host)
    (packageName outDir : string) (sources : list string)
    (w w' : World) (r : JSError + unit) (k : string) :
  forEach sources (writeManifest host packageName outDir) w = (r, w') ->
  last_segment k <> "package.json"%string ->
  (forall f, last_segment (manifestPath outDir f) = "package.json"%string) /\
  Tree.lookup k (files w') = Tree.lookup k (files w).
Proof.
  intros Hrun Hk. split.
  - intro f. apply last_segment_ends_in; [reflexivity |].
    apply (manifest_target_name host).
  - exact (manifests_keep_other_names host packageName outDir sources w w' r
             Hrun k Hk).
Qed.

Lemma manifests_only_touch_package_json_witness :
  (forall f, last_segment (manifestPath "/proj/dist" f) = "package.json"%string) /\
  Tree.lookup "/proj/dist/sub/feature.cjs.js"
    (files (snd (forEach ["/proj/dist/sub/feature.cjs.js"]
                         (writeManifest Sample.bare "mylib" "/proj/dist")
                         {| files := [("/proj/dist/sub/feature.cjs.js", "F")];
                            events := [] |}))) =
  Tree.lookup "/proj/dist/sub/feature.cjs.js"
    (files {| files := [("/proj/dist/sub/feature.cjs.js", "F")]; events := [] |}).
Proof.
  apply (manifests_only_touch_package_json Sample.bare "mylib" "/proj/dist"
           ["/proj/dist/sub/feature.cjs.js"]
           {| files := [("/proj/dist/sub/feature.cjs.js", "F")]; events := [] |}
           (snd (forEach ["/proj/dist/sub/feature.cjs.js"]
                         (writeManifest Sample.bare "mylib" "/proj/dist")
                         {| files := [("/proj/dist/sub/feature.cjs.js", "F")];
                            events := [] |}))
           (inr tt)).
  - vm_compute. reflexivity.
  - vm_compute. discriminate.
Defined.

Section Stages.

Local Open Scope string_scope.

Variable host : Host.



(** A move, done or refused, changes only its two paths. *)
Lemma moveSync_confined (src dest : string) (w w' : World) (r : JSError + unit)
    (k : string) :
  moveSync host src dest w = (r, w') ->
  k <> resolve host src -> k <> resolve host dest ->
  Tree.lookup k (files w') = Tree.lookup k (files w).
Proof.
  unfold moveSync. rewrite bind_run, emit_run, bind_run.
  cbn [get_files files].
  destruct (Tree.lookup (resolve host src) (files w)) as [data |].
  - destruct (Tree.existsSync (resolve host dest) (files w));
      intros H Hs Hd; injection H as _ H; subst w'; [reflexivity |].
    cbn [files]. rewrite lookup_write, lookup_remove.
    apply String.eqb_neq in Hs, Hd. rewrite Hs, Hd. reflexivity.
  - intros H _ _. injection H as _ H. subst w'. reflexivity.
Qed.

Lemma moves_confined (rename : string -> string) (listed : list string)
    (k : string) :
  (forall p, In p listed ->
             k <> resolve host p /\ k <> resolve host (rename p)) ->
  forall (w w' : World) (r : JSError + unit),
    forEach listed (fun p => moveSync host p (rename p)) w = (r, w') ->
    Tree.lookup k (files w') = Tree.lookup k (files w).
Proof.
  induction listed as [| a rest IH]; intros Hk w w' r Hrun.
  - injection Hrun as _ Hrun. subst w'. reflexivity.
  - rewrite forEach_cons, bind_run in Hrun.
    destruct (Hk a (or_introl eq_refl)) as [K1 K2].
    destruct (moveSync host a (rename a) w) as [[e | []] w1] eqn:E.
    + injection Hrun as _ Hrun. subst w'.
      exact (moveSync_confined _ _ _ _ _ _ E K1 K2).
    + rewrite (IH (fun p Hp => Hk p (or_intror Hp)) _ _ _ Hrun).
      exact (moveSync_confined _ _ _ _ _ _ E K1 K2).
Qed.

End Stages.

Section CompiledPaths.

Local Open Scope string_scope.

Variable host : Host.

Lemma startsWith_shorter (a b s : string) :
  startsWith (a ++ b) s = true -> startsWith a s = true.
Proof.
  intro H. destruct (startsWith_inv _ _ H) as [c E]. subst s.
  rewrite append_assoc. apply startsWith_append.
Qed.

Lemma below_temporary (outDir k : string) :
  Tree.below outDir k = false ->
  String.eqb k (outDir ++ "/cjs") || Tree.below (outDir ++ "/cjs") k = false.
Proof.
  intro Hk. apply orb_false_iff. split.
  - apply String.eqb_neq. intro E. subst k.
    unfold Tree.below in Hk.
    change (outDir ++ "/cjs") with (outDir ++ "/" ++ "cjs") in Hk.
    rewrite <- append_assoc, startsWith_append in Hk. discriminate Hk.
  - destruct (Tree.below (outDir ++ "/cjs") k) eqn:E; [| reflexivity].
    unfold Tree.below in *.
    change ((outDir ++ "/cjs") ++ "/") with ((outDir ++ "/cjs") ++ "/") in E.
    rewrite append_assoc in E.
    change (outDir ++ "/cjs" ++ "/") with (outDir ++ "/" ++ "cjs/") in E.
    rewrite <- append_assoc in E.
    rewrite (startsWith_shorter _ _ _ E) in Hk. discriminate Hk.
Qed.

Lemma post_process_confined (packageName outDir : string) (w w' : World)
    (r : JSError + unit) (k : string) :
  plain_directory outDir = true ->
  post_process host packageName outDir w = (r, w') ->
  Tree.below outDir k = false ->
  last_segment k <> "package.json" ->
  Tree.lookup k (files w') = Tree.lookup k (files w).
Proof.
  intros Hplain Hrun Hk Hname.
  destruct (plain_directory_inv outDir Hplain) as [Hn [Hstar Hword]].
  pose proof (temporary_directory_plain outDir Hplain) as Hplain'.
  destruct (plain_directory_inv _ Hplain') as [Hn' [Hstar' Hword']].
  set (tmp := outDir ++ "/cjs") in *.
  unfold post_process in Hrun.
  rewrite bind_run, glob_sync_run in Hrun.
  set (compiled := nodup string_dec _) in Hrun.
  assert (Hmoved : forall w1 r1,
             forEach compiled (fun p => moveSync host p (cjsName p)) w = (r1, w1) ->
             Tree.lookup k (files w1) = Tree.lookup k (files w)).
  { intros w1 r1. apply moves_confined. intros p Hp.
    apply (compiled_files_spec host outDir (files w) p Hplain) in Hp.
    destruct Hp as [_ [rel [Ep [Hv He]]]].
    destruct (compiled_paths host outDir p rel Hplain Ep Hv He)
      as [R1 [R2 [_ [B1 [B2 _]]]]].
    rewrite R1, R2. split; intro E; subst k; congruence. }
  rewrite bind_run in Hrun.
  destruct (forEach compiled (fun p => moveSync host p (cjsName p)) w)
    as [[e | []] w1] eqn:Hmoves.
  { injection Hrun as _ Hrun. subst w'. exact (Hmoved _ _ eq_refl). }
  rewrite <- (Hmoved _ _ eq_refl).
  rewrite (path_join_cjs_star outDir Hn) in Hrun. fold tmp in Hrun.
  rewrite bind_run, (executeCmd_cp_run host tmp outDir _ Hword' Hword) in Hrun.
  assert (Hcopied : forall w0 w2 r2,
             shell_cp_r_star host tmp outDir w0 = (r2, w2) ->
             Tree.lookup k (files w2) = Tree.lookup k (files w0)).
  { intros w0 w2 r2 Hcp. apply (shell_cp_r_star_confined host _ _ _ _ _ _ Hcp).
    intros rel E. unfold resolve in E.
    rewrite (resolve_normal_absolute _ outDir Hn) in E. subst k.
    destruct (below_relative outDir rel) as [B _]. congruence. }
  match type of Hrun with
  | context [shell_cp_r_star host tmp outDir ?w0] =>
      destruct (shell_cp_r_star host tmp outDir w0) as [[e | []] w2] eqn:Hcp
  end.
  { injection Hrun as _ Hrun. subst w'. exact (Hcopied _ _ _ Hcp). }
  apply Hcopied in Hcp. cbn [files] in Hcp. rewrite <- Hcp.
  rewrite (path_join_cjs outDir Hn) in Hrun. fold tmp in Hrun.
  rewrite bind_run, (executeCmd_rm_run host tmp _ Hword') in Hrun.
  rewrite bind_run, glob_sync_run in Hrun. cbn [files] in Hrun.
  rewrite (manifests_keep_other_names host packageName outDir _ _ _ _ Hrun k Hname).
  cbn [files]. rewrite lookup_remove_recursive.
  replace (resolve host tmp) with tmp
    by (symmetry; exact (resolve_normal_absolute _ tmp Hn')).
  unfold tmp. rewrite (below_temporary outDir k Hk). reflexivity.
Qed.

End CompiledPaths.

(** X9.  For an output directory given as a normalized absolute path of
    plain characters, whatever [buildCJS] does after the bundler call, and
    whether it completes or throws, it leaves every file that lies outside
    the output directory and is not named [package.json] exactly as the
    bundler left it. *)
Theorem buildCJS_confined_to_output_directory (host : Host) (packageName : string)
    (cjsFilesToCompile : list string) (outDir : string) (sourcemap : bool)
    (packageJsonFiles target : list string) (w : World) (k : string) :
  plain_directory outDir = true ->
  Tree.below outDir k = false ->
  last_segment k <> "package.json"%string ->
  exists userPlugins w1,
    readUserPlugins host w = (inr userPlugins, w1) /\
    Tree.lookup k
      (files (snd (buildCJS host packageName cjsFilesToCompile outDir sourcemap
                            packageJsonFiles target w))) =
    Tree.lookup k
      (snd (esbuild_build host
              (cjsBuildOptions userPlugins cjsFilesToCompile outDir sourcemap
                               packageJsonFiles target)
              (files w1))).
Proof.
  intros Hplain Hk Hname.
  destruct (loader_total host w) as [up [loaded [Hl _]]].
  exists up, {| files := files w; events := (events w ++ loaded)%list |}.
  split; [exact Hl |].
  rewrite buildCJS_unfold, bind_run, Hl, bind_run, build_run.
  cbn [files events].
  destruct (esbuild_build host _ (files w)) as [[e | []] built];
    cbn [fst snd]; [reflexivity |].
  match goal with
  | |- context [post_process host packageName outDir ?w0] =>
      destruct (post_process host packageName outDir w0) as [r w'] eqn:Hpost
  end.
  cbn [snd].
  exact (post_process_confined host packageName outDir _ _ _ k Hplain Hpost
           Hk Hname).
Qed.

Lemma buildCJS_confined_to_output_directory_witness :
  exists userPlugins w1,
    readUserPlugins Sample.bare Sample.world = (inr userPlugins, w1) /\
    Tree.lookup "/proj/src/index.ts"
      (files (snd (buildCJS Sample.bare "mylib" Sample.entries "/proj/dist" true
                            ["package.json"] ["es2019"] Sample.world))) =
    Tree.lookup "/proj/src/index.ts"
      (snd (esbuild_build Sample.bare
              (cjsBuildOptions userPlugins Sample.entries "/proj/dist" true
                               ["package.json"] ["es2019"])
              (files w1))).
Proof.
  apply (buildCJS_confined_to_output_directory Sample.bare "mylib" Sample.entries
           "/proj/dist" true ["package.json"] ["es2019"] Sample.world
           "/proj/src/index.ts").
  - reflexivity.
  - reflexivity.
  - vm_compute. discriminate.
Defined.

Section OtherOutputs.

Local Open Scope string_scope.

Variable host : Host.

(** A complete post-processing moves a visible file of the temporary
    directory that is not a [.js] file to the same place below the output
    directory, under its own name, when the temporary directory has no
    entry named [cjs]. *)
Lemma relocation_of_other_files (packageName outDir : string) (w w' : World)
    (rel data : string) :
  plain_directory outDir = true ->
  post_process host packageName outDir w = (inr tt, w') ->
  (forall q, Tree.below (outDir ++ "/cjs/cjs") q = true ->
             Tree.lookup q (files w) = None) ->
  Tree.lookup (outDir ++ "/cjs/" ++ rel) (files w) = Some data ->
  visible_path rel = true ->
  endsWith ".js" rel = false ->
  rel <> "cjs" ->
  last_segment rel <> "package.json" ->
  Tree.lookup (outDir ++ "/" ++ rel) (files w') = Some data.
Proof.
  intros Hplain Hrun Hfree Hfile Hv Hjs Hnot Hname.
  destruct (post_process_stages host packageName outDir w w' Hplain Hrun)
    as [compiled [w1 [w2 [sources [Hnd [Hcompiled [Hmoves [Hcp [_ [_ Hwrites]]]]]]]]]].
  (* the moves leave the file alone *)
  destruct (compiled_moves host outDir compiled w w1 Hplain Hnd Hcompiled Hmoves)
    as [_ Hkept].
  assert (Hsame : Tree.lookup ((outDir ++ "/cjs") ++ "/" ++ rel) (files w1) =
                  Some data).
  { rewrite Hkept.
    - rewrite append_assoc. exact Hfile.
    - intro Hin. apply Hcompiled in Hin. destruct Hin as [_ [r0 [E [_ He0]]]].
      apply append_cancel_l in E. apply append_cancel_l in E. subst r0.
      congruence.
    - intro Hin. apply in_map_iff in Hin. destruct Hin as [p [E Hp]].
      apply Hcompiled in Hp. destruct Hp as [_ [r0 [Ep [Hv0 He0]]]].
      destruct (compiled_paths host outDir p r0 Hplain Ep Hv0 He0)
        as [_ [_ [_ [_ [_ [stem [_ En]]]]]]].
      rewrite En in E.
      apply append_cancel_l in E. apply append_cancel_l in E. subst rel.
      change (stem ++ ".cjs.js") with (stem ++ ".cjs" ++ ".js") in Hjs.
      rewrite <- append_assoc, endsWith_append in Hjs. discriminate Hjs. }
  rewrite (manifests_keep_other_names host packageName outDir _ _ _ _ Hwrites);
    [| rewrite last_segment_below; exact Hname].
  cbn [files].
  apply (copy_stage host outDir _ w2 rel data Hplain Hcp).
  - cbn [files].
    exact (moves_add_no_cjs_entry host outDir compiled w w1 Hplain Hnd Hcompiled
             Hmoves Hfree).
  - exact Hsame.
  - apply visible_path_top. exact Hv.
  - exact Hnot.
Qed.

End OtherOutputs.

(** X10.  For an output directory given as a normalized absolute path of
    plain characters and a complete run of [buildCJS] in which the bundler
    left no directory named [cjs] in the temporary directory: a file that
    the bundler left below the temporary directory on a path without
    hidden segments and that is not a [.js] file, such as a source map, is
    found under its own name at the same relative position below the
    output directory, unless it is named [package.json] or is itself the
    entry [cjs]. *)
Theorem buildCJS_relocates_other_files (host : Host) (packageName : string)
    (cjsFilesToCompile : list string) (outDir : string) (sourcemap : bool)
    (packageJsonFiles target : list string) (w w' : World) :
  plain_directory outDir = true ->
  buildCJS host packageName cjsFilesToCompile outDir sourcemap packageJsonFiles
           target w = (inr tt, w') ->
  exists userPlugins w1 built,
    readUserPlugins host w = (inr userPlugins, w1) /\
    esbuild_build host
      (cjsBuildOptions userPlugins cjsFilesToCompile outDir sourcemap
                       packageJsonFiles target)
      (files w1) = (inr tt, built) /\
    ((forall q, Tree.below (outDir ++ "/cjs/cjs") q = true ->
                Tree.lookup q built = None) ->
     forall rel data,
       Tree.lookup (outDir ++ "/cjs/" ++ rel) built = Some data ->
       visible_path rel = true ->
       endsWith ".js" rel = false ->
       rel <> "cjs"%string ->
       last_segment rel <> "package.json"%string ->
       Tree.lookup (outDir ++ "/" ++ rel) (files w') = Some data).
Proof.
  intros Hplain Hrun.
  destruct (buildCJS_complete _ _ _ _ _ _ _ _ _ Hrun)
    as [up [loaded [built [Hl [_ [Hb Hpost]]]]]].
  exists up, {| files := files w; events := (events w ++ loaded)%list |}, built.
  split; [exact Hl |]. split; [exact Hb |].
  intros Hfree rel data Hfile.
  exact (relocation_of_other_files host packageName outDir _ _ rel data Hplain
           Hpost Hfree Hfile).
Qed.

Lemma buildCJS_relocates_other_files_witness :
  Tree.lookup "/proj/dist/sub/feature.js.map"
    (files (snd (Sample.run Sample.bare "/proj/dist"))) = Some "{}"%string /\
  exists userPlugins w1 built,
    readUserPlugins Sample.bare Sample.world = (inr userPlugins, w1) /\
    esbuild_build Sample.bare
      (cjsBuildOptions userPlugins Sample.entries "/proj/dist" true
                       ["package.json"] ["es2019"])
      (files w1) = (inr tt, built) /\
    ((forall q, Tree.below ("/proj/dist" ++ "/cjs/cjs") q = true ->
                Tree.lookup q built = None) ->
     forall rel data,
       Tree.lookup ("/proj/dist" ++ "/cjs/" ++ rel) built = Some data ->
       visible_path rel = true ->
       endsWith ".js" rel = false ->
       rel <> "cjs"%string ->
       last_segment rel <> "package.json"%string ->
       Tree.lookup ("/proj/dist" ++ "/" ++ rel)
                   (files (snd (Sample.run Sample.bare "/proj/dist"))) = Some data).
Proof.
  split; [vm_compute; reflexivity |].
  apply (buildCJS_relocates_other_files Sample.bare "mylib" Sample.entries
           "/proj/dist" true ["package.json"] ["es2019"] Sample.world
           (snd (Sample.run Sample.bare "/proj/dist"))).
  - reflexivity.
  - vm_compute. reflexivity.
Defined.



(** X12.  The renaming of compiled files changes only paths that end in
    [.js], puts [.cjs] before that ending, and gives different files
    different names. *)
Theorem cjsName_renames_js_files (p q stem : string) :
  (endsWith ".js" p = false -> cjsName p = p) /\
  cjsName (stem ++ ".js") = (stem ++ ".cjs.js")%string /\
  (endsWith ".js" p = true -> endsWith ".js" q = true ->
   cjsName p = cjsName q -> p = q) /\
  (endsWith ".js" p = true -> cjsName p <> p).
Proof.
  split; [| split; [| split]].
  - intro H. unfold cjsName. apply replace_at_end_absent. exact H.
  - apply cjsName_js.
  - apply cjsName_injective.
  - intros H E. destruct (endsWith_inv _ _ H) as [a Ea]. subst p.
    rewrite cjsName_js in E. apply append_cancel_l in E. discriminate E.
Qed.
